(** * InterpreterSelectQuery: the pipeline builder of a SELECT statement

    A shallow embedding of [InterpreterSelectQuery] (the query-execution
    pipeline builder): the processing stages, the parsed SELECT, the
    settings, the operator graph under construction and the [execute*]
    steps that grow it.  Unsigned 64-bit quantities ([size_t], [UInt64])
    are values of [N]; sums computed by the program wrap modulo 2^64.
    A C++ exception is the [Throw] outcome of [Result]. *)

From Stdlib Require Import List Bool NArith ZArith String DecimalString Lia.
Import ListNotations.

Set Warnings "-register-all".

Local Open Scope string_scope.
Local Open Scope list_scope.
Local Open Scope N_scope.

(** ** Machine integers *)

Definition size_t_modulus : N := 2 ^ 64.

(** [a + b] on [size_t]. *)
Definition size_add (a b : N) : N := (a + b) mod size_t_modulus.

(** [vector::size()]. *)
Definition size {A : Type} (l : list A) : N := N.of_nat (List.length l).

(** [toString] of an unsigned and of a signed number. *)
Definition toString (n : N) : string := NilZero.string_of_uint (N.to_uint n).
Definition toString_Int64 (z : Z) : string := NilZero.string_of_int (Z.to_int z).

(** ** Exceptions *)

Module ErrorCodes.
Inductive Code : Set :=
| TOO_DEEP_SUBQUERIES
| THERE_IS_NO_COLUMN
| SAMPLING_NOT_SUPPORTED
| ILLEGAL_FINAL
| ILLEGAL_PREWHERE
| TOO_MANY_COLUMNS
| LOGICAL_ERROR
| NOT_IMPLEMENTED
| SCHEMA_VERSION_ERROR
| UNKNOWN_EXCEPTION
| NOT_FOUND_COLUMN_IN_BLOCK   (* thrown by the header of a batch *)
| NO_CODE              (* [Exception(msg)] built without an error code *)
| STD_OUT_OF_RANGE.    (* [std::vector::at] on a missing position *)
End ErrorCodes.
Export ErrorCodes.

Inductive Result (A : Type) : Type :=
| Ok (a : A)
| Throw (code : ErrorCodes.Code) (message : string).
Arguments Ok {A} a.
Arguments Throw {A} code message.

Definition bind {A B : Type} (r : Result A) (k : A -> Result B) : Result B :=
  match r with
  | Ok a => k a
  | Throw c m => Throw c m
  end.

Notation "x <- r ;; k" := (bind r (fun x => k))
  (at level 61, r at next level, right associativity).

Definition thrown {A : Type} (r : Result A) : option ErrorCodes.Code :=
  match r with
  | Ok _ => None
  | Throw c _ => Some c
  end.

(** ** Processing stages *)

Module QueryProcessingStage.

(** Modelled from the spec: the declaration of the enum (its header is
    not part of the sources); the spec fixes the order
    FetchColumns < WithMergeableState < Complete. *)
Inductive Enum : Set :=
| FetchColumns
| WithMergeableState
| Complete.

(** The underlying integer of an enumerator, on which the program's
    [<], [<=], [>], [>=] and [==] compare. *)
Definition rank (s : Enum) : N :=
  match s with
  | FetchColumns => 0
  | WithMergeableState => 1
  | Complete => 2
  end.

Definition ltb (a b : Enum) : bool := rank a <? rank b.
Definition leb (a b : Enum) : bool := rank a <=? rank b.
Definition gtb (a b : Enum) : bool := ltb b a.
Definition geb (a b : Enum) : bool := leb b a.
Definition eqb (a b : Enum) : bool := rank a =? rank b.

Definition lt (a b : Enum) : Prop := (rank a < rank b)%N.
Definition le (a b : Enum) : Prop := (rank a <= rank b)%N.

End QueryProcessingStage.

(** ** The parsed SELECT *)

Definition Names := list string.

(** An expression of the syntax tree, kept by its column name. *)
Definition ASTExpr := string.

Record ASTOrderByElement : Set := {
  order_column : string;          (* children.front()->getColumnName() *)
  direction : bool;               (* true = ascending *)
  nulls_direction : bool;
  collation : option string
}.

Module ASTTableJoin.
Inductive Kind : Set := Inner | Left | Right | Full | Cross.
End ASTTableJoin.

(** What [query.table()] points to. *)
Inductive TableExpression (Q : Type) : Type :=
| ASTIdentifier (name : string)                (* a table name *)
| ASTFunction (name : string)                  (* a table function *)
| ASTSelectWithUnionQuery (list_of_selects : list Q).
Arguments ASTIdentifier {Q} name.
Arguments ASTFunction {Q} name.
Arguments ASTSelectWithUnionQuery {Q} list_of_selects.

Inductive ASTSelectQuery : Type := Build_ASTSelectQuery {
  distinct : bool;
  group_by_with_totals : bool;
  prewhere_expression : option ASTExpr;
  where_expression : option ASTExpr;
  group_expression_list : option (list ASTExpr);
  having_expression : option ASTExpr;
  order_expression_list : option (list ASTOrderByElement);
  limit_by_value : option N;
  limit_by_expression_list : option (list ASTExpr);
  limit_offset : option N;              (* a UInt64 literal *)
  limit_length : option N;              (* a UInt64 literal *)
  partition_expression_list : option (list ASTExpr);
  no_kvstore : bool;
  sample_size : option ASTExpr;
  final : bool;
  join : option ASTTableJoin.Kind;      (* join()->table_join kind *)
  database : option string;
  table : option (TableExpression ASTSelectQuery)
}.

(** [if (ptr)] on a possibly null pointer. *)
Definition present {A : Type} (p : option A) : bool :=
  match p with Some _ => true | None => false end.

Definition is_subquery (t : option (TableExpression ASTSelectQuery)) : bool :=
  match t with
  | Some (ASTSelectWithUnionQuery _) => true
  | _ => false
  end.

Definition set_group_by_with_totals (q : ASTSelectQuery) (b : bool) : ASTSelectQuery :=
  {| distinct := distinct q;
     group_by_with_totals := b;
     prewhere_expression := prewhere_expression q;
     where_expression := where_expression q;
     group_expression_list := group_expression_list q;
     having_expression := having_expression q;
     order_expression_list := order_expression_list q;
     limit_by_value := limit_by_value q;
     limit_by_expression_list := limit_by_expression_list q;
     limit_offset := limit_offset q;
     limit_length := limit_length q;
     partition_expression_list := partition_expression_list q;
     no_kvstore := no_kvstore q;
     sample_size := sample_size q;
     final := final q;
     join := join q;
     database := database q;
     table := table q |}.

(** ** Settings *)

Module OverflowMode.
Inductive Enum : Set := THROW | BREAK | ANY.
End OverflowMode.

Module TotalsMode.
Inductive Enum : Set :=
| BEFORE_HAVING
| AFTER_HAVING_INCLUSIVE
| AFTER_HAVING_EXCLUSIVE
| AFTER_HAVING_AUTO.
End TotalsMode.

Definition OverflowMode_is_ANY (m : OverflowMode.Enum) : bool :=
  match m with OverflowMode.ANY => true | _ => false end.

Definition TotalsMode_is_AFTER_HAVING_EXCLUSIVE (m : TotalsMode.Enum) : bool :=
  match m with TotalsMode.AFTER_HAVING_EXCLUSIVE => true | _ => false end.

(** The settings the builder reads.  [max_streams_to_max_threads_ratio]
    is a floating-point factor in the program; here it is the map
    [n |-> size_t (n * ratio)] it is used for. *)
Record Settings : Type := {
  max_subquery_depth : N;
  max_threads : N;
  max_distributed_connections : N;
  max_streams_to_max_threads_ratio : N -> N;
  max_block_size : N;
  max_columns_to_read : N;
  max_rows_to_read : N;
  max_bytes_to_read : N;
  read_overflow_mode : OverflowMode.Enum;
  max_execution_time : N;
  timeout_overflow_mode : OverflowMode.Enum;
  min_execution_speed : N;
  timeout_before_checking_execution_speed : N;
  max_rows_to_group_by : N;
  group_by_overflow_mode : OverflowMode.Enum;
  totals_mode : TotalsMode.Enum;
  totals_auto_threshold : N;
  group_by_two_level_threshold : N;
  group_by_two_level_threshold_bytes : N;
  max_bytes_before_external_group_by : N;
  empty_result_for_aggregation_by_empty_set : bool;
  aggregation_memory_efficient_merge_threads : N;
  distributed_aggregation_memory_efficient : bool;
  max_rows_to_sort : N;
  max_bytes_to_sort : N;
  sort_overflow_mode : OverflowMode.Enum;
  max_bytes_before_external_sort : N;
  max_rows_in_distinct : N;
  max_bytes_in_distinct : N;
  distinct_overflow_mode : OverflowMode.Enum;
  extremes : bool;
  max_rows_to_transfer : N;
  max_bytes_to_transfer : N;
  transfer_overflow_mode : OverflowMode.Enum;
  max_result_rows : N;
  max_result_bytes : N;
  regions : string
}.

(** The settings handed to the interpreter of a FROM subquery: no cap on
    the size of its result, no extremes. *)
Definition subquery_settings (s : Settings) : Settings :=
  {| max_subquery_depth := max_subquery_depth s;
     max_threads := max_threads s;
     max_distributed_connections := max_distributed_connections s;
     max_streams_to_max_threads_ratio := max_streams_to_max_threads_ratio s;
     max_block_size := max_block_size s;
     max_columns_to_read := max_columns_to_read s;
     max_rows_to_read := max_rows_to_read s;
     max_bytes_to_read := max_bytes_to_read s;
     read_overflow_mode := read_overflow_mode s;
     max_execution_time := max_execution_time s;
     timeout_overflow_mode := timeout_overflow_mode s;
     min_execution_speed := min_execution_speed s;
     timeout_before_checking_execution_speed := timeout_before_checking_execution_speed s;
     max_rows_to_group_by := max_rows_to_group_by s;
     group_by_overflow_mode := group_by_overflow_mode s;
     totals_mode := totals_mode s;
     totals_auto_threshold := totals_auto_threshold s;
     group_by_two_level_threshold := group_by_two_level_threshold s;
     group_by_two_level_threshold_bytes := group_by_two_level_threshold_bytes s;
     max_bytes_before_external_group_by := max_bytes_before_external_group_by s;
     empty_result_for_aggregation_by_empty_set := empty_result_for_aggregation_by_empty_set s;
     aggregation_memory_efficient_merge_threads := aggregation_memory_efficient_merge_threads s;
     distributed_aggregation_memory_efficient := distributed_aggregation_memory_efficient s;
     max_rows_to_sort := max_rows_to_sort s;
     max_bytes_to_sort := max_bytes_to_sort s;
     sort_overflow_mode := sort_overflow_mode s;
     max_bytes_before_external_sort := max_bytes_before_external_sort s;
     max_rows_in_distinct := max_rows_in_distinct s;
     max_bytes_in_distinct := max_bytes_in_distinct s;
     distinct_overflow_mode := distinct_overflow_mode s;
     extremes := false;
     max_rows_to_transfer := max_rows_to_transfer s;
     max_bytes_to_transfer := max_bytes_to_transfer s;
     transfer_overflow_mode := transfer_overflow_mode s;
     max_result_rows := 0;
     max_result_bytes := 0;
     regions := regions s |}.

Record Context : Type := {
  settings : Settings;
  temporary_path : string
}.

(** ** Headers *)

(** Modelled from the spec: the header of a batch (class [Block], not
    part of the sources): named columns in positions; asking for the
    position of a column that is missing is a fatal inconsistency. *)
Definition Block := list string.

Fixpoint getPositionByName (header : Block) (name : string) : Result N :=
  match header with
  | [] => Throw NOT_FOUND_COLUMN_IN_BLOCK ("Not found column " ++ name ++ " in block")
  | c :: rest =>
      if String.eqb c name then Ok 0
      else p <- getPositionByName rest name ;; Ok (p + 1)
  end.

(** [for (name : names) keys.push_back(header.getPositionByName(name))]. *)
Fixpoint getPositionsByNames (header : Block) (names : Names) : Result (list N) :=
  match names with
  | [] => Ok []
  | n :: rest =>
      p <- getPositionByName header n ;;
      ps <- getPositionsByNames header rest ;;
      Ok (p :: ps)
  end.

(** ** Expression programs *)

Inductive ChainStep : Set :=
| JoinStep
| WhereStep
| AggregationStep       (* GROUP BY keys and aggregate-function arguments *)
| HavingStep
| OrderAndSelectStep
| LimitByStep
| ProjectResultStep
| AliasStep.            (* ALIAS columns of the table declaration *)

(** The actions of one step of the chain: which step, whether it was
    appended with [only_types] (dry), and whether [prependProjectInput]
    was called on it. *)
Record ExpressionActions : Set := {
  step : ChainStep;
  only_types : bool;
  project_input : bool
}.

(** A pointer to actions; the null pointer is [None]. *)
Definition ExpressionActionsPtr := option ExpressionActions.

Definition prependProjectInput (a : ExpressionActions) : ExpressionActions :=
  {| step := step a; only_types := only_types a; project_input := true |}.

(** ** Operators *)

Record SizeLimits : Set := {
  max_rows : N;
  max_bytes : N;
  overflow_mode : OverflowMode.Enum
}.

Record LocalLimits : Set := {
  size_limits : SizeLimits;
  limits_max_execution_time : N;
  limits_timeout_overflow_mode : OverflowMode.Enum;
  limits_min_execution_speed : N;
  limits_timeout_before_checking_execution_speed : N
}.

Record SortColumnDescription : Set := {
  column_name : string;
  sort_direction : bool;
  sort_nulls_direction : bool;
  collator : option string
}.

Definition SortDescription := list SortColumnDescription.

Record AggregateDescription : Set := {
  function_name : string;
  arguments : list N;
  argument_names : Names
}.

Module Aggregator.
Record Params : Set := {
  src_header : Block;
  keys : list N;
  aggregates : list AggregateDescription;
  overflow_row : bool;
  max_rows_to_group_by : N;
  group_by_overflow_mode : OverflowMode.Enum;
  group_by_two_level_threshold : N;
  group_by_two_level_threshold_bytes : N;
  max_bytes_before_external_group_by : N;
  empty_result_for_aggregation_by_empty_set : bool;
  tmp_path : string
}.
End Aggregator.

(** A set or join build side that a subquery has to fill. *)
Definition SubqueryForSet := string.

(** The operator graph.  Leaves are the operators handed over by a
    collaborator (prepared input, storage, FROM subquery); every other
    constructor is an operator the builder makes, with the arguments the
    builder passes.  The last four constructors record a setter called on
    an operator ([addTableLock], [setLimits], [setQuota],
    [enableExtremes]). *)
Inductive BlockInputStream : Type :=
| SourceStream (origin : string) (index : N)
| NullBlockInputStream (header : Block)
| NonJoinedBlockInputStream (join_actions : ExpressionActionsPtr) (left_header : Block)
    (index step max_block_size : N)
| ExpressionBlockInputStream (input : BlockInputStream) (expression : ExpressionActionsPtr)
| FilterBlockInputStream (input : BlockInputStream) (expression : ExpressionActionsPtr)
    (filter_column : string)
| ParallelAggregatingBlockInputStream (inputs additional_inputs : list BlockInputStream)
    (params : Aggregator.Params) (final : bool) (max_threads temporary_data_merge_threads : N)
| AggregatingBlockInputStream (input : BlockInputStream) (params : Aggregator.Params)
    (final : bool)
| ConcatBlockInputStream (inputs : list BlockInputStream)
| MergingAggregatedBlockInputStream (input : BlockInputStream) (params : Aggregator.Params)
    (final : bool) (max_threads : N)
| MergingAggregatedMemoryEfficientBlockInputStream (inputs : list BlockInputStream)
    (params : Aggregator.Params) (final : bool) (reading_threads merging_threads : N)
| TotalsHavingBlockInputStream (input : BlockInputStream) (overflow_row : bool)
    (expression : ExpressionActionsPtr) (filter_column : string)
    (totals_mode : TotalsMode.Enum) (auto_include_threshold : N)
| PartialSortingBlockInputStream (input : BlockInputStream) (description : SortDescription)
    (limit : N)
| MergeSortingBlockInputStream (input : BlockInputStream) (description : SortDescription)
    (max_merged_block_size limit max_bytes_before_external_sort : N) (tmp_path : string)
| AsynchronousBlockInputStream (input : BlockInputStream)
| MergingSortedBlockInputStream (inputs : list BlockInputStream)
    (description : SortDescription) (max_block_size limit : N)
| DistinctSortedBlockInputStream (input : BlockInputStream) (limits : SizeLimits)
    (limit_hint : N) (columns : Names)
| DistinctBlockInputStream (input : BlockInputStream) (limits : SizeLimits)
    (limit_hint : N) (columns : Names)
| UnionBlockInputStream (inputs additional_inputs : list BlockInputStream) (max_threads : N)
| LimitBlockInputStream (input : BlockInputStream) (limit offset : N)
    (always_read_till_end : bool)
| LimitByBlockInputStream (input : BlockInputStream) (group_size : N) (columns : Names)
| CreatingSetsBlockInputStream (input : BlockInputStream)
    (subqueries_for_sets : list SubqueryForSet) (network_transfer_limits : SizeLimits)
| addTableLock (stream : BlockInputStream)
| setLimits (limits : LocalLimits) (stream : BlockInputStream)
| setQuota (stream : BlockInputStream)
| enableExtremes (stream : BlockInputStream).

Definition BlockInputStreams := list BlockInputStream.

(** ** The pipeline under construction *)

(** Modelled from the spec: the [Pipeline] structure of the class
    declaration (the header is not part of the sources): the main chains,
    the side channel of non-matched rows of outer joins, a helper that
    transforms every chain uniformly, the first chain and the chain
    count. *)
Record Pipeline : Type := {
  streams : BlockInputStreams;
  streams_with_non_joined_data : BlockInputStreams
}.

Definition empty_pipeline : Pipeline :=
  {| streams := []; streams_with_non_joined_data := [] |}.

(** [pipeline.streams.at(0)], read. *)
Definition firstStream (p : Pipeline) : Result BlockInputStream :=
  match streams p with
  | s :: _ => Ok s
  | [] => Throw STD_OUT_OF_RANGE "vector::at"
  end.

(** [pipeline.firstStream() = s]. *)
Definition set_firstStream (p : Pipeline) (s : BlockInputStream) : Result Pipeline :=
  match streams p with
  | _ :: rest =>
      Ok {| streams := s :: rest;
            streams_with_non_joined_data := streams_with_non_joined_data p |}
  | [] => Throw STD_OUT_OF_RANGE "vector::at"
  end.

Definition transform (f : BlockInputStream -> BlockInputStream) (p : Pipeline) : Pipeline :=
  {| streams := map f (streams p);
     streams_with_non_joined_data := map f (streams_with_non_joined_data p) |}.

(** [streams.size() + streams_with_non_joined_data.size()]; the sizes of
    two vectors in memory do not add up to 2^64, the sum is exact. *)
Definition chain_count (p : Pipeline) : N :=
  size (streams p) + size (streams_with_non_joined_data p).

Definition hasMoreThanOneStream (p : Pipeline) : bool :=
  1 <? chain_count p.

(** ** Limits of the query *)

(** [getLimitLengthAndOffset]: the pair (length, offset). *)
Definition getLimitLengthAndOffset (query : ASTSelectQuery) : N * N :=
  match limit_length query with
  | Some len =>
      (len, match limit_offset query with Some off => off | None => 0 end)
  | None => (0, 0)
  end.

(** [getSortDescription]; without ORDER BY the program dereferences a
    null pointer, which is left out: the callers run under ORDER BY. *)
Definition getSortDescription (query : ASTSelectQuery) : SortDescription :=
  match order_expression_list query with
  | Some elems =>
      map (fun e => {| column_name := order_column e;
                       sort_direction := direction e;
                       sort_nulls_direction := nulls_direction e;
                       collator := collation e |}) elems
  | None => []
  end.

Definition getLimitForSorting (query : ASTSelectQuery) : N :=
  if negb (distinct query) && negb (present (limit_by_expression_list query))
  then let '(limit_length, limit_offset) := getLimitLengthAndOffset query in
       size_add limit_length limit_offset
  else 0.

(** ** Collaborators *)

(** What the builder asks of the expression analyzer of the query
    ([query_analyzer]); the analyzer itself is not part of the sources.
    Each [append*] answer is whether the clause exists. *)
Record ExpressionAnalyzer : Type := {
  hasAggregation : bool;
  appendJoin : bool;
  appendWhere : bool;
  appendHaving : bool;
  appendOrderBy : bool;
  appendLimitBy : bool;
  select_required_output : Names;
  getRequiredSourceColumns : Names;
  getAggregateInfo : Names * list AggregateDescription;
  getSubqueriesForSets : list SubqueryForSet
}.

Module ColumnDefaultKind.
Inductive Enum : Set := Default | Materialized | Alias.
End ColumnDefaultKind.

Module StorageEngine.
Inductive Enum : Set := TMT | DT | UNSUPPORTED.
End StorageEngine.

(** What the builder asks of a table ([IStorage], not part of the
    sources).  [read] gets the columns, the batch-size hint and the
    stream-count hint, and answers with the stage up to which the storage
    has processed the query and with its operators.
    [alias_required_columns] stands for the columns that the actions
    computing the ALIAS columns need. *)
Record IStorage : Type := {
  storage_name : string;
  isRemote : bool;
  column_aliases : Names;
  column_defaults : list (string * ColumnDefaultKind.Enum);
  alias_required_columns : Names -> Names;
  manageable : option StorageEngine.Enum;     (* engine of an IManageableStorage *)
  getSampleBlockForColumns : Names -> Block;
  read : Names -> N -> N -> QueryProcessingStage.Enum * BlockInputStreams
}.

(** ** The analysis of the query into steps *)

Record AnalysisResult : Type := {
  has_join : bool;
  has_where : bool;
  need_aggregate : bool;
  has_having : bool;
  has_order_by : bool;
  has_limit_by : bool;
  before_join : ExpressionActionsPtr;
  before_where : ExpressionActionsPtr;
  before_aggregation : ExpressionActionsPtr;
  before_having : ExpressionActionsPtr;
  before_order_and_select : ExpressionActionsPtr;
  before_limit_by : ExpressionActionsPtr;
  final_projection : ExpressionActionsPtr;
  selected_columns : Names;
  first_stage : bool;
  second_stage : bool;
  subqueries_for_sets : list SubqueryForSet
}.

(** ** The interpreter *)

(** The members of the class that the builder reads or writes. *)
Record InterpreterSelectQuery : Type := {
  query : ASTSelectQuery;
  context : Context;
  to_stage : QueryProcessingStage.Enum;
  subquery_depth : N;
  only_analyze : bool;
  input : option BlockInputStream;
  max_streams : N;
  storage : option IStorage;
  query_analyzer : ExpressionAnalyzer
}.

Definition with_query (this : InterpreterSelectQuery) (q : ASTSelectQuery)
  : InterpreterSelectQuery :=
  {| query := q;
     context := context this;
     to_stage := to_stage this;
     subquery_depth := subquery_depth this;
     only_analyze := only_analyze this;
     input := input this;
     max_streams := max_streams this;
     storage := storage this;
     query_analyzer := query_analyzer this |}.

Definition with_max_streams (this : InterpreterSelectQuery) (n : N)
  : InterpreterSelectQuery :=
  {| query := query this;
     context := context this;
     to_stage := to_stage this;
     subquery_depth := subquery_depth this;
     only_analyze := only_analyze this;
     input := input this;
     max_streams := n;
     storage := storage this;
     query_analyzer := query_analyzer this |}.

Definition actions_if (b : bool) (s : ChainStep) (dry : bool) : ExpressionActionsPtr :=
  if b then Some {| step := s; only_types := dry; project_input := false |} else None.

Definition analyzeExpressions (this : InterpreterSelectQuery)
    (from_stage : QueryProcessingStage.Enum) : AnalysisResult :=
  let analyzer := query_analyzer this in
  let first := QueryProcessingStage.ltb from_stage QueryProcessingStage.WithMergeableState
               && QueryProcessingStage.geb (to_stage this) QueryProcessingStage.WithMergeableState in
  let second := QueryProcessingStage.leb from_stage QueryProcessingStage.WithMergeableState
               && QueryProcessingStage.gtb (to_stage this) QueryProcessingStage.WithMergeableState in
  let aggregate := hasAggregation analyzer in
  let join_ := appendJoin analyzer in
  let where_ := appendWhere analyzer in
  let having_ := aggregate && appendHaving analyzer in
  let limit_by_ := appendLimitBy analyzer in
  let select_dry := if aggregate then negb second else negb first in
  {| has_join := join_;
     has_where := where_;
     need_aggregate := aggregate;
     has_having := having_;
     has_order_by := appendOrderBy analyzer;
     has_limit_by := limit_by_;
     before_join := actions_if join_ JoinStep (negb first);
     before_where := option_map prependProjectInput (actions_if where_ WhereStep (negb first));
     before_aggregation := actions_if aggregate AggregationStep (negb first);
     before_having := option_map prependProjectInput (actions_if having_ HavingStep (negb second));
     before_order_and_select := actions_if true OrderAndSelectStep select_dry;
     before_limit_by := actions_if limit_by_ LimitByStep (negb second);
     final_projection := actions_if true ProjectResultStep false;
     selected_columns := select_required_output analyzer;
     first_stage := first;
     second_stage := second;
     subqueries_for_sets := getSubqueriesForSets analyzer |}.

(** The interpreter of a FROM subquery ([InterpreterSelectWithUnionQuery],
    not part of the sources): one nested interpreter per SELECT of the
    union. *)
Record InterpreterSelectWithUnionQuery : Type := {
  nested_interpreters : list InterpreterSelectQuery
}.

(** [InterpreterSelectQuery::ignoreWithTotals]. *)
Definition ignoreWithTotals (this : InterpreterSelectQuery) : InterpreterSelectQuery :=
  with_query this (set_group_by_with_totals (query this) false).

(** Modelled from the spec: [InterpreterSelectWithUnionQuery::ignoreWithTotals]
    (the class is not part of the sources).  The spec is silent on it;
    after the comment at its call site (WITH TOTALS is ignored in the
    subquery), the call is passed on to the interpreter of every SELECT
    of the subquery. *)
Definition union_ignoreWithTotals (u : InterpreterSelectWithUnionQuery)
  : InterpreterSelectWithUnionQuery :=
  {| nested_interpreters := map ignoreWithTotals (nested_interpreters u) |}.

Section Builder.

(** Virtual methods of the operators, which the builder calls. *)
Variable getHeader : BlockInputStream -> Block.
Variable isGroupedOutput : BlockInputStream -> bool.
(** Whether [dynamic_cast<IProfilingBlockInputStream *>] succeeds. *)
Variable isProfiling : BlockInputStream -> bool.

(** The subquery interpreter: its constructor (subquery, context,
    required columns, target stage, depth), and the two ways of running
    it.  Each of them builds or runs the interpreters of the SELECTs of
    the subquery, and throws what these throw. *)
Variable newInterpreterSelectWithUnionQuery :
  list ASTSelectQuery -> Context -> Names -> QueryProcessingStage.Enum -> N ->
  Result InterpreterSelectWithUnionQuery.
Variable union_executeWithMultipleStreams :
  InterpreterSelectWithUnionQuery -> Result BlockInputStreams.
Variable union_getSampleBlock : InterpreterSelectWithUnionQuery -> Result Block.

(** [e->getColumnName()] of a clause of the query. *)
Definition getColumnName (e : option ASTExpr) : string :=
  match e with Some c => c | None => EmptyString end.

Definition executeWhere (this : InterpreterSelectQuery) (pipeline : Pipeline)
    (expression : ExpressionActionsPtr) : Pipeline :=
  transform (fun stream =>
    FilterBlockInputStream stream expression
      (getColumnName (where_expression (query this)))) pipeline.

Definition executeHaving (this : InterpreterSelectQuery) (pipeline : Pipeline)
    (expression : ExpressionActionsPtr) : Pipeline :=
  transform (fun stream =>
    FilterBlockInputStream stream expression
      (getColumnName (having_expression (query this)))) pipeline.

Definition executeExpression (pipeline : Pipeline) (expression : ExpressionActionsPtr)
  : Pipeline :=
  transform (fun stream => ExpressionBlockInputStream stream expression) pipeline.

Definition executeProjection (pipeline : Pipeline) (expression : ExpressionActionsPtr)
  : Pipeline :=
  transform (fun stream => ExpressionBlockInputStream stream expression) pipeline.

(** *** Union *)

Definition executeUnion (this : InterpreterSelectQuery) (pipeline : Pipeline) : Pipeline :=
  match chain_count pipeline with
  | 0 => pipeline
  | 1 =>
      if size (streams pipeline) =? 1 then pipeline
      else
        (* streams_with_non_joined_data's size is 1. *)
        {| streams := streams pipeline ++ firstn 1 (streams_with_non_joined_data pipeline);
           streams_with_non_joined_data := [] |}
  | _ =>
      let stream :=
        UnionBlockInputStream (streams pipeline) (streams_with_non_joined_data pipeline)
          (max_streams this) in
      {| streams := [stream]; streams_with_non_joined_data := [] |}
  end.

(** *** Aggregation *)

(** [if (descr.arguments.empty()) for (name : descr.argument_names) ...]. *)
Definition fill_arguments (header : Block) (descr : AggregateDescription)
  : Result AggregateDescription :=
  match arguments descr with
  | [] =>
      ps <- getPositionsByNames header (argument_names descr) ;;
      Ok {| function_name := function_name descr;
            arguments := ps;
            argument_names := argument_names descr |}
  | _ :: _ => Ok descr
  end.

Fixpoint fill_all_arguments (header : Block) (descrs : list AggregateDescription)
  : Result (list AggregateDescription) :=
  match descrs with
  | [] => Ok []
  | d :: rest =>
      d' <- fill_arguments header d ;;
      rest' <- fill_all_arguments header rest ;;
      Ok (d' :: rest')
  end.

Definition merge_threads (s : Settings) : N :=
  if aggregation_memory_efficient_merge_threads s =? 0
  then max_threads s
  else aggregation_memory_efficient_merge_threads s.

Definition executeAggregation (this : InterpreterSelectQuery) (pipeline : Pipeline)
    (expression : ExpressionActionsPtr) (overflow_row final : bool) : Result Pipeline :=
  let pipeline :=
    transform (fun stream => ExpressionBlockInputStream stream expression) pipeline in
  let '(key_names, aggregates) := getAggregateInfo (query_analyzer this) in
  first <- firstStream pipeline ;;
  let header := getHeader first in
  keys <- getPositionsByNames header key_names ;;
  aggregates <- fill_all_arguments header aggregates ;;
  let settings := settings (context this) in
  (* Two-level aggregation is useful in two cases: parallel aggregation,
     and aggregation with temporary data on the disk. *)
  let allow_to_use_two_level_group_by :=
    (1 <? size (streams pipeline))
    || negb (max_bytes_before_external_group_by settings =? 0) in
  let params :=
    {| Aggregator.src_header := header;
       Aggregator.keys := keys;
       Aggregator.aggregates := aggregates;
       Aggregator.overflow_row := overflow_row;
       Aggregator.max_rows_to_group_by := max_rows_to_group_by settings;
       Aggregator.group_by_overflow_mode := group_by_overflow_mode settings;
       Aggregator.group_by_two_level_threshold :=
         if allow_to_use_two_level_group_by
         then group_by_two_level_threshold settings else 0;
       Aggregator.group_by_two_level_threshold_bytes :=
         if allow_to_use_two_level_group_by
         then group_by_two_level_threshold_bytes settings else 0;
       Aggregator.max_bytes_before_external_group_by :=
         max_bytes_before_external_group_by settings;
       Aggregator.empty_result_for_aggregation_by_empty_set :=
         empty_result_for_aggregation_by_empty_set settings;
       Aggregator.tmp_path := temporary_path (context this) |} in
  (* If there are several sources, then we perform parallel aggregation *)
  if (1 <? size (streams pipeline))
     || (1 <? size (streams_with_non_joined_data pipeline))
  then
    let stream :=
      ParallelAggregatingBlockInputStream (streams pipeline)
        (streams_with_non_joined_data pipeline) params final
        (max_streams this) (merge_threads settings) in
    Ok {| streams := [stream]; streams_with_non_joined_data := [] |}
  else
    let inputs :=
      firstn 1 (streams pipeline) ++ firstn 1 (streams_with_non_joined_data pipeline) in
    Ok {| streams :=
            [AggregatingBlockInputStream (ConcatBlockInputStream inputs) params final];
          streams_with_non_joined_data := [] |}.

(** The four-argument constructor of [Aggregator::Params], used for
    merging: no caps, no two-level thresholds. *)
Definition merge_params (header : Block) (keys : list N)
    (aggregates : list AggregateDescription) (overflow_row : bool) : Aggregator.Params :=
  {| Aggregator.src_header := header;
     Aggregator.keys := keys;
     Aggregator.aggregates := aggregates;
     Aggregator.overflow_row := overflow_row;
     Aggregator.max_rows_to_group_by := 0;
     Aggregator.group_by_overflow_mode := OverflowMode.THROW;
     Aggregator.group_by_two_level_threshold := 0;
     Aggregator.group_by_two_level_threshold_bytes := 0;
     Aggregator.max_bytes_before_external_group_by := 0;
     Aggregator.empty_result_for_aggregation_by_empty_set := false;
     Aggregator.tmp_path := EmptyString |}.

Definition executeMergeAggregated (this : InterpreterSelectQuery) (pipeline : Pipeline)
    (overflow_row final : bool) : Result Pipeline :=
  let '(key_names, aggregates) := getAggregateInfo (query_analyzer this) in
  first <- firstStream pipeline ;;
  let header := getHeader first in
  keys <- getPositionsByNames header key_names ;;
  let params := merge_params header keys aggregates overflow_row in
  let settings := settings (context this) in
  if negb (distributed_aggregation_memory_efficient settings) then
    (* We union several sources into one, parallelizing the work. *)
    let pipeline := executeUnion this pipeline in
    (* Now merge the aggregated blocks *)
    first <- firstStream pipeline ;;
    set_firstStream pipeline
      (MergingAggregatedBlockInputStream first params final (max_threads settings))
  else
    Ok {| streams :=
            [MergingAggregatedMemoryEfficientBlockInputStream (streams pipeline) params
               final (max_streams this) (merge_threads settings)];
          streams_with_non_joined_data := streams_with_non_joined_data pipeline |}.

Definition executeTotalsAndHaving (this : InterpreterSelectQuery) (pipeline : Pipeline)
    (has_having : bool) (expression : ExpressionActionsPtr) (overflow_row : bool)
  : Result Pipeline :=
  let pipeline := executeUnion this pipeline in
  let settings := settings (context this) in
  first <- firstStream pipeline ;;
  set_firstStream pipeline
    (TotalsHavingBlockInputStream first overflow_row expression
       (if has_having then getColumnName (having_expression (query this)) else EmptyString)
       (totals_mode settings) (totals_auto_threshold settings)).

(** *** Sorting *)

Definition sorting_limits (s : Settings) : LocalLimits :=
  {| size_limits := {| max_rows := max_rows_to_sort s;
                       max_bytes := max_bytes_to_sort s;
                       overflow_mode := sort_overflow_mode s |};
     limits_max_execution_time := 0;
     limits_timeout_overflow_mode := OverflowMode.THROW;
     limits_min_execution_speed := 0;
     limits_timeout_before_checking_execution_speed := 0 |}.

Definition executeOrder (this : InterpreterSelectQuery) (pipeline : Pipeline)
  : Result Pipeline :=
  let order_descr := getSortDescription (query this) in
  let limit := getLimitForSorting (query this) in
  let settings := settings (context this) in
  let pipeline :=
    transform (fun stream =>
      let sorting_stream := PartialSortingBlockInputStream stream order_descr limit in
      (* Limits on sorting *)
      setLimits (sorting_limits settings) sorting_stream) pipeline in
  (* If there are several streams, we merge them into one *)
  let pipeline := executeUnion this pipeline in
  (* Merge the sorted blocks. *)
  first <- firstStream pipeline ;;
  set_firstStream pipeline
    (MergeSortingBlockInputStream first order_descr (max_block_size settings) limit
       (max_bytes_before_external_sort settings) (temporary_path (context this))).

Definition executeMergeSorted (this : InterpreterSelectQuery) (pipeline : Pipeline)
  : Result Pipeline :=
  let order_descr := getSortDescription (query this) in
  let limit := getLimitForSorting (query this) in
  let settings := settings (context this) in
  (* If there are several streams, then we merge them into one *)
  if hasMoreThanOneStream pipeline then
    let pipeline := transform AsynchronousBlockInputStream pipeline in
    (* Merge the sorted sources into one sorted source. *)
    pipeline <- set_firstStream pipeline
      (MergingSortedBlockInputStream (streams pipeline) order_descr
         (max_block_size settings) limit) ;;
    Ok {| streams := firstn 1 (streams pipeline);
          streams_with_non_joined_data := streams_with_non_joined_data pipeline |}
  else Ok pipeline.

(** *** Distinct, limits *)

Definition executeDistinct (this : InterpreterSelectQuery) (pipeline : Pipeline)
    (before_order : bool) (columns : Names) : Pipeline :=
  if distinct (query this) then
    let settings := settings (context this) in
    let '(limit_length, limit_offset) := getLimitLengthAndOffset (query this) in
    (* If after this stage of DISTINCT ORDER BY is not executed, then you
       can get no more than limit_length + limit_offset of different rows. *)
    let limit_for_distinct :=
      if negb (present (order_expression_list (query this))) || negb before_order
      then size_add limit_length limit_offset
      else 0 in
    transform (fun stream =>
      let limits := {| max_rows := max_rows_in_distinct settings;
                       max_bytes := max_bytes_in_distinct settings;
                       overflow_mode := distinct_overflow_mode settings |} in
      if isGroupedOutput stream
      then DistinctSortedBlockInputStream stream limits limit_for_distinct columns
      else DistinctBlockInputStream stream limits limit_for_distinct columns) pipeline
  else pipeline.

(** Preliminary LIMIT - is used in every source, if there are several
    sources, before they are combined. *)
Definition executePreLimit (this : InterpreterSelectQuery) (pipeline : Pipeline)
  : Pipeline :=
  let '(limit_len, limit_off) := getLimitLengthAndOffset (query this) in
  (* If there is LIMIT *)
  if present (limit_length (query this)) then
    transform (fun stream =>
      LimitBlockInputStream stream (size_add limit_len limit_off) 0 false) pipeline
  else pipeline.

Definition executeLimitBy (this : InterpreterSelectQuery) (pipeline : Pipeline)
  : Pipeline :=
  match limit_by_value (query this), limit_by_expression_list (query this) with
  | Some value, Some columns =>
      transform (fun stream => LimitByBlockInputStream stream value columns) pipeline
  | _, _ => pipeline
  end.

Fixpoint hasWithTotalsInAnySubqueryInFromClause (query : ASTSelectQuery) : bool :=
  match query with
  | Build_ASTSelectQuery _ with_totals _ _ _ _ _ _ _ _ _ _ _ _ _ _ _ query_table =>
      if with_totals then true
      else
        match query_table with
        | Some (ASTSelectWithUnionQuery list_of_selects) =>
            existsb hasWithTotalsInAnySubqueryInFromClause list_of_selects
        | _ => false
        end
  end.

Definition executeLimit (this : InterpreterSelectQuery) (pipeline : Pipeline)
  : Pipeline :=
  let '(limit_len, limit_off) := getLimitLengthAndOffset (query this) in
  (* If there is LIMIT *)
  if present (limit_length (query this)) then
    let always_read_till_end :=
      (group_by_with_totals (query this)
       && negb (present (order_expression_list (query this))))
      || (negb (group_by_with_totals (query this))
          && hasWithTotalsInAnySubqueryInFromClause (query this)) in
    transform (fun stream =>
      LimitBlockInputStream stream limit_len limit_off always_read_till_end)
      pipeline
  else pipeline.

Definition executeExtremes (this : InterpreterSelectQuery) (pipeline : Pipeline)
  : Pipeline :=
  if negb (extremes (settings (context this))) then pipeline
  else
    transform (fun stream =>
      if isProfiling stream then enableExtremes stream else stream) pipeline.

Definition executeSubqueriesInSetsAndJoins (this : InterpreterSelectQuery)
    (pipeline : Pipeline) (subqueries_for_sets : list SubqueryForSet) : Result Pipeline :=
  let settings := settings (context this) in
  let pipeline := executeUnion this pipeline in
  first <- firstStream pipeline ;;
  set_firstStream pipeline
    (CreatingSetsBlockInputStream first subqueries_for_sets
       {| max_rows := max_rows_to_transfer settings;
          max_bytes := max_bytes_to_transfer settings;
          overflow_mode := transfer_overflow_mode settings |}).

(** *** Fetch *)

(** The regions named by the JSON text of [settings.regions]. *)
Variable regionsOfRequest : string -> list N.

Definition is_alias (column_defaults : list (string * ColumnDefaultKind.Enum))
    (column : string) : bool :=
  match find (fun d => String.eqb (fst d) column) column_defaults with
  | Some (_, ColumnDefaultKind.Alias) => true
  | _ => false
  end.

(** The columns to read and the actions that compute the ALIAS columns,
    if some are required. *)
Definition required_source_columns (this : InterpreterSelectQuery)
  : Names * ExpressionActionsPtr :=
  let required_columns := getRequiredSourceColumns (query_analyzer this) in
  match storage this with
  | Some table_storage =>
      if negb (size (column_aliases table_storage) =? 0)
         && existsb (is_alias (column_defaults table_storage)) required_columns
      then
        (* The set of required columns could be added as a result of adding
           an action to calculate ALIAS. *)
        (alias_required_columns table_storage required_columns,
         Some {| step := AliasStep; only_types := false; project_input := false |})
      else (required_columns, None)
  | None => (required_columns, None)
  end.

(** The subquery interpreter, if the table expression is a subquery. *)
Definition subquery_interpreter (this : InterpreterSelectQuery) (required_columns : Names)
  : Result (option InterpreterSelectWithUnionQuery) :=
  match table (query this) with
  | Some (ASTSelectWithUnionQuery list_of_selects) =>
      (* There are no limits on the maximum size of the result for the
         subquery; the calculation of extremes is not necessary. *)
      let subquery_context :=
        {| settings := subquery_settings (settings (context this));
           temporary_path := temporary_path (context this) |} in
      interpreter_subquery <-
        newInterpreterSelectWithUnionQuery list_of_selects subquery_context
          required_columns QueryProcessingStage.Complete
          (size_add (subquery_depth this) 1) ;;
      (* If there is an aggregation in the outer query, WITH TOTALS is
         ignored in the subquery. *)
      if hasAggregation (query_analyzer this)
      then Ok (Some (union_ignoreWithTotals interpreter_subquery))
      else Ok (Some interpreter_subquery)
  | _ => Ok None
  end.

(** The streams of the subquery: [executeWithMultipleStreams], or in a
    dry run an empty operator with the header of [getSampleBlock]. *)
Definition subquery_streams (interpreter : InterpreterSelectWithUnionQuery)
    (dry_run : bool) : Result BlockInputStreams :=
  if negb dry_run
  then union_executeWithMultipleStreams interpreter
  else
    sample_block <- union_getSampleBlock interpreter ;;
    Ok [NullBlockInputStream sample_block].

(** Limitation on the number of columns to read.  It is not applied in
    'dry_run' mode. *)
Definition too_many_columns (this : InterpreterSelectQuery) (dry_run : bool)
    (required_columns : Names) : bool :=
  negb dry_run
  && negb (max_columns_to_read (settings (context this)) =? 0)
  && (max_columns_to_read (settings (context this)) <? size required_columns).

Definition storage_isRemote (this : InterpreterSelectQuery) : bool :=
  match storage this with
  | Some table_storage => isRemote table_storage
  | None => false
  end.

(** The stream count before the LIMIT optimization: for a remote table
    [max_distributed_connections] is used instead of the member. *)
Definition streams_for_storage (this : InterpreterSelectQuery) : N :=
  if storage_isRemote this
  then max_distributed_connections (settings (context this))
  else max_streams this.

(** Optimization - if not specified DISTINCT, WHERE, GROUP, HAVING,
    ORDER, LIMIT BY but LIMIT is specified, and limit + offset <
    max_block_size: the condition. *)
Definition plain_limit_below_block_size (this : InterpreterSelectQuery) : bool :=
  let q := query this in
  let '(limit_len, limit_off) := getLimitLengthAndOffset q in
  negb (distinct q)
  && negb (present (prewhere_expression q))
  && negb (present (where_expression q))
  && negb (present (group_expression_list q))
  && negb (present (having_expression q))
  && negb (present (order_expression_list q))
  && negb (present (limit_by_expression_list q))
  && present (limit_length q)
  && negb (hasAggregation (query_analyzer this))
  && (size_add limit_len limit_off <? max_block_size (settings (context this))).

(** The pair ([max_block_size], [max_streams]) after the optimization. *)
Definition fetch_hints (this : InterpreterSelectQuery) : N * N :=
  let '(limit_len, limit_off) := getLimitLengthAndOffset (query this) in
  if plain_limit_below_block_size this
  then (size_add limit_len limit_off, 1)
  else (max_block_size (settings (context this)), streams_for_storage this).

Definition reading_limits (this : InterpreterSelectQuery) : LocalLimits :=
  let s := settings (context this) in
  let final_stage :=
    QueryProcessingStage.eqb (to_stage this) QueryProcessingStage.Complete in
  {| size_limits := {| max_rows := max_rows_to_read s;
                       max_bytes := max_bytes_to_read s;
                       overflow_mode := read_overflow_mode s |};
     limits_max_execution_time := max_execution_time s;
     limits_timeout_overflow_mode := timeout_overflow_mode s;
     limits_min_execution_speed := if final_stage then min_execution_speed s else 0;
     limits_timeout_before_checking_execution_speed :=
       if final_stage then timeout_before_checking_execution_speed s else 0 |}.

Record Fetched : Type := {
  from_stage : QueryProcessingStage.Enum;
  fetched_pipeline : Pipeline;
  fetched_this : InterpreterSelectQuery        (* the members after the call *)
}.

(** Reading from a table: the branch [else if (storage)]. *)
Definition fetch_from_storage (this : InterpreterSelectQuery) (pipeline : Pipeline)
    (dry_run : bool) (table_storage : IStorage) (required_columns : Names)
    (max_block_size max_streams : N)
  : Result (QueryProcessingStage.Enum * Pipeline * N) :=
  let settings := settings (context this) in
  let is_remote := isRemote table_storage in
  if max_streams =? 0
  then Throw LOGICAL_ERROR "Logical error: zero number of streams requested"
  else
    (* If necessary, we request more sources than the number of threads *)
    let max_streams :=
      if (1 <? max_streams) && negb is_remote
      then max_streams_to_max_threads_ratio settings max_streams
      else max_streams in
    _ <- (if String.eqb (regions settings) EmptyString then Ok tt
          else
            match manageable table_storage with
            | None => Throw NO_CODE "Not supported request on non-manageable storage"
            | Some _ =>
                if size (regionsOfRequest (regions settings)) =? 0
                then Throw LOGICAL_ERROR
                       "[InterpreterSelectQuery::executeFetchColumns] no region query"
                else Ok tt
            end) ;;
    (* PARTITION SELECT only supports MergeTree family now. *)
    if present (partition_expression_list (query this))
    then Throw NO_CODE "PARTITION SELECT only supports MergeTree family."
    else
      (* The learner read of a DeltaTree table and the validation that
         follows it are left out: they change neither the pipeline nor the
         hints of the read. *)
      let '(from_stage, read_streams) :=
        if negb dry_run
        then read table_storage required_columns max_block_size max_streams
        else (QueryProcessingStage.FetchColumns, streams pipeline) in
      let read_streams :=
        if size read_streams =? 0
        then [NullBlockInputStream (getSampleBlockForColumns table_storage required_columns)]
        else read_streams in
      let pipeline :=
        {| streams := read_streams;
           streams_with_non_joined_data := streams_with_non_joined_data pipeline |} in
      let pipeline := transform addTableLock pipeline in
      (* Set the limits and quota for reading data, the speed and time of
         the query. *)
      let pipeline :=
        transform (fun stream =>
          if isProfiling stream then
            let stream := setLimits (reading_limits this) stream in
            if QueryProcessingStage.eqb (to_stage this) QueryProcessingStage.Complete
            then setQuota stream else stream
          else stream) pipeline in
      Ok (from_stage, pipeline, max_streams).

Definition executeFetchColumns (this : InterpreterSelectQuery) (pipeline : Pipeline)
    (dry_run : bool) : Result Fetched :=
  (* List of columns to read to execute the query, and the actions to
     calculate ALIAS if required. *)
  let '(required_columns, alias_actions) := required_source_columns this in
  interpreter_subquery <- subquery_interpreter this required_columns ;;
  if too_many_columns this dry_run required_columns
  then Throw TOO_MANY_COLUMNS
         ("Limit for number of columns to read exceeded. Requested: "
          ++ toString (size required_columns) ++ ", maximum: "
          ++ toString (max_columns_to_read (settings (context this))))
  else
    let '(max_block_size, max_streams) := fetch_hints this in
    r <- (if negb (size (streams pipeline) =? 0) then
            (* Prepared input. *)
            Ok (QueryProcessingStage.FetchColumns, pipeline, max_streams)
          else
            match interpreter_subquery, storage this with
            | Some interpreter, _ =>
                (* Subquery. *)
                read_streams <- subquery_streams interpreter dry_run ;;
                Ok (QueryProcessingStage.FetchColumns,
                    {| streams := read_streams;
                       streams_with_non_joined_data :=
                         streams_with_non_joined_data pipeline |},
                    max_streams)
            | None, Some table_storage =>
                (* Table. *)
                fetch_from_storage this pipeline dry_run table_storage
                  required_columns max_block_size max_streams
            | None, None =>
                Throw LOGICAL_ERROR
                  "Logical error in InterpreterSelectQuery: nowhere to read"
            end) ;;
    let '(from_stage, pipeline, max_streams) := r in
    (* Aliases in table declaration. *)
    let pipeline :=
      if QueryProcessingStage.eqb from_stage QueryProcessingStage.FetchColumns
         && present alias_actions
      then transform (fun stream => ExpressionBlockInputStream stream alias_actions)
             pipeline
      else pipeline in
    Ok {| from_stage := from_stage;
          fetched_pipeline := pipeline;
          fetched_this := with_max_streams this max_streams |}.

(** *** The stages *)

(** The steps of the first stage, the one that remote servers run
    during distributed processing. *)
Definition executeFirstStage (this : InterpreterSelectQuery)
    (expressions : AnalysisResult) (pipeline : Pipeline)
    (aggregate_overflow_row aggregate_final : bool) : Result Pipeline :=
  let settings := settings (context this) in
  pipeline <-
    (if has_join expressions then
       non_joined <-
         match join (query this) with
         | Some ASTTableJoin.Full | Some ASTTableJoin.Right =>
             first <- firstStream pipeline ;;
             Ok [NonJoinedBlockInputStream (before_join expressions) (getHeader first)
                   0 1 (max_block_size settings)]
         | _ => Ok []
         end ;;
       (* Applies to all sources except streams_with_non_joined_data. *)
       Ok {| streams :=
               map (fun stream =>
                      ExpressionBlockInputStream stream (before_join expressions))
                   (streams pipeline);
             streams_with_non_joined_data :=
               streams_with_non_joined_data pipeline ++ non_joined |}
     else Ok pipeline) ;;
  let pipeline :=
    if has_where expressions
    then executeWhere this pipeline (before_where expressions)
    else pipeline in
  pipeline <-
    (if need_aggregate expressions
     then executeAggregation this pipeline (before_aggregation expressions)
            aggregate_overflow_row aggregate_final
     else
       let pipeline := executeExpression pipeline (before_order_and_select expressions) in
       Ok (executeDistinct this pipeline true (selected_columns expressions))) ;;
  (* For distributed query processing, if no GROUP, HAVING set, but there
     is an ORDER or LIMIT, then we will perform the preliminary sorting
     and LIMIT on the remote server. *)
  if negb (second_stage expressions) && negb (need_aggregate expressions)
     && negb (has_having expressions)
  then
    pipeline <-
      (if has_order_by expressions then executeOrder this pipeline else Ok pipeline) ;;
    let pipeline :=
      if has_order_by expressions && present (limit_length (query this))
      then executeDistinct this pipeline false (selected_columns expressions)
      else pipeline in
    Ok (if present (limit_length (query this))
        then executePreLimit this pipeline
        else pipeline)
  else Ok pipeline.

(** The steps of the second stage, the one that the initiating server
    runs during distributed processing. *)
Definition executeSecondStage (this : InterpreterSelectQuery)
    (expressions : AnalysisResult) (pipeline : Pipeline)
    (aggregate_overflow_row aggregate_final : bool) : Result Pipeline :=
  let settings := settings (context this) in
  let q := query this in
  r <-
    (if need_aggregate expressions then
       (* If you need to combine aggregated results from multiple servers *)
       pipeline <-
         (if negb (first_stage expressions)
          then executeMergeAggregated this pipeline aggregate_overflow_row aggregate_final
          else Ok pipeline) ;;
       pipeline <-
         (if negb aggregate_final
          then executeTotalsAndHaving this pipeline (has_having expressions)
                 (before_having expressions) aggregate_overflow_row
          else if has_having expressions
          then Ok (executeHaving this pipeline (before_having expressions))
          else Ok pipeline) ;;
       let pipeline := executeExpression pipeline (before_order_and_select expressions) in
       let pipeline := executeDistinct this pipeline true (selected_columns expressions) in
       Ok (distinct q && hasMoreThanOneStream pipeline, pipeline)
     else
       let need_second_distinct_pass := distinct q && hasMoreThanOneStream pipeline in
       pipeline <-
         (if group_by_with_totals q && negb aggregate_final
          then executeTotalsAndHaving this pipeline false None aggregate_overflow_row
          else Ok pipeline) ;;
       Ok (need_second_distinct_pass, pipeline)) ;;
  let '(need_second_distinct_pass, pipeline) := r in
  pipeline <-
    (if has_order_by expressions then
       (* If there is an ORDER BY for distributed query processing, but
          there is no aggregation, then on the remote servers ORDER BY was
          made - therefore, we merge the sorted streams. *)
       if negb (first_stage expressions) && negb (need_aggregate expressions)
          && negb (group_by_with_totals q && negb aggregate_final)
       then executeMergeSorted this pipeline
       else executeOrder this pipeline
     else Ok pipeline) ;;
  (* Optimization - if there are several sources and there is LIMIT, then
     first apply the preliminary LIMIT. *)
  let pipeline :=
    if present (limit_length q) && hasMoreThanOneStream pipeline
       && negb (distinct q) && negb (has_limit_by expressions)
       && negb (extremes settings)
    then executePreLimit this pipeline
    else pipeline in
  let need_merge_streams :=
    need_second_distinct_pass
    || present (limit_length q)
    || present (limit_by_expression_list q)
    || negb (size (streams_with_non_joined_data pipeline) =? 0) in
  let pipeline := if need_merge_streams then executeUnion this pipeline else pipeline in
  (* If there was more than one stream, then DISTINCT needs to be
     performed once again after merging all streams. *)
  let pipeline :=
    if need_second_distinct_pass
    then executeDistinct this pipeline false (selected_columns expressions)
    else pipeline in
  let pipeline :=
    if has_limit_by expressions
    then executeLimitBy this (executeExpression pipeline (before_limit_by expressions))
    else pipeline in
  (* We must do projection after DISTINCT because projection may remove
     some columns. *)
  let pipeline := executeProjection pipeline (final_projection expressions) in
  (* Extremes are calculated before LIMIT, but after LIMIT BY. *)
  let pipeline := executeExtremes this pipeline in
  Ok (executeLimit this pipeline).

Definition push_back_input (pipeline : Pipeline) (input : option BlockInputStream)
  : Pipeline :=
  match input with
  | Some stream =>
      {| streams := streams pipeline ++ [stream];
         streams_with_non_joined_data := streams_with_non_joined_data pipeline |}
  | None => pipeline
  end.

(** The part of [executeImpl] that follows the fetch and the check of
    the stages. *)
Definition executeStages (this : InterpreterSelectQuery)
    (from : QueryProcessingStage.Enum) (pipeline : Pipeline) : Result Pipeline :=
  let expressions := analyzeExpressions this from in
  let settings := settings (context this) in
  let q := query this in
  pipeline <-
    (if QueryProcessingStage.gtb (to_stage this) QueryProcessingStage.FetchColumns then
       (* Do I need to aggregate in a separate row rows that have not
          passed max_rows_to_group_by. *)
       let aggregate_overflow_row :=
         need_aggregate expressions && group_by_with_totals q
         && negb (max_rows_to_group_by settings =? 0)
         && OverflowMode_is_ANY (group_by_overflow_mode settings)
         && negb (TotalsMode_is_AFTER_HAVING_EXCLUSIVE (totals_mode settings)) in
       (* Do I need to immediately finalize the aggregate functions after
          the aggregation? *)
       let aggregate_final :=
         need_aggregate expressions
         && QueryProcessingStage.gtb (to_stage this) QueryProcessingStage.WithMergeableState
         && negb (group_by_with_totals q) in
       pipeline <-
         (if first_stage expressions
          then executeFirstStage this expressions pipeline aggregate_overflow_row
                 aggregate_final
          else Ok pipeline) ;;
       if second_stage expressions
       then executeSecondStage this expressions pipeline aggregate_overflow_row
              aggregate_final
       else Ok pipeline
     else Ok pipeline) ;;
  if negb (size (subqueries_for_sets expressions) =? 0)
  then executeSubqueriesInSetsAndJoins this pipeline (subqueries_for_sets expressions)
  else Ok pipeline.

Definition executeImpl (this : InterpreterSelectQuery) (pipeline : Pipeline)
    (input : option BlockInputStream) (dry_run : bool)
  : Result (Pipeline * InterpreterSelectQuery) :=
  let pipeline := push_back_input pipeline input in
  (* Read the data from Storage. from_stage - to what stage the request
     was completed in Storage. *)
  fetched <- executeFetchColumns this pipeline dry_run ;;
  let this := fetched_this fetched in
  if QueryProcessingStage.eqb (from_stage fetched) QueryProcessingStage.WithMergeableState
     && QueryProcessingStage.eqb (to_stage this) QueryProcessingStage.WithMergeableState
  then Throw NOT_IMPLEMENTED "Distributed on Distributed is not supported"
  else
    pipeline <- executeStages this (from_stage fetched) (fetched_pipeline fetched) ;;
    Ok (pipeline, this).

Definition getSampleBlock (this : InterpreterSelectQuery) : Result Block :=
  r <- executeImpl this empty_pipeline (input this) true ;;
  first <- firstStream (fst r) ;;
  Ok (getHeader first).

(** [execute]: the single resulting operator ([BlockIO::in]). *)
Definition execute (this : InterpreterSelectQuery) : Result BlockInputStream :=
  r <- executeImpl this empty_pipeline (input this) false ;;
  let '(pipeline, this) := r in
  firstStream (executeUnion this pipeline).

Definition executeWithMultipleStreams (this : InterpreterSelectQuery)
  : Result BlockInputStreams :=
  r <- executeImpl this empty_pipeline (input this) false ;;
  Ok (streams (fst r)).

End Builder.

(** * The constructor *)

(** What [getAndLockStorageWithSchemaVersion] leaves behind: the table,
    and whether the schemas had to be synchronised to get it. *)
Record LockedStorage : Type := {
  locked_storage : IStorage;
  schema_synced : bool
}.

Section Constructor.

Variable getHeader : BlockInputStream -> Block.

(** The tables that the context knows, and what the builder asks of
    them: a lookup that answers with nothing for a missing table, a
    lookup that throws for a missing table, table functions, the current
    database, the version of the global schema and its synchronisation. *)
Context {Catalog : Type}.
Variable tryGetTable : Catalog -> string -> string -> option IStorage.
Variable getTable : Catalog -> string -> string -> Result IStorage.
Variable executeTableFunction : Catalog -> string -> IStorage.
Variable getCurrentDatabase : Catalog -> string.
Variable getCurrentVersion : Catalog -> Z.
Variable syncSchemas : Catalog -> Catalog.

(** [getTableInfo().schema_version] of a manageable table. *)
Variable table_schema_version : IStorage -> Z.
(** The value of [settings.schema_version] that asks for no check. *)
Variable DEFAULT_UNSPECIFIED_SCHEMA_VERSION : Z.

Variable supportsSampling : IStorage -> bool.
Variable supportsFinal : IStorage -> bool.
Variable supportsPrewhere : IStorage -> bool.

(** [InterpreterSelectWithUnionQuery::getSampleBlock] of a FROM subquery. *)
Variable subquery_sample_block : list ASTSelectQuery -> Context -> Result Block.
(** The constructor of the expression analyzer: the query, the context,
    the table, the source columns, the required result columns, the depth
    and whether subqueries are to be executed. *)
Variable newExpressionAnalyzer :
  ASTSelectQuery -> Context -> option IStorage -> Block -> Names -> N -> bool ->
  ExpressionAnalyzer.

(** [getDatabaseAndTableNames], on the names of the database and table
    identifiers of the query (its only caller runs it on a query whose
    table, if any, is an identifier).  If the table is not specified -
    use the table system.one.  If the database is not specified - use the
    current database. *)
Definition getDatabaseAndTableNames (catalog : Catalog)
    (query_database query_table : option string) : string * string :=
  let database_name := match query_database with Some d => d | None => EmptyString end in
  let table_name := match query_table with Some t => t | None => EmptyString end in
  match query_table, query_database with
  | None, _ => ("system", "one")
  | Some _, None =>
      if present (tryGetTable catalog EmptyString table_name)
      then (EmptyString, table_name)
      else (getCurrentDatabase catalog, table_name)
  | Some _, Some _ => (database_name, table_name)
  end.

Definition is_TMT_or_DT (table_storage : IStorage) : bool :=
  match manageable table_storage with
  | Some StorageEngine.TMT | Some StorageEngine.DT => true
  | _ => false
  end.

(** The lambda [get_and_lock_storage]: the table (or nothing), its
    schema version and whether it may serve the query.  The lock it takes
    is not kept in this model. *)
Definition get_and_lock_storage (catalog : Catalog) (database_name table_name : string)
    (query_schema_version global_schema_version : Z) (synced : bool)
  : Result (option IStorage * Z * bool) :=
  (* If schema synced, call getTable without try, leading to exception on
     table not existing. *)
  storage_tmp <-
    (if synced
     then found <- getTable catalog database_name table_name ;; Ok (Some found)
     else Ok (tryGetTable catalog database_name table_name)) ;;
  match storage_tmp with
  | None => Ok (None, DEFAULT_UNSPECIFIED_SCHEMA_VERSION, false)
  | Some table_storage =>
      if negb (is_TMT_or_DT table_storage)
      then Throw LOGICAL_ERROR
             ("Specifying schema_version for storage: " ++ storage_name table_storage
              ++ ", table: " ++ database_name ++ "." ++ table_name ++ " is not allowed")
      else
        let storage_schema_version := table_schema_version table_storage in
        (* Not allow storage > query in any case. *)
        if (storage_schema_version >? query_schema_version)%Z
        then Throw SCHEMA_VERSION_ERROR
               ("Table " ++ database_name ++ "." ++ table_name ++ " schema version "
                ++ toString_Int64 storage_schema_version
                ++ " newer than query schema version "
                ++ toString_Int64 query_schema_version)
        else if synced
        then Ok (Some table_storage, storage_schema_version, true)
        else if (storage_schema_version =? query_schema_version)%Z
                || (global_schema_version >=? query_schema_version)%Z
        then Ok (Some table_storage, storage_schema_version, true)
        else
          (* From now on we have global < query.  Return false for outer to
             sync and retry. *)
          Ok (None, storage_schema_version, false)
  end.

Definition getAndLockStorageWithSchemaVersion (catalog : Catalog)
    (database_name table_name : string) (query_schema_version : Z)
  : Result LockedStorage :=
  (* Get current schema version in schema syncer for a chance to shortcut. *)
  let global_schema_version := getCurrentVersion catalog in
  (* Try get storage and lock once. *)
  first_try <- get_and_lock_storage catalog database_name table_name
                 query_schema_version global_schema_version false ;;
  match first_try with
  | (Some table_storage, _, true) =>
      Ok {| locked_storage := table_storage; schema_synced := false |}
  | _ =>
      (* If first try failed, sync schema and try again. *)
      let catalog := syncSchemas catalog in
      second_try <- get_and_lock_storage catalog database_name table_name
                      query_schema_version global_schema_version true ;;
      match second_try with
      | (Some table_storage, _, true) =>
          Ok {| locked_storage := table_storage; schema_synced := true |}
      | _ => Throw UNKNOWN_EXCEPTION "Shouldn't reach here"
      end
  end.

(** [initSettings]: the SETTINGS clause of the query, given by the change
    that it makes to the settings, is applied to the context. *)
Definition initSettings (query_settings : option (Settings -> Settings))
    (context_ : Context) : Context :=
  match query_settings with
  | Some change =>
      {| settings := change (settings context_);
         temporary_path := temporary_path context_ |}
  | None => context_
  end.

(** [input || !storage || !storage->supports...()]. *)
Definition unsupported (input_ : option BlockInputStream) (storage_ : option IStorage)
    (supports : IStorage -> bool) : bool :=
  present input_
  || match storage_ with
     | Some table_storage => negb (supports table_storage)
     | None => true
     end.

(** The message of an illegal FINAL or PREWHERE. *)
Definition illegal_clause_message (input_ : option BlockInputStream)
    (storage_ : option IStorage) (clause : string) : string :=
  match input_, storage_ with
  | None, Some table_storage =>
      "Storage " ++ storage_name table_storage ++ " doesn't support " ++ clause
  | _, _ => "Illegal " ++ clause
  end.

(** The table that the query reads and the columns of its source: a
    prepared input, a subquery, a table function or a table (even
    without table expression: system.one). *)
Definition resolve_source (query_ : ASTSelectQuery) (context_ : Context)
    (input_ : option BlockInputStream) (schema_version : Z) (catalog : Catalog)
  : Result (option IStorage * Block) :=
  match input_, table query_ with
  | Some prepared, _ =>
      (* Read from prepared input. *)
      Ok (None, getHeader prepared)
  | None, Some (ASTSelectWithUnionQuery list_of_selects) =>
      (* Read from subquery. *)
      sample_block <- subquery_sample_block list_of_selects context_ ;;
      Ok (None, sample_block)
  | None, Some (ASTFunction name) =>
      (* Read from table function. *)
      Ok (Some (executeTableFunction catalog name), [])
  | None, table_expression =>
      (* Read from table. Even without table expression. *)
      let '(database_name, table_name) :=
        getDatabaseAndTableNames catalog (database query_)
          match table_expression with
          | Some (ASTIdentifier name) => Some name
          | _ => None
          end in
      if (schema_version =? DEFAULT_UNSPECIFIED_SCHEMA_VERSION)%Z
      then
        table_storage <- getTable catalog database_name table_name ;;
        Ok (Some table_storage, [])
      else
        locked <- getAndLockStorageWithSchemaVersion catalog database_name table_name
                    schema_version ;;
        Ok (Some (locked_storage locked), [])
  end.

(** [init], run by the constructors on the members they have set.  The
    SETTINGS clause and [settings.schema_version] are arguments; the
    pause of the test fail point, the query context and the external
    tables saved in it are left out. *)
Definition init (query_ : ASTSelectQuery) (query_settings : option (Settings -> Settings))
    (context_ : Context) (required_result_column_names : Names)
    (to_stage_ : QueryProcessingStage.Enum) (subquery_depth_ : N)
    (input_ : option BlockInputStream) (only_analyze_ : bool)
    (schema_version : Z) (catalog : Catalog) : Result InterpreterSelectQuery :=
  let context_ := initSettings query_settings context_ in
  let settings_ := settings context_ in
  if negb (max_subquery_depth settings_ =? 0)
     && (max_subquery_depth settings_ <? subquery_depth_)
  then Throw TOO_DEEP_SUBQUERIES
         ("Too deep subqueries. Maximum: " ++ toString (max_subquery_depth settings_))
  else
    source <- resolve_source query_ context_ input_ schema_version catalog ;;
    let '(storage_, source_columns) := source in
    let this :=
      {| query := query_;
         context := context_;
         to_stage := to_stage_;
         subquery_depth := subquery_depth_;
         only_analyze := only_analyze_;
         input := input_;
         max_streams := max_threads settings_;
         storage := storage_;
         query_analyzer :=
           newExpressionAnalyzer query_ context_ storage_ source_columns
             required_result_column_names subquery_depth_ (negb only_analyze_) |} in
    if negb only_analyze_ then
      if present (sample_size query_) && unsupported input_ storage_ supportsSampling
      then Throw SAMPLING_NOT_SUPPORTED "Illegal SAMPLE: table doesn't support sampling"
      else if final query_ && unsupported input_ storage_ supportsFinal
      then Throw ILLEGAL_FINAL (illegal_clause_message input_ storage_ "FINAL")
      else if present (prewhere_expression query_)
              && unsupported input_ storage_ supportsPrewhere
      then Throw ILLEGAL_PREWHERE (illegal_clause_message input_ storage_ "PREWHERE")
      else Ok this
    else Ok this.


End Constructor.

(** * Notions used in the statements *)

(** The pipeline of the single union operator over all chains of [p]. *)
Definition union_of (this : InterpreterSelectQuery) (p : Pipeline) : Pipeline :=
  {| streams := [UnionBlockInputStream (streams p) (streams_with_non_joined_data p)
                   (max_streams this)];
     streams_with_non_joined_data := [] |}.

(** The partial sort that [executeOrder] puts on a chain. *)
Definition partial_sort (this : InterpreterSelectQuery) (description : SortDescription)
    (limit : N) (chain : BlockInputStream) : BlockInputStream :=
  setLimits (sorting_limits (settings (context this)))
    (PartialSortingBlockInputStream chain description limit).

(** The merge sort that [executeOrder] puts on the single chain. *)
Definition merge_sort (this : InterpreterSelectQuery) (description : SortDescription)
    (limit : N) (chain : BlockInputStream) : BlockInputStream :=
  MergeSortingBlockInputStream chain description
    (max_block_size (settings (context this))) limit
    (max_bytes_before_external_sort (settings (context this)))
    (temporary_path (context this)).

(** [inner] is one of the SELECTs of the subquery in the FROM clause of
    [outer]. *)
Definition InFromClause (outer inner : ASTSelectQuery) : Prop :=
  exists list_of_selects,
    table outer = Some (ASTSelectWithUnionQuery list_of_selects)
    /\ In inner list_of_selects.

(** [inner] is a SELECT of the chain of FROM subqueries below [outer]. *)
Inductive InFromChain (outer : ASTSelectQuery) : ASTSelectQuery -> Prop :=
| from_chain_here (inner : ASTSelectQuery) :
    InFromClause outer inner -> InFromChain outer inner
| from_chain_below (middle inner : ASTSelectQuery) :
    InFromClause outer middle -> InFromChain middle inner -> InFromChain outer inner.

(** Some SELECT of the chain of FROM subqueries below [q] satisfies [f]. *)
Fixpoint someSelectInFromChain (f : ASTSelectQuery -> bool) (q : ASTSelectQuery) : bool :=
  match q with
  | Build_ASTSelectQuery _ _ _ _ _ _ _ _ _ _ _ _ _ _ _ _ _ query_table =>
      match query_table with
      | Some (ASTSelectWithUnionQuery list_of_selects) =>
          existsb (fun inner => f inner || someSelectInFromChain f inner) list_of_selects
      | _ => false
      end
  end.

(** The read-till-end flag in the words of the specification: WITH TOTALS
    at this level without ORDER BY, or no WITH TOTALS at this level and
    WITH TOTALS somewhere in the chain of FROM subqueries without its own
    ORDER BY. *)
Definition read_till_end_as_specified (q : ASTSelectQuery) : bool :=
  (group_by_with_totals q && negb (present (order_expression_list q)))
  || (negb (group_by_with_totals q)
      && someSelectInFromChain
           (fun inner => group_by_with_totals inner
                         && negb (present (order_expression_list inner))) q).

(** The DISTINCT operator over [chain] with the given bound on its rows. *)
Definition distinct_operator (isGroupedOutput : BlockInputStream -> bool)
    (this : InterpreterSelectQuery) (bound : N) (columns : Names)
    (chain : BlockInputStream) : BlockInputStream :=
  let limits := {| max_rows := max_rows_in_distinct (settings (context this));
                   max_bytes := max_bytes_in_distinct (settings (context this));
                   overflow_mode := distinct_overflow_mode (settings (context this)) |} in
  if isGroupedOutput chain
  then DistinctSortedBlockInputStream chain limits bound columns
  else DistinctBlockInputStream chain limits bound columns.

(** The bound on the rows of a DISTINCT operator. *)
Definition limit_hint_of (op : BlockInputStream) : option N :=
  match op with
  | DistinctSortedBlockInputStream _ _ hint _ => Some hint
  | DistinctBlockInputStream _ _ hint _ => Some hint
  | _ => None
  end.

(** The parameters given to the aggregator of an aggregating operator. *)
Definition aggregator_params (op : BlockInputStream) : option Aggregator.Params :=
  match op with
  | ParallelAggregatingBlockInputStream _ _ params _ _ _ => Some params
  | AggregatingBlockInputStream _ params _ => Some params
  | _ => None
  end.

(** The number of operators that compute totals in an operator graph. *)
Fixpoint totals_operators (op : BlockInputStream) : nat :=
  match op with
  | SourceStream _ _ => 0
  | NullBlockInputStream _ => 0
  | NonJoinedBlockInputStream _ _ _ _ _ => 0
  | ExpressionBlockInputStream input _ => totals_operators input
  | FilterBlockInputStream input _ _ => totals_operators input
  | ParallelAggregatingBlockInputStream inputs additional_inputs _ _ _ _ =>
      list_sum (map totals_operators inputs)
      + list_sum (map totals_operators additional_inputs)
  | AggregatingBlockInputStream input _ _ => totals_operators input
  | ConcatBlockInputStream inputs => list_sum (map totals_operators inputs)
  | MergingAggregatedBlockInputStream input _ _ _ => totals_operators input
  | MergingAggregatedMemoryEfficientBlockInputStream inputs _ _ _ _ =>
      list_sum (map totals_operators inputs)
  | TotalsHavingBlockInputStream input _ _ _ _ _ => S (totals_operators input)
  | PartialSortingBlockInputStream input _ _ => totals_operators input
  | MergeSortingBlockInputStream input _ _ _ _ _ => totals_operators input
  | AsynchronousBlockInputStream input => totals_operators input
  | MergingSortedBlockInputStream inputs _ _ _ => list_sum (map totals_operators inputs)
  | DistinctSortedBlockInputStream input _ _ _ => totals_operators input
  | DistinctBlockInputStream input _ _ _ => totals_operators input
  | UnionBlockInputStream inputs additional_inputs _ =>
      list_sum (map totals_operators inputs)
      + list_sum (map totals_operators additional_inputs)
  | LimitBlockInputStream input _ _ _ => totals_operators input
  | LimitByBlockInputStream input _ _ => totals_operators input
  | CreatingSetsBlockInputStream input _ _ => totals_operators input
  | addTableLock stream => totals_operators stream
  | setLimits _ stream => totals_operators stream
  | setQuota stream => totals_operators stream
  | enableExtremes stream => totals_operators stream
  end.

(** The number of operators that compute totals in a pipeline. *)
Definition totals_in (p : Pipeline) : nat :=
  list_sum (map totals_operators (streams p))
  + list_sum (map totals_operators (streams_with_non_joined_data p)).

(** The first try of [getAndLockStorageWithSchemaVersion] asks for a
    synchronisation: the table is not known, or it is older than the
    query while the global schema is older too. *)
Definition asks_for_sync {Catalog : Type}
    (tryGetTable : Catalog -> string -> string -> option IStorage)
    (getCurrentVersion : Catalog -> Z) (table_schema_version : IStorage -> Z)
    (catalog : Catalog) (database_name table_name : string) (query_version : Z) : Prop :=
  tryGetTable catalog database_name table_name = None
  \/ exists known,
       tryGetTable catalog database_name table_name = Some known
       /\ is_TMT_or_DT known = true
       /\ (table_schema_version known < query_version)%Z
       /\ (getCurrentVersion catalog < query_version)%Z.

(** The operator at the bottom of a chain: what is left when the
    operators with a single input, and the setters, are taken off. *)
Fixpoint source_operator (op : BlockInputStream) : BlockInputStream :=
  match op with
  | ExpressionBlockInputStream input _ => source_operator input
  | FilterBlockInputStream input _ _ => source_operator input
  | AggregatingBlockInputStream input _ _ => source_operator input
  | MergingAggregatedBlockInputStream input _ _ _ => source_operator input
  | TotalsHavingBlockInputStream input _ _ _ _ _ => source_operator input
  | PartialSortingBlockInputStream input _ _ => source_operator input
  | MergeSortingBlockInputStream input _ _ _ _ _ => source_operator input
  | AsynchronousBlockInputStream input => source_operator input
  | DistinctSortedBlockInputStream input _ _ _ => source_operator input
  | DistinctBlockInputStream input _ _ _ => source_operator input
  | LimitBlockInputStream input _ _ _ => source_operator input
  | LimitByBlockInputStream input _ _ => source_operator input
  | CreatingSetsBlockInputStream input _ _ => source_operator input
  | addTableLock stream => source_operator stream
  | setLimits _ stream => source_operator stream
  | setQuota stream => source_operator stream
  | enableExtremes stream => source_operator stream
  | _ => op
  end.

(** A table that differs from [table_storage] in its [read] only. *)
Definition with_read (table_storage : IStorage)
    (read_ : Names -> N -> N -> QueryProcessingStage.Enum * BlockInputStreams) : IStorage :=
  {| storage_name := storage_name table_storage;
     isRemote := isRemote table_storage;
     column_aliases := column_aliases table_storage;
     column_defaults := column_defaults table_storage;
     alias_required_columns := alias_required_columns table_storage;
     manageable := manageable table_storage;
     getSampleBlockForColumns := getSampleBlockForColumns table_storage;
     read := read_ |}.

(** An interpreter that differs from [this] in the [read] of its table
    only. *)
Definition with_table_read (this : InterpreterSelectQuery)
    (read_ : Names -> N -> N -> QueryProcessingStage.Enum * BlockInputStreams)
  : InterpreterSelectQuery :=
  {| query := query this;
     context := context this;
     to_stage := to_stage this;
     subquery_depth := subquery_depth this;
     only_analyze := only_analyze this;
     input := input this;
     max_streams := max_streams this;
     storage := option_map (fun table_storage => with_read table_storage read_)
                  (storage this);
     query_analyzer := query_analyzer this |}.

(** What a fetch gives, the table of the interpreter apart: the stage,
    the pipeline and the stream count, or the exception. *)
Definition fetch_outcome (fetched : Result Fetched)
  : Result (QueryProcessingStage.Enum * Pipeline * N) :=
  match fetched with
  | Ok f => Ok (from_stage f, fetched_pipeline f, max_streams (fetched_this f))
  | Throw code message => Throw code message
  end.

(** What a build gives, the table of the interpreter apart. *)
Definition build_outcome (built : Result (Pipeline * InterpreterSelectQuery))
  : Result (Pipeline * N) :=
  match built with
  | Ok (pipeline, this) => Ok (pipeline, max_streams this)
  | Throw code message => Throw code message
  end.

(** Two pipelines with as many main chains and as many side chains. *)
Definition same_widths (p' p : Pipeline) : Prop :=
  size (streams p') = size (streams p)
  /\ size (streams_with_non_joined_data p') = size (streams_with_non_joined_data p).

(** What a step over a pipeline with a main chain may give: a pipeline
    with a main chain, or, when the query aggregates, the exception of a
    column missing from the header. *)
Definition step_outcome (aggregates : bool) (r : Result Pipeline) : Prop :=
  match r with
  | Ok p' => streams p' <> []
  | Throw code _ => aggregates = true /\ code = NOT_FOUND_COLUMN_IN_BLOCK
  end.

(** Whether an expression program was analysed for its types only
    ([only_types]): such a program is not for running. *)
Definition dry (expression : ExpressionActionsPtr) : nat :=
  match expression with
  | Some actions => if only_types actions then 1 else 0
  | None => 0
  end.

(** The number of operators of an operator graph that carry a program
    analysed for its types only. *)
Fixpoint dry_operators (op : BlockInputStream) : nat :=
  match op with
  | SourceStream _ _ => 0
  | NullBlockInputStream _ => 0
  | NonJoinedBlockInputStream join_actions _ _ _ _ => dry join_actions
  | ExpressionBlockInputStream input expression => dry expression + dry_operators input
  | FilterBlockInputStream input expression _ => dry expression + dry_operators input
  | ParallelAggregatingBlockInputStream inputs additional_inputs _ _ _ _ =>
      list_sum (map dry_operators inputs)
      + list_sum (map dry_operators additional_inputs)
  | AggregatingBlockInputStream input _ _ => dry_operators input
  | ConcatBlockInputStream inputs => list_sum (map dry_operators inputs)
  | MergingAggregatedBlockInputStream input _ _ _ => dry_operators input
  | MergingAggregatedMemoryEfficientBlockInputStream inputs _ _ _ _ =>
      list_sum (map dry_operators inputs)
  | TotalsHavingBlockInputStream input _ expression _ _ _ =>
      dry expression + dry_operators input
  | PartialSortingBlockInputStream input _ _ => dry_operators input
  | MergeSortingBlockInputStream input _ _ _ _ _ => dry_operators input
  | AsynchronousBlockInputStream input => dry_operators input
  | MergingSortedBlockInputStream inputs _ _ _ => list_sum (map dry_operators inputs)
  | DistinctSortedBlockInputStream input _ _ _ => dry_operators input
  | DistinctBlockInputStream input _ _ _ => dry_operators input
  | UnionBlockInputStream inputs additional_inputs _ =>
      list_sum (map dry_operators inputs)
      + list_sum (map dry_operators additional_inputs)
  | LimitBlockInputStream input _ _ _ => dry_operators input
  | LimitByBlockInputStream input _ _ => dry_operators input
  | CreatingSetsBlockInputStream input _ _ => dry_operators input
  | addTableLock stream => dry_operators stream
  | setLimits _ stream => dry_operators stream
  | setQuota stream => dry_operators stream
  | enableExtremes stream => dry_operators stream
  end.

Definition dry_in (p : Pipeline) : nat :=
  list_sum (map dry_operators (streams p))
  + list_sum (map dry_operators (streams_with_non_joined_data p)).

(** The operators without input of an operator graph, from left to
    right: what the graph reads from. *)
Fixpoint leaves (op : BlockInputStream) : list BlockInputStream :=
  match op with
  | SourceStream _ _ => [op]
  | NullBlockInputStream _ => [op]
  | NonJoinedBlockInputStream _ _ _ _ _ => [op]
  | ExpressionBlockInputStream input _ => leaves input
  | FilterBlockInputStream input _ _ => leaves input
  | ParallelAggregatingBlockInputStream inputs additional_inputs _ _ _ _ =>
      flat_map leaves inputs ++ flat_map leaves additional_inputs
  | AggregatingBlockInputStream input _ _ => leaves input
  | ConcatBlockInputStream inputs => flat_map leaves inputs
  | MergingAggregatedBlockInputStream input _ _ _ => leaves input
  | MergingAggregatedMemoryEfficientBlockInputStream inputs _ _ _ _ =>
      flat_map leaves inputs
  | TotalsHavingBlockInputStream input _ _ _ _ _ => leaves input
  | PartialSortingBlockInputStream input _ _ => leaves input
  | MergeSortingBlockInputStream input _ _ _ _ _ => leaves input
  | AsynchronousBlockInputStream input => leaves input
  | MergingSortedBlockInputStream inputs _ _ _ => flat_map leaves inputs
  | DistinctSortedBlockInputStream input _ _ _ => leaves input
  | DistinctBlockInputStream input _ _ _ => leaves input
  | UnionBlockInputStream inputs additional_inputs _ =>
      flat_map leaves inputs ++ flat_map leaves additional_inputs
  | LimitBlockInputStream input _ _ _ => leaves input
  | LimitByBlockInputStream input _ _ => leaves input
  | CreatingSetsBlockInputStream input _ _ => leaves input
  | addTableLock stream => leaves stream
  | setLimits _ stream => leaves stream
  | setQuota stream => leaves stream
  | enableExtremes stream => leaves stream
  end.

(** What the chains of a pipeline read from: the main chains first. *)
Definition leaves_in (p : Pipeline) : list BlockInputStream :=
  flat_map leaves (streams p) ++ flat_map leaves (streams_with_non_joined_data p).

(** * Concrete queries, settings and tables *)

Module Examples.

(** Settings with the given two-level thresholds, external GROUP BY
    threshold, cap on the columns to read and batch size. *)
Definition make_settings (two_level two_level_bytes external_group_by columns_cap
    block_size : N) : Settings :=
  {| max_subquery_depth := 100;
     max_threads := 8;
     max_distributed_connections := 1024;
     max_streams_to_max_threads_ratio := fun n => n;
     max_block_size := block_size;
     max_columns_to_read := columns_cap;
     max_rows_to_read := 0;
     max_bytes_to_read := 0;
     read_overflow_mode := OverflowMode.THROW;
     max_execution_time := 0;
     timeout_overflow_mode := OverflowMode.THROW;
     min_execution_speed := 0;
     timeout_before_checking_execution_speed := 0;
     max_rows_to_group_by := 0;
     group_by_overflow_mode := OverflowMode.THROW;
     totals_mode := TotalsMode.AFTER_HAVING_EXCLUSIVE;
     totals_auto_threshold := 0;
     group_by_two_level_threshold := two_level;
     group_by_two_level_threshold_bytes := two_level_bytes;
     max_bytes_before_external_group_by := external_group_by;
     empty_result_for_aggregation_by_empty_set := false;
     aggregation_memory_efficient_merge_threads := 0;
     distributed_aggregation_memory_efficient := false;
     max_rows_to_sort := 0;
     max_bytes_to_sort := 0;
     sort_overflow_mode := OverflowMode.THROW;
     max_bytes_before_external_sort := 0;
     max_rows_in_distinct := 0;
     max_bytes_in_distinct := 0;
     distinct_overflow_mode := OverflowMode.THROW;
     extremes := false;
     max_rows_to_transfer := 0;
     max_bytes_to_transfer := 0;
     transfer_overflow_mode := OverflowMode.THROW;
     max_result_rows := 0;
     max_result_bytes := 0;
     regions := EmptyString |}.

Definition default_settings : Settings :=
  make_settings 100000 100000000 0 0 65536.

Definition default_context : Context :=
  {| settings := default_settings; temporary_path := "/tmp/" |}.

(** SELECT x FROM t, with the given DISTINCT, WITH TOTALS, ORDER BY,
    LIMIT BY, OFFSET, LIMIT and FROM. *)
Definition select_query (is_distinct with_totals : bool)
    (order_by : option (list ASTOrderByElement)) (limit_by : option (list ASTExpr))
    (offset length : option N) (from : option (TableExpression ASTSelectQuery))
  : ASTSelectQuery :=
  {| distinct := is_distinct;
     group_by_with_totals := with_totals;
     prewhere_expression := None;
     where_expression := None;
     group_expression_list := None;
     having_expression := None;
     order_expression_list := order_by;
     limit_by_value := match limit_by with Some _ => Some 1 | None => None end;
     limit_by_expression_list := limit_by;
     limit_offset := offset;
     limit_length := length;
     partition_expression_list := None;
     no_kvstore := false;
     sample_size := None;
     final := false;
     join := None;
     database := None;
     table := from |}.

Definition order_by_x : option (list ASTOrderByElement) :=
  Some [{| order_column := "x"; direction := true; nulls_direction := true;
           collation := None |}].

Definition from_t : option (TableExpression ASTSelectQuery) := Some (ASTIdentifier "t").

Definition analyzer (aggregation : bool) (required : Names) : ExpressionAnalyzer :=
  {| hasAggregation := aggregation;
     appendJoin := false;
     appendWhere := false;
     appendHaving := false;
     appendOrderBy := false;
     appendLimitBy := false;
     select_required_output := ["x"];
     getRequiredSourceColumns := required;
     getAggregateInfo := (["x"], []);
     getSubqueriesForSets := [] |}.

(** A table that answers every read with the given stage and with
    [count] operators. *)
Definition table_t (remote : bool) (stage : QueryProcessingStage.Enum) (count : nat)
  : IStorage :=
  {| storage_name := "t";
     isRemote := remote;
     column_aliases := [];
     column_defaults := [];
     alias_required_columns := fun names => names;
     manageable := None;
     getSampleBlockForColumns := fun names => names;
     read := fun _ _ _ =>
       (stage, map (fun i => SourceStream "t" (N.of_nat i)) (seq 0 count)) |}.

Definition interpreter (q : ASTSelectQuery) (settings_ : Settings)
    (target : QueryProcessingStage.Enum) (table_storage : option IStorage)
    (analyzer_ : ExpressionAnalyzer) : InterpreterSelectQuery :=
  {| query := q;
     context := {| settings := settings_; temporary_path := "/tmp/" |};
     to_stage := target;
     subquery_depth := 0;
     only_analyze := false;
     input := None;
     max_streams := max_threads settings_;
     storage := table_storage;
     query_analyzer := analyzer_ |}.

(** The virtual methods of the operators of these examples. *)
Definition header_x : BlockInputStream -> Block := fun _ => ["x"].
Definition not_grouped : BlockInputStream -> bool := fun _ => false.
Definition profiling : BlockInputStream -> bool := fun _ => true.

Definition two_chains : Pipeline :=
  {| streams := [SourceStream "t" 0; SourceStream "t" 1];
     streams_with_non_joined_data := [] |}.

Definition one_chain : Pipeline :=
  {| streams := [SourceStream "t" 0]; streams_with_non_joined_data := [] |}.

Definition one_non_joined_chain : Pipeline :=
  {| streams := []; streams_with_non_joined_data := [SourceStream "j" 0] |}.

(** The interpreter of a FROM subquery in these examples: one nested
    interpreter per SELECT; running it gives one operator per SELECT. *)
Definition new_union (list_of_selects : list ASTSelectQuery) (context_ : Context)
    (required : Names) (target : QueryProcessingStage.Enum) (depth : N)
  : Result InterpreterSelectWithUnionQuery :=
  Ok {| nested_interpreters :=
          map (fun q => {| query := q;
                           context := context_;
                           to_stage := target;
                           subquery_depth := depth;
                           only_analyze := false;
                           input := None;
                           max_streams := max_threads (settings context_);
                           storage := None;
                           query_analyzer := analyzer false required |})
              list_of_selects |}.

Definition run_union (u : InterpreterSelectWithUnionQuery) : Result BlockInputStreams :=
  Ok (map (fun i => SourceStream "subquery" (N.of_nat i))
          (seq 0 (List.length (nested_interpreters u)))).

Definition sample_union (u : InterpreterSelectWithUnionQuery) : Result Block :=
  Ok ["x"].

Definition no_regions (request : string) : list N := [].

(** [executeFetchColumns] and [executeImpl] with these collaborators. *)
Definition fetch := executeFetchColumns profiling new_union run_union sample_union
                      no_regions.

Definition build := executeImpl header_x not_grouped profiling new_union run_union
                      sample_union no_regions.

(** SELECT a FROM t WHERE b AND c, and its analysis: it reads the
    columns a, b and c. *)
Definition select_a_where_b_and_c : ASTSelectQuery :=
  {| distinct := false;
     group_by_with_totals := false;
     prewhere_expression := None;
     where_expression := Some "and(b, c)";
     group_expression_list := None;
     having_expression := None;
     order_expression_list := None;
     limit_by_value := None;
     limit_by_expression_list := None;
     limit_offset := None;
     limit_length := None;
     partition_expression_list := None;
     no_kvstore := false;
     sample_size := None;
     final := false;
     join := None;
     database := None;
     table := from_t |}.

Definition analyzer_a_where_b_and_c : ExpressionAnalyzer :=
  {| hasAggregation := false;
     appendJoin := false;
     appendWhere := true;
     appendHaving := false;
     appendOrderBy := false;
     appendLimitBy := false;
     select_required_output := ["a"];
     getRequiredSourceColumns := ["a"; "b"; "c"];
     getAggregateInfo := ([], []);
     getSubqueriesForSets := [] |}.

(** The interpreter of a FROM subquery whose SELECTs are SELECT a FROM t
    WHERE b AND c: one nested interpreter per SELECT, over the table t,
    in the context that the constructor is given. *)
Definition new_union_over_t (list_of_selects : list ASTSelectQuery) (context_ : Context)
    (required : Names) (target : QueryProcessingStage.Enum) (depth : N)
  : Result InterpreterSelectWithUnionQuery :=
  Ok {| nested_interpreters :=
          map (fun q => {| query := q;
                           context := context_;
                           to_stage := target;
                           subquery_depth := depth;
                           only_analyze := false;
                           input := None;
                           max_streams := max_threads (settings context_);
                           storage :=
                             Some (table_t false QueryProcessingStage.FetchColumns 1);
                           query_analyzer := analyzer_a_where_b_and_c |})
              list_of_selects |}.

(** The chains of several runs, or the first exception. *)
Fixpoint gather (runs : list (Result BlockInputStreams)) : Result BlockInputStreams :=
  match runs with
  | [] => Ok []
  | run :: rest =>
      chains <- run ;;
      more <- gather rest ;;
      Ok (chains ++ more)
  end.

(** Modelled from the spec: [InterpreterSelectWithUnionQuery::executeWithMultipleStreams]
    (the class is not part of the sources).  After the spec (the fetch
    obtains its operators recursively from a nested invocation of the
    pipeline builder, at depth + 1), every nested interpreter is run by
    [executeWithMultipleStreams] and the chains are gathered; FROM
    subqueries of the nested SELECTs, if any, are run by [run_union]. *)
Definition run_nested (u : InterpreterSelectWithUnionQuery) : Result BlockInputStreams :=
  gather (map (executeWithMultipleStreams header_x not_grouped profiling new_union
                 run_union sample_union no_regions)
              (nested_interpreters u)).

(** A managed table of the given engine, which answers every read with
    one operator. *)
Definition managed_table (name : string) (engine : StorageEngine.Enum) : IStorage :=
  {| storage_name := name;
     isRemote := false;
     column_aliases := [];
     column_defaults := [];
     alias_required_columns := fun names => names;
     manageable := Some engine;
     getSampleBlockForColumns := fun names => names;
     read := fun _ _ _ => (QueryProcessingStage.FetchColumns, [SourceStream name 0]) |}.

(** The schema version of a table of these examples: 9 for the table
    named new, 3 for any other. *)
Definition schema_version_of (table_storage : IStorage) : Z :=
  if String.eqb (storage_name table_storage) "new" then 9%Z else 3%Z.

(** The value of [settings.schema_version] that asks for no check. *)
Definition unspecified_version : Z := (-1)%Z.

(** The catalog of these examples: the tables by database and name, the
    tables that a synchronisation of the schemas brings, the current
    database and the version of the global schema. *)
Record Catalog : Type := {
  tables : list (string * string * IStorage);
  tables_after_sync : list (string * string * IStorage);
  current_database : string;
  current_version : Z
}.

Fixpoint find_table (known : list (string * string * IStorage))
    (database_name table_name : string) : option IStorage :=
  match known with
  | [] => None
  | (d, t, table_storage) :: rest =>
      if String.eqb d database_name && String.eqb t table_name
      then Some table_storage
      else find_table rest database_name table_name
  end.

Definition try_get_table (catalog : Catalog) (database_name table_name : string)
  : option IStorage :=
  find_table (tables catalog) database_name table_name.

(** The lookup that throws for a missing table (the code of that
    exception is not among the codes above; these examples throw it
    without code). *)
Definition get_table (catalog : Catalog) (database_name table_name : string)
  : Result IStorage :=
  match try_get_table catalog database_name table_name with
  | Some table_storage => Ok table_storage
  | None =>
      Throw NO_CODE ("Table " ++ database_name ++ "." ++ table_name ++ " doesn't exist.")
  end.

Definition sync_schemas (catalog : Catalog) : Catalog :=
  {| tables := tables_after_sync catalog;
     tables_after_sync := tables_after_sync catalog;
     current_database := current_database catalog;
     current_version := current_version catalog |}.

Definition table_function (catalog : Catalog) (name : string) : IStorage :=
  table_t false QueryProcessingStage.FetchColumns 1.

(** In the database db: the plain table t, the TMT table m (schema
    version 3) and the DT table new (schema version 9); the TMT table
    late comes with a synchronisation.  The global schema is at version
    4. *)
Definition catalog_db : Catalog :=
  let known := [("db", "t", table_t false QueryProcessingStage.FetchColumns 1);
                ("db", "m", managed_table "m" StorageEngine.TMT);
                ("db", "new", managed_table "new" StorageEngine.DT)] in
  {| tables := known;
     tables_after_sync := known ++ [("db", "late", managed_table "late" StorageEngine.TMT)];
     current_database := "db";
     current_version := 4%Z |}.

Definition lock_with_version :=
  getAndLockStorageWithSchemaVersion try_get_table get_table current_version
    sync_schemas schema_version_of unspecified_version.

Definition no_support : IStorage -> bool := fun _ => false.

(** The constructor with these collaborators: the analyzer of a query
    without aggregation. *)
Definition construct :=
  init header_x try_get_table get_table table_function current_database
    current_version sync_schemas schema_version_of unspecified_version
    no_support no_support no_support (fun _ _ => Ok ["x"])
    (fun _ _ _ _ required _ _ => analyzer false required).

(** A pipeline with one main chain and one side chain. *)
Definition joined_chains : Pipeline :=
  {| streams := [SourceStream "t" 0];
     streams_with_non_joined_data := [SourceStream "j" 0] |}.

Definition stages := executeStages header_x not_grouped profiling.

End Examples.

(** * Properties *)

(** ** Machine integers *)

(** The sum on [size_t] is the sum of the numbers as long as it fits. *)
Lemma size_add_exact (a b : N) : a + b < size_t_modulus -> size_add a b = a + b.
Proof. intros H; unfold size_add; now apply N.mod_small. Qed.

Lemma size_add_0_r (a : N) : a < size_t_modulus -> size_add a 0 = a.
Proof. intros H; rewrite size_add_exact; rewrite N.add_0_r; [reflexivity | exact H]. Qed.

Example size_add_wraps : size_add (2 ^ 64 - 1) 2 = 1.
Proof. reflexivity. Qed.

(** ** Stages *)

Lemma stage_eqb_eq (a b : QueryProcessingStage.Enum) :
  QueryProcessingStage.eqb a b = true <-> a = b.
Proof.
  unfold QueryProcessingStage.eqb; rewrite N.eqb_eq; split; [| now intros ->].
  destruct a, b; simpl; intros H; try reflexivity; discriminate H.
Qed.

Lemma stage_ltb_lt (a b : QueryProcessingStage.Enum) :
  QueryProcessingStage.ltb a b = true <-> QueryProcessingStage.lt a b.
Proof. apply N.ltb_lt. Qed.

Lemma stage_leb_le (a b : QueryProcessingStage.Enum) :
  QueryProcessingStage.leb a b = true <-> QueryProcessingStage.le a b.
Proof. apply N.leb_le. Qed.

(** C1. For every pair of stages, [analyzeExpressions] sets [first_stage]
    exactly when from_stage < WithMergeableState <= to_stage, and
    [second_stage] exactly when from_stage <= WithMergeableState <
    to_stage. *)
Theorem analyzeExpressions_stages
    (this : InterpreterSelectQuery) (from : QueryProcessingStage.Enum) :
  (first_stage (analyzeExpressions this from) = true <->
     QueryProcessingStage.lt from QueryProcessingStage.WithMergeableState
     /\ QueryProcessingStage.le QueryProcessingStage.WithMergeableState (to_stage this))
  /\
  (second_stage (analyzeExpressions this from) = true <->
     QueryProcessingStage.le from QueryProcessingStage.WithMergeableState
     /\ QueryProcessingStage.lt QueryProcessingStage.WithMergeableState (to_stage this)).
Proof.
  unfold analyzeExpressions; cbn [first_stage second_stage].
  unfold QueryProcessingStage.geb, QueryProcessingStage.gtb.
  rewrite !andb_true_iff, !stage_ltb_lt, !stage_leb_le.
  split; reflexivity.
Qed.

(** The four pairs of flags that the nine pairs of stages give. *)
Example analyzeExpressions_stages_table (this : InterpreterSelectQuery) :
  map (fun from => (first_stage (analyzeExpressions this from),
                    second_stage (analyzeExpressions this from)))
      [QueryProcessingStage.FetchColumns; QueryProcessingStage.WithMergeableState;
       QueryProcessingStage.Complete]
  = match to_stage this with
    | QueryProcessingStage.FetchColumns => [(false, false); (false, false); (false, false)]
    | QueryProcessingStage.WithMergeableState => [(true, false); (false, false); (false, false)]
    | QueryProcessingStage.Complete => [(true, true); (false, true); (false, false)]
    end.
Proof. unfold analyzeExpressions; destruct (to_stage this); reflexivity. Qed.

(** ** Sizes *)

Lemma size_cons {A : Type} (a : A) (l : list A) : size (a :: l) = N.succ (size l).
Proof. unfold size; cbn [List.length]; apply Nat2N.inj_succ. Qed.

Lemma size_nil {A : Type} : size (@nil A) = 0.
Proof. reflexivity. Qed.

Lemma size_0_iff {A : Type} (l : list A) : size l = 0 <-> l = [].
Proof.
  destruct l as [|a l]; [split; reflexivity |].
  rewrite size_cons; split; [intros H; lia | discriminate].
Qed.

Lemma size_1_iff {A : Type} (l : list A) : size l = 1 <-> exists a, l = [a].
Proof.
  destruct l as [|a [|b l]]; rewrite ?size_cons, ?size_nil.
  - split; [discriminate | intros [a H]; discriminate H].
  - split; [intros _; now exists a | reflexivity].
  - split; [intros H; lia | intros [c H]; discriminate H].
Qed.

Lemma size_map {A B : Type} (f : A -> B) (l : list A) : size (map f l) = size l.
Proof. unfold size; now rewrite length_map. Qed.

Lemma chain_count_transform (f : BlockInputStream -> BlockInputStream) (p : Pipeline) :
  chain_count (transform f p) = chain_count p.
Proof. unfold chain_count, transform; cbn [streams streams_with_non_joined_data];
       now rewrite !size_map. Qed.

(** ** Union *)

Lemma executeUnion_none (this : InterpreterSelectQuery) (p : Pipeline) :
  chain_count p = 0 -> executeUnion this p = p.
Proof. unfold executeUnion; now intros ->. Qed.

Lemma executeUnion_one (this : InterpreterSelectQuery) (p : Pipeline) :
  chain_count p = 1 ->
  exists s,
    (streams p = [s] /\ streams_with_non_joined_data p = [] /\ executeUnion this p = p)
    \/ (streams p = [] /\ streams_with_non_joined_data p = [s]
        /\ executeUnion this p = {| streams := [s]; streams_with_non_joined_data := [] |}).
Proof.
  unfold executeUnion; intros E; rewrite E.
  destruct p as [main side]; unfold chain_count in E;
    cbn [streams streams_with_non_joined_data] in *.
  destruct main as [|a main].
  - rewrite size_nil in E |- *; cbn [N.add] in E.
    apply size_1_iff in E as [s ->]; exists s; right; repeat split.
  - rewrite size_cons in E.
    assert (Hm : size main = 0) by lia.
    assert (Hs : size side = 0) by lia.
    apply size_0_iff in Hm, Hs; subst main side.
    exists a; left; repeat split.
Qed.

Lemma executeUnion_many (this : InterpreterSelectQuery) (p : Pipeline) :
  1 < chain_count p -> executeUnion this p = union_of this p.
Proof.
  unfold executeUnion; intros H.
  destruct (chain_count p) as [|[c|c|]]; try reflexivity; lia.
Qed.

(** C5. [executeUnion] splits on the chain count: none - nothing is done;
    one - nothing is done but for a single chain of non-matched rows,
    which moves to the main collection; two or more - one union operator
    over all of them replaces them.  On a pipeline with a chain, exactly
    one chain remains, and the side channel is empty. *)
Theorem executeUnion_cases (this : InterpreterSelectQuery) (p : Pipeline) :
  (chain_count p = 0 -> executeUnion this p = p)
  /\ (chain_count p = 1 ->
      exists s,
        (streams p = [s] /\ streams_with_non_joined_data p = []
         /\ executeUnion this p = p)
        \/ (streams p = [] /\ streams_with_non_joined_data p = [s]
            /\ executeUnion this p
               = {| streams := [s]; streams_with_non_joined_data := [] |}))
  /\ (2 <= chain_count p ->
      executeUnion this p
      = {| streams := [UnionBlockInputStream (streams p)
                         (streams_with_non_joined_data p) (max_streams this)];
           streams_with_non_joined_data := [] |})
  /\ (chain_count p <> 0 ->
      size (streams (executeUnion this p)) = 1
      /\ streams_with_non_joined_data (executeUnion this p) = []
      /\ chain_count (executeUnion this p) = 1).
Proof.
  split; [apply executeUnion_none |].
  split; [apply executeUnion_one |].
  split; [intros H; apply executeUnion_many; lia |].
  intros H.
  destruct (N.eq_dec (chain_count p) 1) as [E | NE].
  - destruct (executeUnion_one this p E) as [s [(Hs & Hn & ->) | (_ & _ & ->)]].
    + unfold chain_count; rewrite Hs, Hn; repeat split.
    + repeat split.
  - rewrite executeUnion_many by lia; repeat split.
Qed.

Lemma executeUnion_cases_witness :
  let this := Examples.interpreter
                (Examples.select_query false false None None None None Examples.from_t)
                Examples.default_settings QueryProcessingStage.Complete None
                (Examples.analyzer false ["x"]) in
  (chain_count empty_pipeline = 0 /\ executeUnion this empty_pipeline = empty_pipeline)
  /\ (chain_count Examples.one_non_joined_chain = 1
      /\ exists s,
           (streams Examples.one_non_joined_chain = [s]
            /\ streams_with_non_joined_data Examples.one_non_joined_chain = []
            /\ executeUnion this Examples.one_non_joined_chain
               = Examples.one_non_joined_chain)
           \/ (streams Examples.one_non_joined_chain = []
               /\ streams_with_non_joined_data Examples.one_non_joined_chain = [s]
               /\ executeUnion this Examples.one_non_joined_chain
                  = {| streams := [s]; streams_with_non_joined_data := [] |}))
  /\ (2 <= chain_count Examples.two_chains
      /\ executeUnion this Examples.two_chains
         = {| streams := [UnionBlockInputStream (streams Examples.two_chains)
                            (streams_with_non_joined_data Examples.two_chains)
                            (max_streams this)];
              streams_with_non_joined_data := [] |})
  /\ (chain_count Examples.two_chains <> 0
      /\ size (streams (executeUnion this Examples.two_chains)) = 1
      /\ streams_with_non_joined_data (executeUnion this Examples.two_chains) = []
      /\ chain_count (executeUnion this Examples.two_chains) = 1).
Proof.
  intros this.
  split; [split; [reflexivity |
    apply (proj1 (executeUnion_cases this empty_pipeline)); reflexivity] |].
  split; [split; [reflexivity |
    apply (proj1 (proj2 (executeUnion_cases this Examples.one_non_joined_chain)));
    reflexivity] |].
  split; [split; [vm_compute; discriminate |
    apply (proj1 (proj2 (proj2 (executeUnion_cases this Examples.two_chains))));
    vm_compute; discriminate] |].
  split; [vm_compute; discriminate |
    apply (proj2 (proj2 (proj2 (executeUnion_cases this Examples.two_chains))));
    vm_compute; discriminate].
Defined.

(** ** Sorting *)

Lemma getLimitLengthAndOffset_no_limit (q : ASTSelectQuery) :
  limit_length q = None -> getLimitLengthAndOffset q = (0, 0).
Proof. unfold getLimitLengthAndOffset; now intros ->. Qed.

Lemma executeOrder_chains (this : InterpreterSelectQuery) (p : Pipeline) :
  chain_count p <> 0 ->
  let description := getSortDescription (query this) in
  let limit := getLimitForSorting (query this) in
  exists sorted,
    executeOrder this p
    = Ok {| streams := [merge_sort this description limit sorted];
            streams_with_non_joined_data := [] |}
    /\ ((exists chain,
           (streams p = [chain] /\ streams_with_non_joined_data p = []
            \/ streams p = [] /\ streams_with_non_joined_data p = [chain])
           /\ sorted = partial_sort this description limit chain)
        \/ (2 <= chain_count p
            /\ sorted
               = UnionBlockInputStream
                   (map (partial_sort this description limit) (streams p))
                   (map (partial_sort this description limit)
                      (streams_with_non_joined_data p))
                   (max_streams this))).
Proof.
  intros H description limit.
  unfold executeOrder; fold description; fold limit.
  fold (partial_sort this description limit).
  set (p' := transform (partial_sort this description limit) p).
  assert (Hc : chain_count p' = chain_count p) by apply chain_count_transform.
  destruct (N.eq_dec (chain_count p) 1) as [E | NE].
  - destruct (executeUnion_one this p') as [s [(Hs & Hn & ->) | (Hs & Hn & ->)]];
      [congruence | |].
    + unfold firstStream, set_firstStream; rewrite Hs, Hn.
      exists s; split; [reflexivity |]. left.
      subst p'; unfold transform in Hs, Hn; cbn [streams streams_with_non_joined_data] in *.
      destruct (streams p) as [|c [|c' l]]; try discriminate Hs.
      apply map_eq_nil in Hn. injection Hs as <-.
      exists c; split; [left; now split | reflexivity].
    + cbn. exists s; split; [reflexivity |]. left.
      subst p'; unfold transform in Hs, Hn; cbn [streams streams_with_non_joined_data] in *.
      apply map_eq_nil in Hs.
      destruct (streams_with_non_joined_data p) as [|c [|c' l]]; try discriminate Hn.
      injection Hn as <-.
      exists c; split; [right; now split | reflexivity].
  - rewrite (executeUnion_many this p') by lia.
    cbn. eexists; split; [reflexivity |]. right; split; [lia | reflexivity].
Qed.

(** The row bound of sorting as the program computes it: the sum of
    [limit_length] and [limit_offset] on [size_t], which wraps modulo
    2^64, when the query has a LIMIT and neither DISTINCT nor LIMIT BY,
    and 0 (unbounded) otherwise; one [executeOrder] gives this bound and
    the sort description of the query both to the partial sort of every
    chain and to the merge sort over them. *)
Lemma executeOrder_bound (this : InterpreterSelectQuery) (p : Pipeline) :
  let q := query this in
  let description := getSortDescription q in
  let limit := getLimitForSorting q in
  (present (limit_length q) = true -> distinct q = false ->
   limit_by_expression_list q = None ->
   limit = size_add (fst (getLimitLengthAndOffset q)) (snd (getLimitLengthAndOffset q)))
  /\ (present (limit_length q) = false \/ distinct q = true
      \/ limit_by_expression_list q <> None ->
      limit = 0)
  /\ (chain_count p <> 0 ->
      exists sorted,
        executeOrder this p
        = Ok {| streams := [merge_sort this description limit sorted];
                streams_with_non_joined_data := [] |}
        /\ ((exists chain,
               (streams p = [chain] /\ streams_with_non_joined_data p = []
                \/ streams p = [] /\ streams_with_non_joined_data p = [chain])
               /\ sorted = partial_sort this description limit chain)
            \/ (2 <= chain_count p
                /\ sorted
                   = UnionBlockInputStream
                       (map (partial_sort this description limit) (streams p))
                       (map (partial_sort this description limit)
                          (streams_with_non_joined_data p))
                       (max_streams this)))).
Proof.
  intros q description limit.
  split; [| split].
  - intros _ Hd Hl; subst limit; unfold getLimitForSorting; fold q.
    rewrite Hd, Hl; cbn. now destruct (getLimitLengthAndOffset q).
  - intros H; subst limit; unfold getLimitForSorting; fold q.
    destruct (distinct q); [reflexivity |].
    destruct (limit_by_expression_list q) as [l|]; [reflexivity |]; cbn.
    destruct H as [H | [H | H]]; [| discriminate | congruence].
    destruct (limit_length q) as [n|] eqn:E; [discriminate |].
    now rewrite (getLimitLengthAndOffset_no_limit q E).
  - apply executeOrder_chains.
Qed.

Lemma executeOrder_bound_witness :
  let q := Examples.select_query false false Examples.order_by_x None (Some 5) (Some 10)
             Examples.from_t in
  let this := Examples.interpreter q Examples.default_settings
                QueryProcessingStage.Complete None (Examples.analyzer false ["x"]) in
  getLimitForSorting q = 15
  /\ exists sorted,
       executeOrder this Examples.two_chains
       = Ok {| streams := [merge_sort this (getSortDescription q) 15 sorted];
               streams_with_non_joined_data := [] |}.
Proof.
  intros q this.
  pose proof (executeOrder_bound this Examples.two_chains) as H; cbv zeta in H.
  destruct H as (Hb & _ & Ho).
  split.
  - apply Hb; reflexivity.
  - destruct Ho as [sorted [E _]]; [vm_compute; discriminate |].
    exists sorted; exact E.
Defined.

(** As long as the sum fits 64 bits, the bound of sorting is
    [limit_length + limit_offset]. *)
Lemma getLimitForSorting_exact (q : ASTSelectQuery) :
  present (limit_length q) = true -> distinct q = false ->
  limit_by_expression_list q = None ->
  fst (getLimitLengthAndOffset q) + snd (getLimitLengthAndOffset q) < size_t_modulus ->
  getLimitForSorting q
  = fst (getLimitLengthAndOffset q) + snd (getLimitLengthAndOffset q).
Proof.
  intros _ Hd Hl Hs. unfold getLimitForSorting. rewrite Hd, Hl. cbn [negb present andb].
  destruct (getLimitLengthAndOffset q) as [len off]. cbn [fst snd] in *.
  now apply size_add_exact.
Qed.

(** C6. The claim fails on the code at ORDER BY x LIMIT 95,
    18446744073709551615 (a LIMIT of offset 95 and length 2^64 - 1,
    neither DISTINCT nor LIMIT BY): [limit_length + limit_offset] is
    2^64 + 94, and the sum that [getLimitForSorting] computes on [size_t]
    wraps to 94.  [executeOrder] bounds the partial sort of both chains
    and the merge sort over them to 94 rows, fewer than the 95 rows that
    the LIMIT skips. *)
Theorem executeOrder_bound_wraps :
  let q := Examples.select_query false false Examples.order_by_x None (Some 95)
             (Some 18446744073709551615) Examples.from_t in
  let this := Examples.interpreter q Examples.default_settings
                QueryProcessingStage.Complete None (Examples.analyzer false ["x"]) in
  let description := getSortDescription q in
  (present (limit_length q) = true /\ distinct q = false
   /\ limit_by_expression_list q = None)
  /\ getLimitLengthAndOffset q = (18446744073709551615, 95)
  /\ getLimitForSorting q = 94
  /\ getLimitForSorting q <> 18446744073709551615 + 95
  /\ executeOrder this Examples.two_chains
     = Ok {| streams :=
               [merge_sort this description 94
                  (UnionBlockInputStream
                     (map (partial_sort this description 94)
                        (streams Examples.two_chains))
                     [] (max_streams this))];
             streams_with_non_joined_data := [] |}.
Proof.
  cbv zeta. split; [repeat split |]. split; [reflexivity |].
  split; [vm_compute; reflexivity |]. split; [vm_compute; discriminate |].
  vm_compute. reflexivity.
Qed.

(** ** Distinct *)

(** C3, as the code has it.  On a DISTINCT query every chain gets a
    DISTINCT operator; its bound on the rows is [limit_length +
    limit_offset] when no ORDER BY runs after the pass (the query has no
    ORDER BY, or the pass is not the one before the ordering), and 0
    (unbounded) when the pass precedes the ORDER BY of the query.  Without
    DISTINCT the pipeline is left as it is. *)
Theorem executeDistinct_bound (isGroupedOutput : BlockInputStream -> bool)
    (this : InterpreterSelectQuery) (p : Pipeline) (before_order : bool)
    (columns : Names) :
  let q := query this in
  let rows := size_add (fst (getLimitLengthAndOffset q)) (snd (getLimitLengthAndOffset q)) in
  (distinct q = false -> executeDistinct isGroupedOutput this p before_order columns = p)
  /\ (distinct q = true ->
      exists bound,
        executeDistinct isGroupedOutput this p before_order columns
        = transform (distinct_operator isGroupedOutput this bound columns) p
        /\ (forall chain,
              limit_hint_of (distinct_operator isGroupedOutput this bound columns chain)
              = Some bound)
        /\ (order_expression_list q = None \/ before_order = false -> bound = rows)
        /\ (order_expression_list q <> None -> before_order = true -> bound = 0)).
Proof.
  intros q rows; unfold executeDistinct; fold q.
  split; [now intros -> |].
  intros ->.
  destruct (getLimitLengthAndOffset q) as [len off] eqn:E.
  eexists; split; [reflexivity |].
  split; [intros chain; unfold distinct_operator;
          now destruct (isGroupedOutput chain) |].
  subst rows; cbn [fst snd].
  split.
  - intros [-> | ->]; [reflexivity |].
    now rewrite orb_true_r.
  - intros Ho ->.
    destruct (order_expression_list q); [reflexivity | congruence].
Qed.

Lemma executeDistinct_bound_witness :
  let q := Examples.select_query true false None None (Some 5) (Some 10) Examples.from_t in
  let this := Examples.interpreter q Examples.default_settings
                QueryProcessingStage.Complete None (Examples.analyzer false ["x"]) in
  exists bound,
    executeDistinct Examples.not_grouped this Examples.one_chain true ["x"]
    = transform (distinct_operator Examples.not_grouped this bound ["x"]) Examples.one_chain
    /\ bound = 15.
Proof.
  intros q this.
  destruct (executeDistinct_bound Examples.not_grouped this Examples.one_chain true ["x"])
    as [_ H].
  destruct H as [bound (E & _ & Hb & _)]; [reflexivity |].
  exists bound; split; [exact E |].
  rewrite Hb; [reflexivity | left; reflexivity].
Defined.

(** C3, as the claim words it, fails: the pass that precedes ORDER BY
    (SELECT DISTINCT x FROM t ORDER BY x LIMIT 5, 10) is unbounded, not
    bounded by 15; and a pass with no ORDER BY in the query is bounded by
    15, not unbounded. *)
Lemma executeDistinct_before_order_is_unbounded :
  let ordered := Examples.select_query true false Examples.order_by_x None (Some 5)
                   (Some 10) Examples.from_t in
  let unordered := Examples.select_query true false None None (Some 5) (Some 10)
                     Examples.from_t in
  let builder q := Examples.interpreter q Examples.default_settings
                     QueryProcessingStage.Complete None (Examples.analyzer false ["x"]) in
  let limits := {| max_rows := 0; max_bytes := 0; overflow_mode := OverflowMode.THROW |} in
  size_add 10 5 = 15
  /\ executeDistinct Examples.not_grouped (builder ordered) Examples.one_chain true ["x"]
     = {| streams := [DistinctBlockInputStream (SourceStream "t" 0) limits 0 ["x"]];
          streams_with_non_joined_data := [] |}
  /\ executeDistinct Examples.not_grouped (builder unordered) Examples.one_chain true ["x"]
     = {| streams := [DistinctBlockInputStream (SourceStream "t" 0) limits 15 ["x"]];
          streams_with_non_joined_data := [] |}.
Proof. repeat split. Qed.

(** ** Limit *)

(** Induction on a SELECT through the SELECTs of its FROM subquery. *)
Lemma ASTSelectQuery_from_ind (P : ASTSelectQuery -> Prop) :
  (forall q, (forall inner, InFromClause q inner -> P inner) -> P q) ->
  forall q, P q.
Proof.
  intros step.
  assert (nested : forall q,
             match table q with
             | Some (ASTSelectWithUnionQuery list_of_selects) => Forall P list_of_selects
             | _ => True
             end -> P q).
  { intros q H; apply step; intros inner [selects [E Hin]].
    rewrite E in H. rewrite Forall_forall in H. now apply H. }
  fix IH 1; intros q; apply nested.
  destruct q as [? ? ? ? ? ? ? ? ? ? ? ? ? ? ? ? ? t]; cbn [table].
  destruct t as [[name | name | selects] |]; try exact I.
  induction selects as [| x rest IHrest]; constructor; [apply IH | apply IHrest].
Qed.

Lemma hasWithTotals_unfold (q : ASTSelectQuery) :
  hasWithTotalsInAnySubqueryInFromClause q
  = if group_by_with_totals q then true
    else match table q with
         | Some (ASTSelectWithUnionQuery list_of_selects) =>
             existsb hasWithTotalsInAnySubqueryInFromClause list_of_selects
         | _ => false
         end.
Proof. now destruct q. Qed.

(** The recursive inspection finds WITH TOTALS exactly when the query
    has it or a SELECT of its chain of FROM subqueries has it. *)
Lemma hasWithTotals_iff (q : ASTSelectQuery) :
  hasWithTotalsInAnySubqueryInFromClause q = true <->
  group_by_with_totals q = true
  \/ exists inner, InFromChain q inner /\ group_by_with_totals inner = true.
Proof.
  induction q as [q IH] using ASTSelectQuery_from_ind.
  rewrite hasWithTotals_unfold.
  destruct (group_by_with_totals q) eqn:T; [split; auto |].
  split.
  - intros H.
    destruct (table q) as [[name | name | selects] |] eqn:E; try discriminate H.
    apply existsb_exists in H as [middle [Hin Hm]].
    assert (C : InFromClause q middle) by (exists selects; auto).
    right. apply (IH middle C) in Hm as [Hm | [inner [Hc Hi]]].
    + exists middle; split; [now apply from_chain_here | exact Hm].
    + exists inner; split; [now apply from_chain_below with middle | exact Hi].
  - intros [H | [inner [Hc Hi]]]; [discriminate H |].
    assert (M : exists middle, InFromClause q middle
                 /\ hasWithTotalsInAnySubqueryInFromClause middle = true).
    { destruct Hc as [inner C | middle inner C Hc].
      - exists inner; split; [exact C |]. apply (IH inner C); now left.
      - exists middle; split; [exact C |]. apply (IH middle C); right; now exists inner. }
    destruct M as [middle [[selects [E Hin]] Hm]].
    rewrite E. apply existsb_exists. now exists middle.
Qed.

(** C7, as the code has it.  Under a LIMIT every chain gets a limit
    operator with the length and the offset of the query; its
    read-till-end flag is set exactly when the query has WITH TOTALS and
    no ORDER BY, or has no WITH TOTALS while a SELECT of its chain of FROM
    subqueries has WITH TOTALS (with or without an ORDER BY of its own).
    Without LIMIT the pipeline is left as it is. *)
Theorem executeLimit_read_till_end (this : InterpreterSelectQuery) (p : Pipeline) :
  let q := query this in
  (limit_length q = None -> executeLimit this p = p)
  /\ (limit_length q <> None ->
      exists always_read_till_end,
        executeLimit this p
        = transform (fun chain =>
            LimitBlockInputStream chain (fst (getLimitLengthAndOffset q))
              (snd (getLimitLengthAndOffset q)) always_read_till_end) p
        /\ (always_read_till_end = true <->
            (group_by_with_totals q = true /\ order_expression_list q = None)
            \/ (group_by_with_totals q = false
                /\ exists inner, InFromChain q inner
                                 /\ group_by_with_totals inner = true))).
Proof.
  intros q; unfold executeLimit; fold q.
  destruct (getLimitLengthAndOffset q) as [len off]; cbn [fst snd].
  split; [now intros -> |].
  intros H. destruct (limit_length q) as [n|]; [clear H | congruence]. cbn [present].
  eexists; split; [reflexivity |].
  rewrite orb_true_iff, !andb_true_iff, !negb_true_iff, hasWithTotals_iff.
  split.
  - intros [[T O] | [T [T' | C]]]; [left | congruence | right; auto].
    split; [exact T |]. now destruct (order_expression_list q).
  - intros [[T O] | [T C]]; [left | right; auto].
    now rewrite T, O.
Qed.

Lemma executeLimit_read_till_end_witness :
  let inner := Examples.select_query false true Examples.order_by_x None None None
                 Examples.from_t in
  let q := Examples.select_query false false None None None (Some 5)
             (Some (ASTSelectWithUnionQuery [inner])) in
  let this := Examples.interpreter q Examples.default_settings
                QueryProcessingStage.Complete None (Examples.analyzer false ["x"]) in
  exists always_read_till_end,
    executeLimit this Examples.one_chain
    = transform (fun chain => LimitBlockInputStream chain 5 0 always_read_till_end)
        Examples.one_chain.
Proof.
  intros inner q this.
  destruct (executeLimit_read_till_end this Examples.one_chain) as [_ H].
  destruct H as [flag [E _]]; [discriminate |].
  exists flag; exact E.
Defined.

(** C7, as the claim words it, fails.  SELECT x FROM (SELECT x FROM t
    GROUP BY x WITH TOTALS ORDER BY x) LIMIT 5: the only WITH TOTALS of the
    FROM chain comes with an ORDER BY of its own, so the flag of the claim
    is off; the limit operator is built with the flag on. *)
Lemma executeLimit_reads_till_end_despite_inner_order :
  let inner := Examples.select_query false true Examples.order_by_x None None None
                 Examples.from_t in
  let q := Examples.select_query false false None None None (Some 5)
             (Some (ASTSelectWithUnionQuery [inner])) in
  let this := Examples.interpreter q Examples.default_settings
                QueryProcessingStage.Complete None (Examples.analyzer false ["x"]) in
  read_till_end_as_specified q = false
  /\ executeLimit this Examples.one_chain
     = {| streams := [LimitBlockInputStream (SourceStream "t" 0) 5 0 true];
          streams_with_non_joined_data := [] |}.
Proof. split; reflexivity. Qed.

(** ** Aggregation *)

Lemma bind_Ok {A B : Type} (r : Result A) (k : A -> Result B) (b : B) :
  bind r k = Ok b -> exists a, r = Ok a /\ k a = Ok b.
Proof. destruct r as [a | c m]; [intros H; now exists a | discriminate]. Qed.

(** The aggregation step gives a result as soon as the pipeline has a
    main chain and its header has the key and argument columns. *)
Lemma executeAggregation_returns (getHeader : BlockInputStream -> Block)
    (this : InterpreterSelectQuery) (p : Pipeline) (expression : ExpressionActionsPtr)
    (overflow_row final : bool) (chain : BlockInputStream) (rest : BlockInputStreams) :
  streams p = chain :: rest ->
  let header := getHeader (ExpressionBlockInputStream chain expression) in
  (exists keys,
     getPositionsByNames header (fst (getAggregateInfo (query_analyzer this))) = Ok keys) ->
  (exists aggregates,
     fill_all_arguments header (snd (getAggregateInfo (query_analyzer this)))
     = Ok aggregates) ->
  exists p', executeAggregation getHeader this p expression overflow_row final = Ok p'.
Proof.
  intros Hs header [keys Hk] [aggregates Ha].
  unfold executeAggregation.
  destruct (getAggregateInfo (query_analyzer this)) as [key_names descrs].
  cbn [fst snd] in Hk, Ha.
  unfold firstStream, transform; cbn [streams streams_with_non_joined_data].
  rewrite Hs; cbn [map bind]. fold header. rewrite Hk; cbn [bind]. rewrite Ha; cbn [bind].
  match goal with |- context [if ?c then _ else _] => destruct c end; eexists; reflexivity.
Qed.

(** C4, as the code has it.  The aggregation step, run on the actions
    before the aggregation, leaves one chain, an aggregating operator;
    the two-level thresholds given to its aggregator are the configured
    ones when the main chains of the pipeline ([pipeline.streams]; the
    side chains of the non-joined rows are not counted) are more than one
    or the external GROUP BY threshold is non-zero, and both zero
    otherwise. *)
Theorem executeAggregation_two_level (getHeader : BlockInputStream -> Block)
    (this : InterpreterSelectQuery) (p : Pipeline) (actions : ExpressionActions)
    (overflow_row final : bool) (p' : Pipeline) :
  executeAggregation getHeader this p (Some actions) overflow_row final = Ok p' ->
  let s := settings (context this) in
  exists op params,
    streams p' = [op] /\ streams_with_non_joined_data p' = []
    /\ aggregator_params op = Some params
    /\ (1 < size (streams p) \/ max_bytes_before_external_group_by s <> 0 ->
        Aggregator.group_by_two_level_threshold params = group_by_two_level_threshold s
        /\ Aggregator.group_by_two_level_threshold_bytes params
           = group_by_two_level_threshold_bytes s)
    /\ (size (streams p) <= 1 -> max_bytes_before_external_group_by s = 0 ->
        Aggregator.group_by_two_level_threshold params = 0
        /\ Aggregator.group_by_two_level_threshold_bytes params = 0).
Proof.
  intros H s; unfold executeAggregation in H; fold s in H.
  destruct (getAggregateInfo (query_analyzer this)) as [key_names descrs].
  apply bind_Ok in H as [first [_ H]].
  apply bind_Ok in H as [keys [_ H]].
  apply bind_Ok in H as [aggregates [_ H]].
  unfold transform in H; cbn [streams streams_with_non_joined_data] in H.
  rewrite !size_map in H.
  set (allow := (1 <? size (streams p)) || negb (max_bytes_before_external_group_by s =? 0))
    in H.
  assert (Hallow : allow = true <->
            1 < size (streams p) \/ max_bytes_before_external_group_by s <> 0).
  { subst allow; rewrite orb_true_iff, negb_true_iff, N.ltb_lt, N.eqb_neq; reflexivity. }
  assert (Hdeny : size (streams p) <= 1 -> max_bytes_before_external_group_by s = 0 ->
                  allow = false).
  { intros Hle He; destruct allow; [| reflexivity].
    destruct (proj1 Hallow eq_refl); [lia | congruence]. }
  match type of H with (if ?c then _ else _) = _ => destruct c end;
    injection H as <-; do 2 eexists;
    (split; [reflexivity |]); (split; [reflexivity |]); (split; [reflexivity |]);
    cbn [Aggregator.group_by_two_level_threshold
         Aggregator.group_by_two_level_threshold_bytes];
    (split; [intros Ha; apply Hallow in Ha; rewrite Ha; now split
            | intros Hle He; rewrite (Hdeny Hle He); now split]).
Qed.

Lemma executeAggregation_two_level_witness :
  let q := Examples.select_query false false None None None None Examples.from_t in
  let this := Examples.interpreter q Examples.default_settings
                QueryProcessingStage.Complete None (Examples.analyzer true ["x"]) in
  let expressions := analyzeExpressions this QueryProcessingStage.FetchColumns in
  exists p',
    executeAggregation Examples.header_x this Examples.two_chains
      (before_aggregation expressions) false true = Ok p'
    /\ exists op params,
         streams p' = [op] /\ aggregator_params op = Some params
         /\ Aggregator.group_by_two_level_threshold params = 100000
         /\ Aggregator.group_by_two_level_threshold_bytes params = 100000000.
Proof.
  intros q this expressions.
  eexists; split; [reflexivity |].
  destruct (executeAggregation_two_level Examples.header_x this Examples.two_chains
              {| step := AggregationStep; only_types := false; project_input := false |}
              false true _ eq_refl) as [op [params (Hs & _ & Hp & Hon & _)]].
  exists op, params; split; [exact Hs |]; split; [exact Hp |].
  apply Hon; left; vm_compute; reflexivity.
Defined.

(** C4, as the claim words it, fails.  With both configured thresholds at
    0 (two-level aggregation switched off in the settings) the thresholds
    given to the aggregator are zero although two streams are aggregated.
    With the default thresholds, one main chain and one side chain of
    non-joined rows (two chains) and no external GROUP BY threshold, they
    are zero too: the side chain is not counted.  The step is run as the
    first stage runs it, on the actions before the aggregation. *)
Lemma executeAggregation_zero_thresholds_with_two_streams :
  let q := Examples.select_query false false None None None None Examples.from_t in
  let builder settings_ :=
    Examples.interpreter q settings_ QueryProcessingStage.Complete None
      (Examples.analyzer true ["x"]) in
  let before this :=
    before_aggregation (analyzeExpressions this QueryProcessingStage.FetchColumns) in
  let switched_off := builder (Examples.make_settings 0 0 0 0 65536) in
  let default := builder Examples.default_settings in
  let joined := {| streams := [SourceStream "t" 0];
                   streams_with_non_joined_data := [SourceStream "j" 0] |} in
  (size (streams Examples.two_chains) = 2
   /\ exists inputs params final threads merging,
        executeAggregation Examples.header_x switched_off Examples.two_chains
          (before switched_off) false true
        = Ok {| streams := [ParallelAggregatingBlockInputStream inputs [] params final
                              threads merging];
                streams_with_non_joined_data := [] |}
        /\ Aggregator.group_by_two_level_threshold params = 0
        /\ Aggregator.group_by_two_level_threshold_bytes params = 0)
  /\ (chain_count joined = 2
      /\ group_by_two_level_threshold (settings (context default)) = 100000
      /\ exists input params final,
           executeAggregation Examples.header_x default joined (before default) false
             true
           = Ok {| streams := [AggregatingBlockInputStream input params final];
                   streams_with_non_joined_data := [] |}
           /\ Aggregator.group_by_two_level_threshold params = 0
           /\ Aggregator.group_by_two_level_threshold_bytes params = 0).
Proof.
  cbv zeta. split.
  - split; [reflexivity |].
    do 5 eexists; split; [reflexivity |]; split; reflexivity.
  - split; [reflexivity |]. split; [reflexivity |].
    do 3 eexists; split; [reflexivity |]; split; reflexivity.
Qed.

(** ** Totals *)

Section TotalsProperties.

Variable getHeader : BlockInputStream -> Block.
Variable isGroupedOutput : BlockInputStream -> bool.
Variable isProfiling : BlockInputStream -> bool.

(** Closes an equation between numbers of totals operators. *)
Ltac count_totals :=
  unfold totals_in in *; cbn in *; unfold list_sum in *;
  rewrite ?map_app, ?fold_right_app in *; cbn in *; lia.

Lemma totals_in_transform (f : BlockInputStream -> BlockInputStream) (p : Pipeline) :
  (forall stream, totals_operators (f stream) = totals_operators stream) ->
  totals_in (transform f p) = totals_in p.
Proof.
  intros H; unfold totals_in, transform; cbn [streams streams_with_non_joined_data].
  rewrite !map_map.
  now rewrite (map_ext _ _ H (streams p)), (map_ext _ _ H (streams_with_non_joined_data p)).
Qed.

Lemma totals_in_executeUnion (this : InterpreterSelectQuery) (p : Pipeline) :
  totals_in (executeUnion this p) = totals_in p.
Proof.
  destruct (N.eq_dec (chain_count p) 0) as [Z | NZ];
    [now rewrite executeUnion_none |].
  destruct (N.eq_dec (chain_count p) 1) as [E | NE].
  - destruct (executeUnion_one this p E) as [s [(_ & _ & ->) | (Hs & Hn & ->)]];
      [reflexivity |].
    unfold totals_in; rewrite Hs, Hn; count_totals.
  - rewrite executeUnion_many by lia.
    unfold union_of; count_totals.
Qed.

(** Replacing the first chain by an operator over it. *)
Lemma totals_in_set_firstStream (p p' : Pipeline) (first op : BlockInputStream) :
  firstStream p = Ok first ->
  set_firstStream p op = Ok p' ->
  (totals_in p' + totals_operators first = totals_in p + totals_operators op)%nat.
Proof.
  unfold firstStream, set_firstStream, totals_in.
  destruct (streams p) as [|s rest]; [discriminate |].
  intros [= <-] [= <-]; count_totals.
Qed.

Lemma totals_in_executeOrder (this : InterpreterSelectQuery) (p p' : Pipeline) :
  executeOrder this p = Ok p' -> totals_in p' = totals_in p.
Proof.
  unfold executeOrder; intros H.
  apply bind_Ok in H as [first [Hf H]].
  pose proof (totals_in_set_firstStream _ _ _ _ Hf H) as T; cbn in T.
  rewrite totals_in_executeUnion, totals_in_transform in T by reflexivity. lia.
Qed.

Lemma totals_in_executeMergeSorted (this : InterpreterSelectQuery) (p p' : Pipeline) :
  executeMergeSorted this p = Ok p' -> totals_in p' = totals_in p.
Proof.
  unfold executeMergeSorted.
  destruct (hasMoreThanOneStream p); [| now intros [= <-]].
  intros H. apply bind_Ok in H as [q [Hq H]]. injection H as <-.
  rewrite <- (totals_in_transform AsynchronousBlockInputStream p) by reflexivity.
  unfold set_firstStream in Hq.
  destruct (streams (transform AsynchronousBlockInputStream p)) as [|s rest] eqn:E;
    [discriminate |].
  injection Hq as <-.
  unfold totals_in; rewrite E; count_totals.
Qed.

Lemma firstn_1_all {A : Type} (l : list A) : size l <= 1 -> firstn 1 l = l.
Proof.
  destruct l as [|a [|b l]]; rewrite ?size_cons; cbn; try reflexivity. lia.
Qed.

Lemma totals_in_executeAggregation (this : InterpreterSelectQuery) (p p' : Pipeline)
    (expression : ExpressionActionsPtr) (overflow_row final : bool) :
  executeAggregation getHeader this p expression overflow_row final = Ok p' ->
  totals_in p' = totals_in p.
Proof.
  unfold executeAggregation; intros H.
  destruct (getAggregateInfo (query_analyzer this)) as [key_names descrs].
  apply bind_Ok in H as [first [_ H]].
  apply bind_Ok in H as [keys [_ H]].
  apply bind_Ok in H as [aggregates [_ H]].
  rewrite <- (totals_in_transform
                (fun stream => ExpressionBlockInputStream stream expression) p)
    by reflexivity.
  set (q := transform (fun stream => ExpressionBlockInputStream stream expression) p) in *.
  destruct ((1 <? size (streams q)) || (1 <? size (streams_with_non_joined_data q)))
    eqn:M.
  - injection H as <-. count_totals.
  - apply orb_false_iff in M as [M1 M2]. apply N.ltb_ge in M1, M2.
    rewrite !firstn_1_all in H by assumption.
    injection H as <-.
    unfold totals_in; cbn [streams streams_with_non_joined_data map totals_operators].
    rewrite map_app, list_sum_app. subst q; unfold transform, list_sum.
    cbn [fold_right streams streams_with_non_joined_data]. lia.
Qed.

Lemma totals_in_executeMergeAggregated (this : InterpreterSelectQuery) (p p' : Pipeline)
    (overflow_row final : bool) :
  executeMergeAggregated getHeader this p overflow_row final = Ok p' ->
  totals_in p' = totals_in p.
Proof.
  unfold executeMergeAggregated; intros H.
  destruct (getAggregateInfo (query_analyzer this)) as [key_names descrs].
  apply bind_Ok in H as [first [_ H]].
  apply bind_Ok in H as [keys [_ H]].
  destruct (negb (distributed_aggregation_memory_efficient (settings (context this)))).
  - apply bind_Ok in H as [first' [Hf H]].
    pose proof (totals_in_set_firstStream _ _ _ _ Hf H) as T; cbn in T.
    rewrite totals_in_executeUnion in T. lia.
  - injection H as <-. count_totals.
Qed.

Lemma totals_in_executeDistinct (this : InterpreterSelectQuery) (p : Pipeline)
    (before_order : bool) (columns : Names) :
  totals_in (executeDistinct isGroupedOutput this p before_order columns) = totals_in p.
Proof.
  unfold executeDistinct.
  destruct (distinct (query this)); [| reflexivity].
  destruct (getLimitLengthAndOffset (query this)).
  apply totals_in_transform; intros stream.
  now destruct (isGroupedOutput stream).
Qed.

Lemma totals_in_executePreLimit (this : InterpreterSelectQuery) (p : Pipeline) :
  totals_in (executePreLimit this p) = totals_in p.
Proof.
  unfold executePreLimit. destruct (getLimitLengthAndOffset (query this)).
  destruct (present (limit_length (query this))); [| reflexivity].
  now apply totals_in_transform.
Qed.

Lemma totals_in_executeLimit (this : InterpreterSelectQuery) (p : Pipeline) :
  totals_in (executeLimit this p) = totals_in p.
Proof.
  unfold executeLimit. destruct (getLimitLengthAndOffset (query this)).
  destruct (present (limit_length (query this))); [| reflexivity].
  now apply totals_in_transform.
Qed.

Lemma totals_in_executeLimitBy (this : InterpreterSelectQuery) (p : Pipeline) :
  totals_in (executeLimitBy this p) = totals_in p.
Proof.
  unfold executeLimitBy.
  destruct (limit_by_value (query this)), (limit_by_expression_list (query this));
    try reflexivity.
  now apply totals_in_transform.
Qed.

Lemma totals_in_executeExtremes (this : InterpreterSelectQuery) (p : Pipeline) :
  totals_in (executeExtremes isProfiling this p) = totals_in p.
Proof.
  unfold executeExtremes.
  destruct (negb (extremes (settings (context this)))); [reflexivity |].
  apply totals_in_transform; intros stream. now destruct (isProfiling stream).
Qed.

Lemma totals_in_executeSubqueriesInSetsAndJoins (this : InterpreterSelectQuery)
    (p p' : Pipeline) (sets : list SubqueryForSet) :
  executeSubqueriesInSetsAndJoins this p sets = Ok p' -> totals_in p' = totals_in p.
Proof.
  unfold executeSubqueriesInSetsAndJoins; intros H.
  apply bind_Ok in H as [first [Hf H]].
  pose proof (totals_in_set_firstStream _ _ _ _ Hf H) as T; cbn in T.
  rewrite totals_in_executeUnion in T. lia.
Qed.

Lemma totals_in_executeTotalsAndHaving (this : InterpreterSelectQuery) (p p' : Pipeline)
    (has_having_ : bool) (expression : ExpressionActionsPtr) (overflow_row : bool) :
  executeTotalsAndHaving this p has_having_ expression overflow_row = Ok p' ->
  totals_in p' = S (totals_in p).
Proof.
  unfold executeTotalsAndHaving; intros H.
  apply bind_Ok in H as [first [Hf H]].
  pose proof (totals_in_set_firstStream _ _ _ _ Hf H) as T; cbn in T.
  rewrite totals_in_executeUnion in T. lia.
Qed.

Lemma totals_in_executeFirstStage (this : InterpreterSelectQuery)
    (expressions : AnalysisResult) (p p' : Pipeline)
    (aggregate_overflow_row aggregate_final : bool) :
  executeFirstStage getHeader isGroupedOutput this expressions p aggregate_overflow_row
    aggregate_final = Ok p' ->
  totals_in p' = totals_in p.
Proof.
  unfold executeFirstStage; intros H.
  apply bind_Ok in H as [p1 [H1 H]].
  assert (T1 : totals_in p1 = totals_in p).
  { destruct (has_join expressions); [| now injection H1 as <-].
    apply bind_Ok in H1 as [non_joined [Hn H1]]. injection H1 as <-.
    assert (Z : list_sum (map totals_operators non_joined) = 0%nat).
    { destruct (join (query this)) as [[] |]; try (now injection Hn as <-);
        apply bind_Ok in Hn as [first [_ Hn]]; now injection Hn as <-. }
    unfold totals_in; cbn [streams streams_with_non_joined_data].
    rewrite map_map, map_app, list_sum_app, Z.
    rewrite (map_ext _ totals_operators
               (fun stream : BlockInputStream =>
                  eq_refl (totals_operators
                             (ExpressionBlockInputStream stream
                                (before_join expressions))))).
    lia. }
  apply bind_Ok in H as [p2 [H2 H]].
  assert (T2 : totals_in p2 = totals_in p).
  { rewrite <- T1.
    assert (W : totals_in (if has_where expressions
                           then executeWhere this p1 (before_where expressions)
                           else p1) = totals_in p1).
    { destruct (has_where expressions); [| reflexivity].
      now apply totals_in_transform. }
    rewrite <- W.
    destruct (need_aggregate expressions).
    - now apply totals_in_executeAggregation in H2.
    - injection H2 as <-. rewrite totals_in_executeDistinct.
      now apply totals_in_transform. }
  rewrite <- T2.
  destruct (negb (second_stage expressions) && negb (need_aggregate expressions)
            && negb (has_having expressions)); [| now injection H as <-].
  apply bind_Ok in H as [p3 [H3 H]]. injection H as <-.
  assert (T3 : totals_in p3 = totals_in p2).
  { destruct (has_order_by expressions); [| now injection H3 as <-].
    now apply totals_in_executeOrder in H3. }
  rewrite <- T3.
  destruct (present (limit_length (query this)));
    rewrite ?totals_in_executePreLimit;
    destruct (has_order_by expressions); cbn [andb];
    rewrite ?totals_in_executeDistinct; reflexivity.
Qed.

Lemma totals_in_executeSecondStage (this : InterpreterSelectQuery)
    (expressions : AnalysisResult) (p p' : Pipeline)
    (aggregate_overflow_row aggregate_final : bool) :
  group_by_with_totals (query this) = false ->
  (need_aggregate expressions = true -> aggregate_final = true) ->
  executeSecondStage getHeader isGroupedOutput isProfiling this expressions p
    aggregate_overflow_row aggregate_final = Ok p' ->
  totals_in p' = totals_in p.
Proof.
  intros T F H; unfold executeSecondStage in H; rewrite T in H.
  apply bind_Ok in H as [[pass p1] [H1 H]].
  assert (T1 : totals_in p1 = totals_in p).
  { destruct (need_aggregate expressions).
    - rewrite (F eq_refl) in H1; cbn [negb] in H1.
      apply bind_Ok in H1 as [pa [Ha H1]].
      apply bind_Ok in H1 as [pb [Hb H1]].
      injection H1 as _ <-.
      rewrite totals_in_executeDistinct. unfold executeExpression.
      rewrite totals_in_transform by reflexivity.
      assert (Tb : totals_in pb = totals_in pa).
      { destruct (has_having expressions); injection Hb as <-; [| reflexivity].
        now apply totals_in_transform. }
      rewrite Tb.
      destruct (negb (first_stage expressions)); [| now injection Ha as <-].
      now apply totals_in_executeMergeAggregated in Ha.
    - cbn [andb bind] in H1. now injection H1 as _ <-. }
  apply bind_Ok in H as [p2 [H2 H]]. injection H as <-.
  assert (T2 : totals_in p2 = totals_in p1).
  { destruct (has_order_by expressions); [| now injection H2 as <-].
    destruct (negb (first_stage expressions) && negb (need_aggregate expressions)
              && negb (false && negb aggregate_final)).
    - now apply totals_in_executeMergeSorted in H2.
    - now apply totals_in_executeOrder in H2. }
  rewrite totals_in_executeLimit, totals_in_executeExtremes.
  unfold executeProjection; rewrite totals_in_transform by reflexivity.
  set (p3 := if present (limit_length (query this)) && hasMoreThanOneStream p2
                && negb (distinct (query this)) && negb (has_limit_by expressions)
                && negb (extremes (settings (context this)))
             then executePreLimit this p2 else p2).
  assert (T3 : totals_in p3 = totals_in p2).
  { subst p3. match goal with |- context [if ?c then _ else _] => destruct c end;
      [apply totals_in_executePreLimit | reflexivity]. }
  set (p4 := if pass || present (limit_length (query this))
                || present (limit_by_expression_list (query this))
                || negb (size (streams_with_non_joined_data p3) =? 0)
             then executeUnion this p3 else p3).
  assert (T4 : totals_in p4 = totals_in p3).
  { subst p4. match goal with |- context [if ?c then _ else _] => destruct c end;
      [apply totals_in_executeUnion | reflexivity]. }
  set (p5 := if pass then executeDistinct isGroupedOutput this p4 false
                            (selected_columns expressions) else p4).
  assert (T5 : totals_in p5 = totals_in p4).
  { subst p5. destruct pass; [apply totals_in_executeDistinct | reflexivity]. }
  rewrite <- T1, <- T2, <- T3, <- T4, <- T5.
  destruct (has_limit_by expressions); [| reflexivity].
  rewrite totals_in_executeLimitBy. unfold executeExpression.
  now apply totals_in_transform.
Qed.

(** The steps of a query without WITH TOTALS add no operator that
    computes totals. *)
Lemma totals_in_executeStages (this : InterpreterSelectQuery)
    (from : QueryProcessingStage.Enum) (p p' : Pipeline) :
  group_by_with_totals (query this) = false ->
  executeStages getHeader isGroupedOutput isProfiling this from p = Ok p' ->
  totals_in p' = totals_in p.
Proof.
  intros T H; unfold executeStages in H.
  apply bind_Ok in H as [p1 [H1 H]].
  assert (T1 : totals_in p1 = totals_in p).
  { destruct (QueryProcessingStage.gtb (to_stage this) QueryProcessingStage.FetchColumns);
      [| now injection H1 as <-].
    apply bind_Ok in H1 as [pa [Ha H1]].
    assert (Ta : totals_in pa = totals_in p).
    { destruct (first_stage (analyzeExpressions this from)); [| now injection Ha as <-].
      now apply totals_in_executeFirstStage in Ha. }
    rewrite <- Ta.
    destruct (second_stage (analyzeExpressions this from)) eqn:S;
      [| now injection H1 as <-].
    apply totals_in_executeSecondStage in H1; [exact H1 | exact T |].
    intros A. rewrite A, T.
    unfold analyzeExpressions in S; cbn [second_stage] in S.
    apply andb_true_iff in S as [_ ->]. reflexivity. }
  rewrite <- T1.
  destruct (negb (size (subqueries_for_sets (analyzeExpressions this from)) =? 0));
    [| now injection H as <-].
  now apply totals_in_executeSubqueriesInSetsAndJoins in H.
Qed.

End TotalsProperties.

(** ** Fetch *)

Section FetchProperties.

Variable isProfiling : BlockInputStream -> bool.
Variable newInterpreterSelectWithUnionQuery :
  list ASTSelectQuery -> Context -> Names -> QueryProcessingStage.Enum -> N ->
  Result InterpreterSelectWithUnionQuery.
Variable union_executeWithMultipleStreams :
  InterpreterSelectWithUnionQuery -> Result BlockInputStreams.
Variable union_getSampleBlock : InterpreterSelectWithUnionQuery -> Result Block.
Variable regionsOfRequest : string -> list N.
Variable getHeader : BlockInputStream -> Block.
Variable isGroupedOutput : BlockInputStream -> bool.

Local Abbreviation fetch :=
  (executeFetchColumns isProfiling newInterpreterSelectWithUnionQuery
     union_executeWithMultipleStreams union_getSampleBlock regionsOfRequest).

Lemma too_many_columns_iff (this : InterpreterSelectQuery) (dry_run : bool)
    (required_columns : Names) :
  too_many_columns this dry_run required_columns = true <->
  dry_run = false
  /\ max_columns_to_read (settings (context this)) <> 0
  /\ max_columns_to_read (settings (context this)) < size required_columns.
Proof.
  unfold too_many_columns.
  rewrite !andb_true_iff, !negb_true_iff, N.eqb_neq, N.ltb_lt. tauto.
Qed.

(** Reading from a table throws no TOO_MANY_COLUMNS. *)
Lemma fetch_from_storage_thrown (this : InterpreterSelectQuery) (p : Pipeline)
    (dry_run : bool) (table_storage : IStorage) (required_columns : Names)
    (block_size stream_count : N) :
  thrown (fetch_from_storage isProfiling regionsOfRequest this p dry_run table_storage
            required_columns block_size stream_count) <> Some TOO_MANY_COLUMNS.
Proof.
  unfold fetch_from_storage.
  destruct (stream_count =? 0); [discriminate |].
  destruct (String.eqb (regions (settings (context this))) EmptyString);
    [| destruct (manageable table_storage);
       [destruct (size (regionsOfRequest _) =? 0) |]];
    cbn [bind]; try discriminate;
    (destruct (present (partition_expression_list (query this))); [discriminate |]);
    match goal with
    | |- context [let '(_, _) := ?r in _] => destruct r
    end; discriminate.
Qed.

(** Without a FROM subquery there is no subquery interpreter, and
    nothing to construct. *)
Lemma subquery_interpreter_without_subquery (this : InterpreterSelectQuery)
    (required_columns : Names) :
  is_subquery (table (query this)) = false ->
  subquery_interpreter newInterpreterSelectWithUnionQuery this required_columns = Ok None.
Proof.
  unfold subquery_interpreter, is_subquery.
  destruct (table (query this)) as [[name | name | selects] |];
    [reflexivity | reflexivity | discriminate | reflexivity].
Qed.

Lemma subquery_interpreter_of_subquery (this : InterpreterSelectQuery)
    (required_columns : Names) (interpreter : InterpreterSelectWithUnionQuery) :
  subquery_interpreter newInterpreterSelectWithUnionQuery this required_columns
  = Ok (Some interpreter) ->
  is_subquery (table (query this)) = true.
Proof.
  unfold subquery_interpreter, is_subquery.
  destruct (table (query this)) as [[name | name | selects] |];
    [discriminate | discriminate | reflexivity | discriminate].
Qed.

(** Where a TOO_MANY_COLUMNS that leaves [executeFetchColumns] comes
    from: the construction of the subquery interpreter, the check of the
    columns of the query, or the streams of the subquery. *)
Lemma executeFetchColumns_thrown_too_many (this : InterpreterSelectQuery)
    (p : Pipeline) (dry_run : bool) :
  let required_columns := fst (required_source_columns this) in
  let construction :=
    subquery_interpreter newInterpreterSelectWithUnionQuery this required_columns in
  thrown (fetch this p dry_run) = Some TOO_MANY_COLUMNS <->
  thrown construction = Some TOO_MANY_COLUMNS
  \/ (thrown construction = None
      /\ too_many_columns this dry_run required_columns = true)
  \/ (exists interpreter,
        construction = Ok (Some interpreter)
        /\ too_many_columns this dry_run required_columns = false
        /\ size (streams p) = 0
        /\ thrown (subquery_streams union_executeWithMultipleStreams
                     union_getSampleBlock interpreter dry_run)
           = Some TOO_MANY_COLUMNS).
Proof.
  unfold executeFetchColumns.
  destruct (required_source_columns this) as [required_columns alias_actions].
  cbn [fst].
  destruct (subquery_interpreter newInterpreterSelectWithUnionQuery this
              required_columns) as [made | code message]; cbn [bind thrown].
  { destruct (too_many_columns this dry_run required_columns).
    { split; [intros _; right; left; now split | reflexivity]. }
    destruct (fetch_hints this) as [block_size stream_count].
    destruct (negb (size (streams p) =? 0)) eqn:P.
    { cbn. split; [discriminate |].
      intros [H | [[_ H] | (interpreter & _ & _ & H & _)]]; try discriminate H.
      rewrite H in P. discriminate P. }
    apply negb_false_iff, N.eqb_eq in P.
    destruct made as [interpreter |].
    - destruct (subquery_streams union_executeWithMultipleStreams union_getSampleBlock
                  interpreter dry_run) as [read_streams | code message] eqn:R; cbn.
      + split; [discriminate |].
        intros [H | [[_ H] | (other & [= <-] & _ & _ & H)]]; try discriminate H.
        rewrite R in H. discriminate H.
      + split.
        * intros H. right. right. exists interpreter. rewrite R. auto.
        * intros [H | [[_ H] | (other & [= <-] & _ & _ & H)]]; try discriminate H.
          rewrite R in H. exact H.
    - split.
      + intros H. exfalso. revert H.
        destruct (storage this) as [table_storage |]; [| discriminate].
        pose proof (fetch_from_storage_thrown this p dry_run table_storage
                      required_columns block_size stream_count) as F.
        destruct (fetch_from_storage _ _ this p dry_run table_storage required_columns
                    block_size stream_count) as [[[stage pl] ms] | code message];
          [discriminate | exact F].
      + intros [H | [[_ H] | (other & H & _)]]; discriminate H. }
  split; [intros H; now left |].
  intros [H | [[H _] | (interpreter & H & _)]]; [exact H | discriminate H ..].
Qed.

(** C9, as the code has it.  The check of [executeFetchColumns] on the
    columns of its query throws TOO_MANY_COLUMNS, with the count and the
    cap in the message, exactly when it does not run dry, the cap
    [max_columns_to_read] is non-zero and the number of columns to read
    exceeds the cap; in a dry run the check throws nothing, whatever the
    number of columns.  Without a FROM subquery this is the only
    TOO_MANY_COLUMNS that leaves the call.  With a FROM subquery a
    TOO_MANY_COLUMNS of the subquery interpreter leaves it too: from its
    construction (which comes before the check), or, the check passed
    and the pipeline empty, from its streams (its header in a dry
    run). *)
Theorem executeFetchColumns_too_many_columns (this : InterpreterSelectQuery)
    (p : Pipeline) (dry_run : bool) :
  let required_columns := fst (required_source_columns this) in
  let cap := max_columns_to_read (settings (context this)) in
  let exceeded := dry_run = false /\ cap <> 0 /\ cap < size required_columns in
  let construction :=
    subquery_interpreter newInterpreterSelectWithUnionQuery this required_columns in
  (is_subquery (table (query this)) = false ->
   (thrown (fetch this p dry_run) = Some TOO_MANY_COLUMNS <-> exceeded)
   /\ thrown (fetch this p true) <> Some TOO_MANY_COLUMNS)
  /\ (thrown (fetch this p dry_run) = Some TOO_MANY_COLUMNS <->
      thrown construction = Some TOO_MANY_COLUMNS
      \/ (thrown construction = None /\ exceeded)
      \/ (exists interpreter,
            construction = Ok (Some interpreter)
            /\ ~ exceeded
            /\ size (streams p) = 0
            /\ thrown (subquery_streams union_executeWithMultipleStreams
                         union_getSampleBlock interpreter dry_run)
               = Some TOO_MANY_COLUMNS))
  /\ (thrown construction = None -> exceeded ->
      fetch this p dry_run
      = Throw TOO_MANY_COLUMNS
          ("Limit for number of columns to read exceeded. Requested: "
           ++ toString (size required_columns) ++ ", maximum: " ++ toString cap))
  /\ (thrown (fetch this p true) = Some TOO_MANY_COLUMNS ->
      thrown construction = Some TOO_MANY_COLUMNS
      \/ exists interpreter,
           construction = Ok (Some interpreter)
           /\ size (streams p) = 0
           /\ thrown (union_getSampleBlock interpreter) = Some TOO_MANY_COLUMNS).
Proof.
  intros required_columns cap exceeded construction.
  assert (general : forall dry,
            thrown (fetch this p dry) = Some TOO_MANY_COLUMNS <->
            thrown construction = Some TOO_MANY_COLUMNS
            \/ (thrown construction = None
                /\ too_many_columns this dry required_columns = true)
            \/ (exists interpreter,
                  construction = Ok (Some interpreter)
                  /\ too_many_columns this dry required_columns = false
                  /\ size (streams p) = 0
                  /\ thrown (subquery_streams union_executeWithMultipleStreams
                               union_getSampleBlock interpreter dry)
                     = Some TOO_MANY_COLUMNS))
    by (intros dry; apply executeFetchColumns_thrown_too_many).
  assert (check : too_many_columns this dry_run required_columns = true <-> exceeded)
    by apply too_many_columns_iff.
  assert (passed : too_many_columns this dry_run required_columns = false <-> ~ exceeded).
  { rewrite <- check. destruct (too_many_columns this dry_run required_columns);
      split; congruence. }
  split; [| split; [| split]].
  - intros S.
    pose proof (subquery_interpreter_without_subquery this required_columns S) as C.
    fold construction in C.
    split.
    + rewrite general, C, check. cbn [thrown]. split.
      * intros [H | [[_ H] | (interpreter & H & _)]]; [discriminate H | exact H |].
        discriminate H.
      * intros H. right. left. now split.
    + rewrite general, C. cbn [thrown].
      intros [H | [[_ H] | (interpreter & H & _)]]; discriminate H.
  - rewrite general, check. split.
    + intros [H | [H | (interpreter & H1 & H2 & H3)]]; [now left | now right; left |].
      right. right. exists interpreter. rewrite <- passed. auto.
    + intros [H | [H | (interpreter & H1 & H2 & H3)]]; [now left | now right; left |].
      right. right. exists interpreter. rewrite passed. auto.
  - intros C E. apply check in E. unfold executeFetchColumns.
    subst construction required_columns cap.
    destruct (required_source_columns this) as [required_columns alias_actions].
    cbn [fst] in *.
    destruct (subquery_interpreter newInterpreterSelectWithUnionQuery this
                required_columns) as [made | code message]; [| discriminate C].
    cbn [bind]. now rewrite E.
  - rewrite general. cbn [too_many_columns negb andb].
    intros [H | [[_ H] | (interpreter & H1 & _ & H3 & H4)]];
      [now left | discriminate H |].
    right. exists interpreter. split; [exact H1 |]. split; [exact H3 |].
    unfold subquery_streams in H4. cbn [negb] in H4.
    destruct (union_getSampleBlock interpreter); [discriminate H4 | exact H4].
Qed.

(** The member [max_streams] after the fetch, when nothing is read from
    a table. *)
Lemma fetch_hints_plain (this : InterpreterSelectQuery) :
  plain_limit_below_block_size this = true ->
  fetch_hints this
  = (size_add (fst (getLimitLengthAndOffset (query this)))
       (snd (getLimitLengthAndOffset (query this))), 1).
Proof.
  unfold fetch_hints; intros ->.
  now destruct (getLimitLengthAndOffset (query this)).
Qed.

Lemma fetch_hints_configured (this : InterpreterSelectQuery) :
  plain_limit_below_block_size this = false ->
  fetch_hints this
  = (max_block_size (settings (context this)), streams_for_storage this).
Proof.
  unfold fetch_hints; intros ->.
  now destruct (getLimitLengthAndOffset (query this)).
Qed.

(** With a stream count of 1, reading from a table keeps it at 1. *)
Lemma fetch_from_storage_single_stream (this : InterpreterSelectQuery) (p : Pipeline)
    (dry_run : bool) (table_storage : IStorage) (required_columns : Names)
    (block_size : N) (stage : QueryProcessingStage.Enum) (pl : Pipeline) (count : N) :
  fetch_from_storage isProfiling regionsOfRequest this p dry_run table_storage
    required_columns block_size 1 = Ok (stage, pl, count) ->
  count = 1
  /\ (dry_run = false ->
      stage = fst (read table_storage required_columns block_size 1)).
Proof.
  unfold fetch_from_storage. cbn [N.eqb N.ltb N.compare Pos.compare Pos.compare_cont andb].
  intros H. apply bind_Ok in H as [[] [_ H]].
  destruct (present (partition_expression_list (query this))); [discriminate |].
  destruct dry_run; cbn [negb] in H.
  - injection H as _ _ <-. split; [reflexivity | discriminate].
  - destruct (read table_storage required_columns block_size 1) as [st rs].
    injection H as <- _ <-. split; reflexivity.
Qed.

(** C8. For a query without DISTINCT, PREWHERE, WHERE, GROUP BY, HAVING,
    ORDER BY, LIMIT BY and aggregation, with a LIMIT such that
    [limit_length + limit_offset] is below the configured
    [max_block_size], the batch-size hint becomes [limit_length +
    limit_offset] and the stream count becomes 1: these are the hints
    after the optimization, the member [max_streams] after the call, and
    what a table is read with.  When one of the clauses is present both
    hints keep their configured values. *)
Theorem executeFetchColumns_plain_limit (this : InterpreterSelectQuery) :
  let q := query this in
  let rows := size_add (fst (getLimitLengthAndOffset q))
                (snd (getLimitLengthAndOffset q)) in
  (distinct q = false -> prewhere_expression q = None -> where_expression q = None ->
   group_expression_list q = None -> having_expression q = None ->
   order_expression_list q = None -> limit_by_expression_list q = None ->
   hasAggregation (query_analyzer this) = false ->
   limit_length q <> None ->
   rows < max_block_size (settings (context this)) ->
   fetch_hints this = (rows, 1)
   /\ forall p dry_run fetched,
       fetch this p dry_run = Ok fetched ->
       max_streams (fetched_this fetched) = 1
       /\ (forall table_storage,
             size (streams p) = 0 -> is_subquery (table q) = false ->
             storage this = Some table_storage -> dry_run = false ->
             from_stage fetched
             = fst (read table_storage (fst (required_source_columns this)) rows 1)))
  /\ (distinct q = true \/ prewhere_expression q <> None \/ where_expression q <> None
      \/ group_expression_list q <> None \/ having_expression q <> None
      \/ order_expression_list q <> None \/ limit_by_expression_list q <> None
      \/ hasAggregation (query_analyzer this) = true ->
      fetch_hints this
      = (max_block_size (settings (context this)), streams_for_storage this)).
Proof.
  intros q rows. split.
  - intros Hd Hp Hw Hg Hh Ho Hl Ha Hn Hr.
    assert (C : plain_limit_below_block_size this = true).
    { unfold plain_limit_below_block_size; fold q.
      destruct (getLimitLengthAndOffset q) as [len off] eqn:E.
      rewrite Hd, Hp, Hw, Hg, Hh, Ho, Hl, Ha.
      destruct (limit_length q); [| congruence].
      subst rows; cbn [fst snd] in Hr. cbn. now apply N.ltb_lt. }
    split; [exact (fetch_hints_plain this C) |].
    intros p dry_run fetched H.
    unfold executeFetchColumns in H.
    rewrite (fetch_hints_plain this C) in H. fold q in H. fold rows in H.
    destruct (required_source_columns this) as [required_columns alias_actions].
    apply bind_Ok in H as [made [Hu H]].
    destruct (too_many_columns this dry_run required_columns); [discriminate |].
    apply bind_Ok in H as [[[stage pl] count] [H E]].
    injection E as <-. cbn [fetched_this with_max_streams max_streams from_stage fst].
    destruct (negb (size (streams p) =? 0)) eqn:Hp0.
    { injection H as <- <- <-. split; [reflexivity |].
      intros ts Hs. rewrite Hs in Hp0; discriminate Hp0. }
    destruct made as [u |].
    { apply bind_Ok in H as [read_streams [_ H]].
      injection H as <- <- <-. split; [reflexivity |].
      intros ts _ Ht. exfalso.
      apply subquery_interpreter_of_subquery in Hu. fold q in Hu. congruence. }
    destruct (storage this) as [table_storage |]; [| discriminate].
    apply fetch_from_storage_single_stream in H as [-> Hst].
    split; [reflexivity |].
    intros ts _ _ Hts ->. injection Hts as <-. now apply Hst.
  - intros H. apply fetch_hints_configured.
    unfold plain_limit_below_block_size; fold q.
    destruct (getLimitLengthAndOffset q) as [len off].
    destruct H as [-> | [H | [H | [H | [H | [H | [H | ->]]]]]]];
      rewrite ?andb_false_r; try reflexivity.
    + destruct (prewhere_expression q); [| congruence].
      cbn; now rewrite ?andb_false_r.
    + destruct (where_expression q); [| congruence].
      cbn; now rewrite ?andb_false_r.
    + destruct (group_expression_list q); [| congruence].
      cbn; now rewrite ?andb_false_r.
    + destruct (having_expression q); [| congruence].
      cbn; now rewrite ?andb_false_r.
    + destruct (order_expression_list q); [| congruence].
      cbn; now rewrite ?andb_false_r.
    + destruct (limit_by_expression_list q); [| congruence].
      cbn; now rewrite ?andb_false_r.
Qed.

(** *** The subquery in FROM *)

(** C10. When the FROM clause is a subquery and the outer query has
    aggregation, the group_by_with_totals flag of every SELECT of the
    subquery interpreter is cleared (nothing else of it changes) before
    the inner pipeline is built: the operators of the fetch are those of
    the interpreter with the cleared flags, and the steps of such a
    SELECT add no operator that computes totals.  Without aggregation in
    the outer query the interpreter is run as it was made.  (When the
    interpreter cannot be made, the fetch throws what its constructor
    throws.) *)
Theorem executeFetchColumns_ignores_totals (this : InterpreterSelectQuery)
    (list_of_selects : list ASTSelectQuery) :
  table (query this) = Some (ASTSelectWithUnionQuery list_of_selects) ->
  let required_columns := fst (required_source_columns this) in
  let alias_actions := snd (required_source_columns this) in
  let construction :=
    newInterpreterSelectWithUnionQuery list_of_selects
      {| settings := subquery_settings (settings (context this));
         temporary_path := temporary_path (context this) |}
      required_columns QueryProcessingStage.Complete
      (size_add (subquery_depth this) 1) in
  (forall code message,
     construction = Throw code message ->
     forall p dry_run, fetch this p dry_run = Throw code message)
  /\ forall made,
      construction = Ok made ->
      exists run,
        subquery_interpreter newInterpreterSelectWithUnionQuery this required_columns
        = Ok (Some run)
        /\ (hasAggregation (query_analyzer this) = true ->
            nested_interpreters run
            = map (fun nested =>
                     with_query nested (set_group_by_with_totals (query nested) false))
                  (nested_interpreters made)
            /\ Forall (fun nested => group_by_with_totals (query nested) = false)
                 (nested_interpreters run)
            /\ forall nested from p p',
                 In nested (nested_interpreters run) ->
                 executeStages getHeader isGroupedOutput isProfiling nested from p
                 = Ok p' ->
                 totals_in p' = totals_in p)
        /\ (hasAggregation (query_analyzer this) = false -> run = made)
        /\ (forall p dry_run fetched,
              size (streams p) = 0 ->
              fetch this p dry_run = Ok fetched ->
              exists inner,
                (if dry_run
                 then exists sample_block,
                        union_getSampleBlock run = Ok sample_block
                        /\ inner = [NullBlockInputStream sample_block]
                 else union_executeWithMultipleStreams run = Ok inner)
                /\ from_stage fetched = QueryProcessingStage.FetchColumns
                /\ streams (fetched_pipeline fetched)
                   = if present alias_actions
                     then map (fun stream =>
                                 ExpressionBlockInputStream stream alias_actions) inner
                     else inner).
Proof.
  intros Ht required_columns alias_actions construction.
  assert (S : subquery_interpreter newInterpreterSelectWithUnionQuery this
                required_columns
              = (made <- construction ;;
                 if hasAggregation (query_analyzer this)
                 then Ok (Some (union_ignoreWithTotals made))
                 else Ok (Some made))).
  { unfold subquery_interpreter. rewrite Ht. reflexivity. }
  split.
  - intros code message C p dry_run. unfold executeFetchColumns.
    subst required_columns.
    destruct (required_source_columns this) as [required_columns alias].
    cbn [fst] in *. rewrite S, C. reflexivity.
  - intros made C. rewrite C in S. cbn [bind] in S.
    exists (if hasAggregation (query_analyzer this)
            then union_ignoreWithTotals made else made).
    split; [rewrite S; now destruct (hasAggregation (query_analyzer this)) |].
    split; [| split].
    + intros ->. cbn [union_ignoreWithTotals nested_interpreters].
      assert (cleared : forall nested,
                In nested (map ignoreWithTotals (nested_interpreters made)) ->
                group_by_with_totals (query nested) = false).
      { intros nested Hin. apply in_map_iff in Hin as [original [<- _]]. reflexivity. }
      split; [reflexivity |].
      split; [now apply Forall_forall |].
      intros nested from p p' Hin H.
      exact (totals_in_executeStages getHeader isGroupedOutput isProfiling nested from
               p p' (cleared nested Hin) H).
    + now intros ->.
    + intros p dry_run fetched Hp H.
      unfold executeFetchColumns in H.
      subst required_columns alias_actions.
      destruct (required_source_columns this) as [required_columns alias_actions].
      cbn [fst snd] in *.
      set (run := if hasAggregation (query_analyzer this)
                  then union_ignoreWithTotals made else made) in *.
      assert (E : subquery_interpreter newInterpreterSelectWithUnionQuery this
                    required_columns = Ok (Some run))
        by (rewrite S; subst run; now destruct (hasAggregation (query_analyzer this))).
      rewrite E in H. cbn [bind] in H.
      destruct (too_many_columns this dry_run required_columns); [discriminate |].
      destruct (fetch_hints this) as [block_size stream_count].
      rewrite Hp in H. cbn [N.eqb negb] in H.
      apply bind_Ok in H as [[[stage pl] count] [H F]].
      apply bind_Ok in H as [inner [R H]].
      injection H as <- <- <-. injection F as <-.
      cbn [from_stage fetched_pipeline].
      exists inner. split.
      * unfold subquery_streams in R. destruct dry_run; cbn [negb] in R; [| exact R].
        apply bind_Ok in R as [sample_block [R1 R2]]. injection R2 as <-.
        now exists sample_block.
      * split; [reflexivity |].
        cbn [QueryProcessingStage.eqb QueryProcessingStage.rank N.eqb andb].
        now destruct (present alias_actions).
Qed.

(** *** Remote to remote *)

Local Abbreviation build :=
  (executeImpl getHeader isGroupedOutput isProfiling newInterpreterSelectWithUnionQuery
     union_executeWithMultipleStreams union_getSampleBlock regionsOfRequest).

(** Reading from a table leaves at least one operator in the pipeline;
    a dry run reports the stage FetchColumns. *)
Lemma fetch_from_storage_streams (this : InterpreterSelectQuery) (p : Pipeline)
    (dry_run : bool) (table_storage : IStorage) (required_columns : Names)
    (block_size stream_count : N) (stage : QueryProcessingStage.Enum) (pl : Pipeline)
    (count : N) :
  fetch_from_storage isProfiling regionsOfRequest this p dry_run table_storage
    required_columns block_size stream_count = Ok (stage, pl, count) ->
  streams pl <> []
  /\ (dry_run = true -> stage = QueryProcessingStage.FetchColumns).
Proof.
  unfold fetch_from_storage.
  destruct (stream_count =? 0); [discriminate |].
  intros H. apply bind_Ok in H as [[] [_ H]].
  destruct (present (partition_expression_list (query this))); [discriminate |].
  match type of H with
  | (let '(_, _) := ?r in _) = _ => destruct r as [st rs] eqn:R
  end.
  injection H as <- <- _.
  unfold transform; cbn [streams streams_with_non_joined_data].
  split.
  - destruct (size rs =? 0) eqn:Z; [discriminate |].
    destruct rs; [discriminate Z | discriminate].
  - intros ->. cbn [negb] in R. now injection R as <- _.
Qed.

(** A stage other than FetchColumns is the answer of a table that was
    read, and the pipeline holds its operators by then. *)
Lemma executeFetchColumns_stage (this : InterpreterSelectQuery) (p : Pipeline)
    (dry_run : bool) (fetched : Fetched) :
  fetch this p dry_run = Ok fetched ->
  from_stage fetched <> QueryProcessingStage.FetchColumns ->
  dry_run = false
  /\ storage this <> None
  /\ streams (fetched_pipeline fetched) <> [].
Proof.
  unfold executeFetchColumns.
  destruct (required_source_columns this) as [required_columns alias_actions].
  intros H. apply bind_Ok in H as [made [_ H]]. revert H.
  destruct (too_many_columns this dry_run required_columns); [discriminate |].
  destruct (fetch_hints this) as [block_size stream_count].
  intros H. apply bind_Ok in H as [[[stage pl] count] [H E]].
  injection E as <-. cbn [from_stage fetched_pipeline]. intros Hs.
  destruct (negb (size (streams p) =? 0)); [injection H as <- _ _; congruence |].
  destruct made as [interpreter |];
    [apply bind_Ok in H as [read_streams [_ H]]; injection H as <- _ _; congruence |].
  destruct (storage this) as [table_storage |]; [| discriminate].
  apply fetch_from_storage_streams in H as [Hn Hd].
  split; [destruct dry_run; [now specialize (Hd eq_refl) | reflexivity] |].
  split; [discriminate |].
  destruct (QueryProcessingStage.eqb stage QueryProcessingStage.FetchColumns) eqn:S;
    [apply stage_eqb_eq in S; congruence | exact Hn].
Qed.

(** C2, as the code has it.  When the fetch reports the stage
    WithMergeableState and the target stage is WithMergeableState, the
    builder throws NOT_IMPLEMENTED, none of the steps of the stages
    having run; the fetch has run by then: a table was read (not a dry
    run) and its operators are in the pipeline. *)
Theorem executeImpl_distributed_on_distributed (this : InterpreterSelectQuery)
    (p : Pipeline) (input_ : option BlockInputStream) (dry_run : bool)
    (fetched : Fetched) :
  fetch this (push_back_input p input_) dry_run = Ok fetched ->
  from_stage fetched = QueryProcessingStage.WithMergeableState ->
  to_stage this = QueryProcessingStage.WithMergeableState ->
  build this p input_ dry_run
  = Throw NOT_IMPLEMENTED "Distributed on Distributed is not supported"
  /\ dry_run = false
  /\ storage this <> None
  /\ streams (fetched_pipeline fetched) <> [].
Proof.
  intros H Hf Ht.
  split.
  - unfold executeImpl. rewrite H. cbn [bind].
    assert (E : to_stage (fetched_this fetched) = to_stage this).
    { unfold executeFetchColumns in H.
      destruct (required_source_columns this) as [required_columns alias_actions].
      apply bind_Ok in H as [made [_ H]].
      destruct (too_many_columns this dry_run required_columns); [discriminate |].
      destruct (fetch_hints this) as [block_size stream_count].
      apply bind_Ok in H as [[[stage pl] count] [_ H]].
      now injection H as <-. }
    rewrite E, Hf, Ht. reflexivity.
  - apply (executeFetchColumns_stage this _ dry_run fetched H).
    rewrite Hf; discriminate.
Qed.

End FetchProperties.

(** ** The properties on concrete queries *)

Lemma executeFetchColumns_too_many_columns_witness :
  let q := Examples.select_query false false None None None None Examples.from_t in
  let this := Examples.interpreter q (Examples.make_settings 100000 100000000 0 2 65536)
                QueryProcessingStage.Complete
                (Some (Examples.table_t false QueryProcessingStage.FetchColumns 1))
                (Examples.analyzer false ["x"; "y"; "z"]) in
  Examples.fetch this empty_pipeline false
  = Throw TOO_MANY_COLUMNS
      "Limit for number of columns to read exceeded. Requested: 3, maximum: 2"
  /\ thrown (Examples.fetch this empty_pipeline true) <> Some TOO_MANY_COLUMNS.
Proof.
  intros q this.
  pose proof (executeFetchColumns_too_many_columns Examples.profiling Examples.new_union
                Examples.run_union Examples.sample_union Examples.no_regions
                this empty_pipeline false) as H.
  cbv zeta in H. destruct H as (H & _ & M & _).
  split; [| exact (proj2 (H eq_refl))].
  apply M; [reflexivity |].
  split; [reflexivity |]. split; [discriminate | reflexivity].
Defined.

(** C9, as the claim words it, fails.  SELECT a FROM (SELECT a FROM t
    WHERE b AND c) with a cap of 2 columns: the outer query reads one
    column, which does not exceed the cap, and its fetch throws
    TOO_MANY_COLUMNS all the same: running the subquery fetches the
    three columns of the nested SELECT under the same cap. *)
Lemma executeFetchColumns_too_many_columns_of_subquery :
  let q := Examples.select_query false false None None None None
             (Some (ASTSelectWithUnionQuery [Examples.select_a_where_b_and_c])) in
  let this := Examples.interpreter q (Examples.make_settings 100000 100000000 0 2 65536)
                QueryProcessingStage.Complete None (Examples.analyzer false ["a"]) in
  let cap := max_columns_to_read (settings (context this)) in
  thrown (executeFetchColumns Examples.profiling Examples.new_union_over_t
            Examples.run_nested Examples.sample_union Examples.no_regions this
            empty_pipeline false) = Some TOO_MANY_COLUMNS
  /\ cap = 2
  /\ size (fst (required_source_columns this)) = 1
  /\ ~ (false = false /\ cap <> 0 /\ cap < size (fst (required_source_columns this))).
Proof.
  cbv zeta. split; [reflexivity |]. split; [reflexivity |]. split; [reflexivity |].
  intros (_ & _ & H). vm_compute in H. discriminate H.
Qed.

Lemma executeFetchColumns_plain_limit_witness :
  let plain := Examples.select_query false false None None (Some 5) (Some 10)
                 Examples.from_t in
  let ordered := Examples.select_query false false Examples.order_by_x None (Some 5)
                   (Some 10) Examples.from_t in
  let builder q := Examples.interpreter q Examples.default_settings
                     QueryProcessingStage.Complete
                     (Some (Examples.table_t false QueryProcessingStage.FetchColumns 3))
                     (Examples.analyzer false ["x"]) in
  fetch_hints (builder plain) = (15, 1)
  /\ fetch_hints (builder ordered) = (65536, 8)
  /\ exists fetched,
       Examples.fetch (builder plain) empty_pipeline false = Ok fetched
       /\ max_streams (fetched_this fetched) = 1.
Proof.
  intros plain ordered builder.
  pose proof (executeFetchColumns_plain_limit Examples.profiling Examples.new_union
                Examples.run_union Examples.sample_union Examples.no_regions
                (builder plain)) as Hp.
  pose proof (executeFetchColumns_plain_limit Examples.profiling Examples.new_union
                Examples.run_union Examples.sample_union Examples.no_regions
                (builder ordered)) as Ho.
  cbv zeta in Hp, Ho.
  destruct Hp as [Hp _]. destruct Ho as [_ Ho].
  destruct Hp as [Hh Hf]; try reflexivity; [discriminate |].
  split; [exact Hh |].
  split; [apply Ho; do 5 right; left; discriminate |].
  eexists; split; [reflexivity |].
  exact (proj1 (Hf empty_pipeline false _ eq_refl)).
Defined.

Lemma executeFetchColumns_ignores_totals_witness :
  let inner := Examples.select_query false true None None None None Examples.from_t in
  let q := Examples.select_query false false None None None None
             (Some (ASTSelectWithUnionQuery [inner])) in
  let this := Examples.interpreter q Examples.default_settings
                QueryProcessingStage.Complete None (Examples.analyzer true ["x"]) in
  exists run,
    subquery_interpreter Examples.new_union this ["x"] = Ok (Some run)
    /\ Forall (fun nested => group_by_with_totals (query nested) = false)
         (nested_interpreters run)
    /\ exists fetched,
         Examples.fetch this empty_pipeline false = Ok fetched
         /\ Ok (streams (fetched_pipeline fetched)) = Examples.run_union run.
Proof.
  intros inner q this.
  pose proof (executeFetchColumns_ignores_totals Examples.profiling Examples.new_union
                Examples.run_union Examples.sample_union Examples.no_regions
                Examples.header_x Examples.not_grouped
                this [inner] eq_refl) as T.
  cbv zeta in T. destruct T as [_ T].
  destruct (T _ eq_refl) as [run (Hr & Ha & _ & Hf)].
  exists run. split; [exact Hr |].
  split; [exact (proj1 (proj2 (Ha eq_refl))) |].
  eexists; split; [reflexivity |].
  destruct (Hf empty_pipeline false _ eq_refl eq_refl) as [chains (R & _ & E)].
  cbn [negb] in R. rewrite R. f_equal. exact E.
Defined.

Lemma executeImpl_distributed_on_distributed_witness :
  let q := Examples.select_query false false None None None None Examples.from_t in
  let this := Examples.interpreter q Examples.default_settings
                QueryProcessingStage.WithMergeableState
                (Some (Examples.table_t true QueryProcessingStage.WithMergeableState 2))
                (Examples.analyzer false ["x"]) in
  Examples.build this empty_pipeline None false
  = Throw NOT_IMPLEMENTED "Distributed on Distributed is not supported".
Proof.
  intros q this.
  exact (proj1 (executeImpl_distributed_on_distributed Examples.profiling
                  Examples.new_union Examples.run_union Examples.sample_union
                  Examples.no_regions Examples.header_x Examples.not_grouped
                  this empty_pipeline None false _ eq_refl eq_refl eq_refl)).
Defined.

(** C2, as the claim words it, fails: the error is not raised before any
    operator is built.  A remote table answers the read with the stage
    WithMergeableState and two operators (then: with no operator); when
    the builder throws, the pipeline holds the two operators of the table
    (then: the empty operator that the builder itself has made), with the
    table lock and the reading limits set on them. *)
Lemma executeImpl_distributed_on_distributed_after_fetch :
  let q := Examples.select_query false false None None None None Examples.from_t in
  let builder count :=
    Examples.interpreter q Examples.default_settings
      QueryProcessingStage.WithMergeableState
      (Some (Examples.table_t true QueryProcessingStage.WithMergeableState count))
      (Examples.analyzer false ["x"]) in
  let prepared this stream := setLimits (reading_limits this) (addTableLock stream) in
  (exists fetched,
     Examples.fetch (builder 2%nat) empty_pipeline false = Ok fetched
     /\ from_stage fetched = QueryProcessingStage.WithMergeableState
     /\ streams (fetched_pipeline fetched)
        = [prepared (builder 2%nat) (SourceStream "t" 0);
           prepared (builder 2%nat) (SourceStream "t" 1)])
  /\ thrown (Examples.build (builder 2%nat) empty_pipeline None false)
     = Some NOT_IMPLEMENTED
  /\ (exists fetched,
        Examples.fetch (builder 0%nat) empty_pipeline false = Ok fetched
        /\ from_stage fetched = QueryProcessingStage.WithMergeableState
        /\ streams (fetched_pipeline fetched)
           = [prepared (builder 0%nat) (NullBlockInputStream ["x"])])
  /\ thrown (Examples.build (builder 0%nat) empty_pipeline None false)
     = Some NOT_IMPLEMENTED.
Proof.
  cbv zeta.
  split; [eexists; split; [reflexivity |]; split; reflexivity |].
  split; [reflexivity |].
  split; [eexists; split; [reflexivity |]; split; reflexivity |].
  reflexivity.
Qed.

(** * Further properties *)

(** ** The constructor *)

Section ConstructorProperties.

Variable getHeader : BlockInputStream -> Block.
Context {Catalog : Type}.
Variable tryGetTable : Catalog -> string -> string -> option IStorage.
Variable getTable : Catalog -> string -> string -> Result IStorage.
Variable executeTableFunction : Catalog -> string -> IStorage.
Variable getCurrentDatabase : Catalog -> string.
Variable getCurrentVersion : Catalog -> Z.
Variable syncSchemas : Catalog -> Catalog.
Variable table_schema_version : IStorage -> Z.
Variable DEFAULT_UNSPECIFIED_SCHEMA_VERSION : Z.
Variable supportsSampling : IStorage -> bool.
Variable supportsFinal : IStorage -> bool.
Variable supportsPrewhere : IStorage -> bool.
Variable subquery_sample_block : list ASTSelectQuery -> Context -> Result Block.
Variable newExpressionAnalyzer :
  ASTSelectQuery -> Context -> option IStorage -> Block -> Names -> N -> bool ->
  ExpressionAnalyzer.

Local Abbreviation lock_with_version :=
  (getAndLockStorageWithSchemaVersion tryGetTable getTable getCurrentVersion syncSchemas
     table_schema_version DEFAULT_UNSPECIFIED_SCHEMA_VERSION).
Local Abbreviation try_lock :=
  (get_and_lock_storage tryGetTable getTable table_schema_version
     DEFAULT_UNSPECIFIED_SCHEMA_VERSION).
Local Abbreviation resolve :=
  (resolve_source getHeader tryGetTable getTable executeTableFunction getCurrentDatabase
     getCurrentVersion syncSchemas table_schema_version
     DEFAULT_UNSPECIFIED_SCHEMA_VERSION subquery_sample_block).
Local Abbreviation asks_for_sync :=
  (asks_for_sync tryGetTable getCurrentVersion table_schema_version).
Local Abbreviation construct :=
  (init getHeader tryGetTable getTable executeTableFunction getCurrentDatabase
     getCurrentVersion syncSchemas table_schema_version
     DEFAULT_UNSPECIFIED_SCHEMA_VERSION supportsSampling supportsFinal supportsPrewhere
     subquery_sample_block newExpressionAnalyzer).

(** The answers of one try. *)
Lemma try_lock_served (catalog : Catalog) (database_name table_name : string)
    (query_version global_version : Z) (synced : bool) (found : IStorage) (version : Z) :
  try_lock catalog database_name table_name query_version global_version synced
  = Ok (Some found, version, true) <->
  (if synced then getTable catalog database_name table_name = Ok found
   else tryGetTable catalog database_name table_name = Some found)
  /\ is_TMT_or_DT found = true
  /\ version = table_schema_version found
  /\ (version <= query_version)%Z
  /\ (synced = true \/ version = query_version \/ (query_version <= global_version)%Z).
Proof.
  unfold get_and_lock_storage.
  destruct synced.
  - destruct (getTable catalog database_name table_name) as [table | code message];
      cbn [bind].
    2: { split; [discriminate | intros (H & _); discriminate H]. }
    destruct (is_TMT_or_DT table) eqn:E; cbn [negb].
    2: { split; [discriminate | intros ([= ->] & H & _); congruence]. }
    destruct (Z.gtb_spec (table_schema_version table) query_version) as [V | V].
    + split; [discriminate | intros ([= ->] & _ & -> & Hle & _); lia].
    + split.
      * intros [= -> <-]. split; [reflexivity |]. split; [exact E |].
        split; [reflexivity |]. split; [lia | now left].
      * now intros ([= ->] & _ & -> & _).
  - cbn [bind].
    destruct (tryGetTable catalog database_name table_name) as [table |].
    2: { split; [discriminate | intros (H & _); discriminate H]. }
    destruct (is_TMT_or_DT table) eqn:E; cbn [negb].
    2: { split; [discriminate | intros ([= ->] & H & _); congruence]. }
    destruct (Z.gtb_spec (table_schema_version table) query_version) as [V | V].
    + split; [discriminate | intros ([= ->] & _ & -> & Hle & _); lia].
    + destruct (Z.eqb_spec (table_schema_version table) query_version) as [Q | Q];
        cbn [orb].
      * split.
        -- intros [= -> <-]. split; [reflexivity |]. split; [exact E |].
           split; [reflexivity |]. split; [lia | right; now left].
        -- now intros ([= ->] & _ & -> & _).
      * rewrite Z.geb_leb.
        destruct (Z.leb_spec query_version global_version) as [G | G].
        -- split.
           ++ intros [= -> <-]. split; [reflexivity |]. split; [exact E |].
              split; [reflexivity |]. split; [lia | right; now right].
           ++ now intros ([= ->] & _ & -> & _).
        -- split; [discriminate |].
           intros ([= ->] & _ & -> & _ & [H | [H | H]]);
             [discriminate | congruence | lia].
Qed.

(** A try after the synchronisation serves a table or throws. *)
Lemma try_lock_synced (catalog : Catalog) (database_name table_name : string)
    (query_version global_version : Z) (answer : option IStorage * Z * bool) :
  try_lock catalog database_name table_name query_version global_version true
  = Ok answer ->
  exists found, answer = (Some found, table_schema_version found, true).
Proof.
  unfold get_and_lock_storage; intros H.
  apply bind_Ok in H as [storage_tmp [H1 H]].
  apply bind_Ok in H1 as [found [_ [= <-]]].
  destruct (negb (is_TMT_or_DT found)); [discriminate |].
  destruct (table_schema_version found >? query_version)%Z; [discriminate |].
  injection H as <-. now exists found.
Qed.

Lemma try_lock_asks_for_sync (catalog : Catalog) (database_name table_name : string)
    (query_version : Z) :
  (exists missing version,
     try_lock catalog database_name table_name query_version
       (getCurrentVersion catalog) false = Ok (missing, version, false)
     \/ try_lock catalog database_name table_name query_version
          (getCurrentVersion catalog) false = Ok (None, version, true)) <->
  asks_for_sync catalog database_name table_name query_version.
Proof.
  unfold get_and_lock_storage, asks_for_sync; cbn [bind].
  destruct (tryGetTable catalog database_name table_name) as [table |].
  2: { split; [now left |]. intros _. do 2 eexists; left; reflexivity. }
  destruct (is_TMT_or_DT table) eqn:E; cbn [negb].
  2: { split; [intros (m & v & [H | H]); discriminate H |].
       intros [H | (known & [= <-] & H & _)]; [discriminate | congruence]. }
  destruct (Z.gtb_spec (table_schema_version table) query_version) as [V | V].
  { split; [intros (m & v & [H | H]); discriminate H |].
    intros [H | (known & [= <-] & _ & H & _)]; [discriminate | lia]. }
  destruct (Z.eqb_spec (table_schema_version table) query_version) as [Q | Q]; cbn [orb].
  { split; [intros (m & v & [H | H]); discriminate H |].
    intros [H | (known & [= <-] & _ & H & _)]; [discriminate | lia]. }
  rewrite Z.geb_leb.
  destruct (Z.leb_spec query_version (getCurrentVersion catalog)) as [G | G].
  { split; [intros (m & v & [H | H]); discriminate H |].
    intros [H | (known & [= <-] & _ & _ & H)]; [discriminate | lia]. }
  split.
  - intros _. right. exists table. repeat split; [exact E | lia | lia].
  - intros _. do 2 eexists; left; reflexivity.
Qed.

(** X1. [getAndLockStorageWithSchemaVersion] serves a table without
    synchronising the schemas exactly when the table is known, is a TMT or
    DT table, is not newer than the query, and either has the schema
    version of the query or the global schema is at least as new as the
    query. *)
Theorem lock_with_version_shortcut (catalog : Catalog) (database_name table_name : string)
    (query_version : Z) (found : IStorage) :
  lock_with_version catalog database_name table_name query_version
  = Ok {| locked_storage := found; schema_synced := false |} <->
  tryGetTable catalog database_name table_name = Some found
  /\ is_TMT_or_DT found = true
  /\ (table_schema_version found <= query_version)%Z
  /\ (table_schema_version found = query_version
      \/ (query_version <= getCurrentVersion catalog)%Z).
Proof.
  unfold getAndLockStorageWithSchemaVersion. split.
  - intros H. apply bind_Ok in H as [[[first version] served] [H1 H]].
    assert (S : first = Some found /\ served = true).
    { destruct first as [table |], served;
        try (injection H as <-; now split);
        apply bind_Ok in H as [second [H2 H]];
        apply try_lock_synced in H2 as [again ->]; discriminate H. }
    destruct S as [-> ->].
    apply try_lock_served in H1 as (T & E & -> & L & [D | D]);
      [discriminate D | auto].
  - intros (T & E & L & D).
    assert (H1 : try_lock catalog database_name table_name query_version
                   (getCurrentVersion catalog) false
                 = Ok (Some found, table_schema_version found, true)).
    { apply try_lock_served. repeat split; auto. }
    rewrite H1. reflexivity.
Qed.

(** X2. [getAndLockStorageWithSchemaVersion] serves a table after a
    synchronisation of the schemas exactly when the first try asked for it
    (the table was not known, or it was older than the query and so was
    the global schema) and the table that is then found is a TMT or DT
    table not newer than the query; the version of the global schema is
    not looked at again. *)
Theorem lock_with_version_after_sync (catalog : Catalog)
    (database_name table_name : string) (query_version : Z) (found : IStorage) :
  lock_with_version catalog database_name table_name query_version
  = Ok {| locked_storage := found; schema_synced := true |} <->
  asks_for_sync catalog database_name table_name query_version
  /\ getTable (syncSchemas catalog) database_name table_name = Ok found
  /\ is_TMT_or_DT found = true
  /\ (table_schema_version found <= query_version)%Z.
Proof.
  unfold getAndLockStorageWithSchemaVersion. split.
  - intros H. apply bind_Ok in H as [[[first version] served] [H1 H]].
    assert (A : asks_for_sync catalog database_name table_name query_version
                /\ exists second,
                     try_lock (syncSchemas catalog) database_name table_name
                       query_version (getCurrentVersion catalog) true = Ok second
                     /\ match second with
                        | (Some table, _, true) =>
                            Ok {| locked_storage := table; schema_synced := true |}
                        | _ => Throw UNKNOWN_EXCEPTION "Shouldn't reach here"
                        end
                        = Ok {| locked_storage := found; schema_synced := true |}).
    { destruct first as [table |], served; try discriminate H;
        (split;
         [apply try_lock_asks_for_sync;
          first [ exists (Some table), version; left; exact H1
                | exists None, version; left; exact H1
                | exists None, version; right; exact H1 ] |]);
        apply bind_Ok in H as [second [H2 H]]; exists second; auto. }
    destruct A as [A (second & H2 & H3)]. split; [exact A |].
    destruct (try_lock_synced _ _ _ _ _ _ H2) as [again ->].
    injection H3 as ->.
    apply try_lock_served in H2 as (T & E & _ & L & _). auto.
  - intros (A & T & E & L).
    apply try_lock_asks_for_sync in A as (missing & version & A).
    assert (H2 : try_lock (syncSchemas catalog) database_name table_name query_version
                   (getCurrentVersion catalog) true
                 = Ok (Some found, table_schema_version found, true)).
    { apply try_lock_served. repeat split; auto. }
    destruct A as [-> | ->]; cbn [bind]; [destruct missing |]; rewrite H2; reflexivity.
Qed.

(** X3. A table is refused by [getAndLockStorageWithSchemaVersion],
    before or after the synchronisation of the schemas: with
    SCHEMA_VERSION_ERROR when its schema is newer than the query's, with
    LOGICAL_ERROR when it is not a TMT or DT table.  A refusal at the
    first try comes without synchronisation, whatever it would give. *)
Theorem lock_with_version_refusals (catalog : Catalog) (database_name table_name : string)
    (query_version : Z) (table : IStorage) :
  (tryGetTable catalog database_name table_name = Some table
   \/ asks_for_sync catalog database_name table_name query_version
      /\ getTable (syncSchemas catalog) database_name table_name = Ok table) ->
  (is_TMT_or_DT table = false ->
   thrown (lock_with_version catalog database_name table_name query_version)
   = Some LOGICAL_ERROR)
  /\ (is_TMT_or_DT table = true ->
      (query_version < table_schema_version table)%Z ->
      thrown (lock_with_version catalog database_name table_name query_version)
      = Some SCHEMA_VERSION_ERROR).
Proof.
  intros H. unfold getAndLockStorageWithSchemaVersion.
  destruct H as [T | [A T]].
  - split; [intros E | intros E V];
      unfold get_and_lock_storage at 1; rewrite T; cbn [bind]; rewrite E;
      [reflexivity |]. cbn [negb].
    destruct (Z.gtb_spec (table_schema_version table) query_version); [reflexivity | lia].
  - apply try_lock_asks_for_sync in A as (missing & version & A).
    assert (R : forall outcome : Result LockedStorage,
              bind (try_lock catalog database_name table_name query_version
                      (getCurrentVersion catalog) false)
                (fun first_try =>
                   match first_try with
                   | (Some served, _, true) =>
                       Ok {| locked_storage := served; schema_synced := false |}
                   | _ => outcome
                   end) = outcome).
    { intros outcome. destruct A as [-> | ->]; cbn [bind]; [destruct missing |];
        reflexivity. }
    rewrite R. unfold get_and_lock_storage. rewrite T. cbn [bind].
    split; [intros E | intros E V]; rewrite E; [reflexivity |]. cbn [negb].
    destruct (Z.gtb_spec (table_schema_version table) query_version); [reflexivity | lia].
Qed.

Lemma try_lock_throws (catalog : Catalog) (database_name table_name : string)
    (query_version global_version : Z) (synced : bool) (code : ErrorCodes.Code)
    (message : string) :
  try_lock catalog database_name table_name query_version global_version synced
  = Throw code message ->
  code = LOGICAL_ERROR \/ code = SCHEMA_VERSION_ERROR
  \/ (synced = true
      /\ getTable catalog database_name table_name = Throw code message).
Proof.
  unfold get_and_lock_storage. intros H.
  assert (K : forall storage_tmp : option IStorage,
            match storage_tmp with
            | None => Ok (None, DEFAULT_UNSPECIFIED_SCHEMA_VERSION, false)
            | Some table_storage =>
                if negb (is_TMT_or_DT table_storage)
                then Throw LOGICAL_ERROR
                       ("Specifying schema_version for storage: "
                        ++ storage_name table_storage ++ ", table: " ++ database_name
                        ++ "." ++ table_name ++ " is not allowed")
                else
                  if (table_schema_version table_storage >? query_version)%Z
                  then Throw SCHEMA_VERSION_ERROR
                         ("Table " ++ database_name ++ "." ++ table_name
                          ++ " schema version "
                          ++ toString_Int64 (table_schema_version table_storage)
                          ++ " newer than query schema version "
                          ++ toString_Int64 query_version)
                  else if synced
                  then Ok (Some table_storage, table_schema_version table_storage, true)
                  else if (table_schema_version table_storage =? query_version)%Z
                          || (global_version >=? query_version)%Z
                  then Ok (Some table_storage, table_schema_version table_storage, true)
                  else Ok (None, table_schema_version table_storage, false)
            end = Throw code message ->
            code = LOGICAL_ERROR \/ code = SCHEMA_VERSION_ERROR).
  { intros [table |]; [| discriminate].
    destruct (negb (is_TMT_or_DT table)); [intros [= <- _]; now left |].
    destruct (table_schema_version table >? query_version)%Z;
      [intros [= <- _]; now right |].
    destruct synced; [discriminate |].
    destruct ((table_schema_version table =? query_version)%Z
              || (global_version >=? query_version)%Z); discriminate. }
  destruct synced.
  - destruct (getTable catalog database_name table_name) as [found | c m] eqn:G;
      cbn [bind] in H.
    + destruct (K (Some found) H) as [L | V]; auto.
    + injection H as -> ->. right. right. now split.
  - cbn [bind] in H. destruct (K _ H) as [L | V]; auto.
Qed.

(** X4. What [getAndLockStorageWithSchemaVersion] throws is a
    LOGICAL_ERROR, a SCHEMA_VERSION_ERROR, or the exception of the lookup
    of the table after the synchronisation of the schemas: its last throw
    (UNKNOWN_EXCEPTION, Shouldn't reach here) is never reached. *)
Theorem lock_with_version_throws (catalog : Catalog)
    (database_name table_name : string) (query_version : Z) :
  match lock_with_version catalog database_name table_name query_version with
  | Ok _ => True
  | Throw code message =>
      code = LOGICAL_ERROR \/ code = SCHEMA_VERSION_ERROR
      \/ getTable (syncSchemas catalog) database_name table_name = Throw code message
  end.
Proof.
  unfold getAndLockStorageWithSchemaVersion.
  assert (S : match
                bind (try_lock (syncSchemas catalog) database_name table_name
                        query_version (getCurrentVersion catalog) true)
                  (fun second_try =>
                     match second_try with
                     | (Some served, _, true) =>
                         Ok {| locked_storage := served; schema_synced := true |}
                     | _ => Throw UNKNOWN_EXCEPTION "Shouldn't reach here"
                     end)
              with
              | Ok _ => True
              | Throw code message =>
                  code = LOGICAL_ERROR \/ code = SCHEMA_VERSION_ERROR
                  \/ getTable (syncSchemas catalog) database_name table_name
                     = Throw code message
              end).
  { destruct (try_lock (syncSchemas catalog) database_name table_name query_version
                (getCurrentVersion catalog) true) as [answer | code text] eqn:E.
    - apply try_lock_synced in E as [found ->]. exact I.
    - cbn [bind]. apply try_lock_throws in E as [L | [V | [_ G]]]; auto. }
  destruct (try_lock catalog database_name table_name query_version
              (getCurrentVersion catalog) false) as [[[first version] served] | code text]
    eqn:E; cbn [bind].
  - destruct first as [table |], served; try exact S. exact I.
  - apply try_lock_throws in E as [L | [V | [F _]]]; auto. discriminate F.
Qed.

(** X5. Without prepared input, a query without FROM reads the table
    system.one, whatever database it names; a table named with its
    database is looked up there; a table named without database is looked
    up under the empty database name when a table of that name is known
    there (a temporary table), and in the current database otherwise. *)
Theorem resolve_source_names (query_ : ASTSelectQuery) (context_ : Context)
    (schema_version : Z) (catalog : Catalog) :
  let lookup database_name table_name :=
    if (schema_version =? DEFAULT_UNSPECIFIED_SCHEMA_VERSION)%Z
    then table_storage <- getTable catalog database_name table_name ;;
         Ok (Some table_storage, @nil string)
    else locked <- lock_with_version catalog database_name table_name schema_version ;;
         Ok (Some (locked_storage locked), @nil string) in
  (table query_ = None ->
   resolve query_ context_ None schema_version catalog = lookup "system" "one")
  /\ (forall table_name database_name,
       table query_ = Some (ASTIdentifier table_name) ->
       database query_ = Some database_name ->
       resolve query_ context_ None schema_version catalog
       = lookup database_name table_name)
  /\ (forall table_name,
       table query_ = Some (ASTIdentifier table_name) ->
       database query_ = None ->
       resolve query_ context_ None schema_version catalog
       = lookup (if present (tryGetTable catalog EmptyString table_name)
                 then EmptyString else getCurrentDatabase catalog) table_name).
Proof.
  intros lookup. unfold resolve_source, getDatabaseAndTableNames.
  split; [| split].
  - intros ->. reflexivity.
  - intros table_name database_name -> ->. reflexivity.
  - intros table_name -> ->.
    now destruct (present (tryGetTable catalog EmptyString table_name)).
Qed.

(** X6. The depth of subqueries is checked against the cap of the
    settings as the SETTINGS clause of the query leaves them, and before
    the source of the query is looked up: beyond a non-zero cap the
    constructor throws TOO_DEEP_SUBQUERIES whatever the tables are; with a
    cap of 0 or a depth within the cap, a TOO_DEEP_SUBQUERIES can only
    come from the lookup of the source. *)
Theorem init_too_deep (query_ : ASTSelectQuery)
    (query_settings : option (Settings -> Settings)) (context_ : Context)
    (required : Names) (target : QueryProcessingStage.Enum) (depth : N)
    (input_ : option BlockInputStream) (only_analyze_ : bool) (schema_version : Z)
    (catalog : Catalog) :
  let cap := max_subquery_depth (settings (initSettings query_settings context_)) in
  (cap <> 0 -> cap < depth ->
   construct query_ query_settings context_ required target depth input_ only_analyze_
     schema_version catalog
   = Throw TOO_DEEP_SUBQUERIES ("Too deep subqueries. Maximum: " ++ toString cap)%string)
  /\ (cap = 0 \/ depth <= cap ->
      thrown (construct query_ query_settings context_ required target depth input_
                only_analyze_ schema_version catalog) = Some TOO_DEEP_SUBQUERIES ->
      thrown (resolve query_ (initSettings query_settings context_) input_
                schema_version catalog) = Some TOO_DEEP_SUBQUERIES).
Proof.
  intros cap. unfold init. fold cap. split.
  - intros Hc Hd.
    apply N.eqb_neq in Hc. apply N.ltb_lt in Hd. now rewrite Hc, Hd.
  - intros Hc.
    assert (E : negb (cap =? 0) && (cap <? depth) = false).
    { destruct Hc as [-> | Hc]; [reflexivity |].
      apply N.ltb_ge in Hc. rewrite Hc. apply andb_false_r. }
    rewrite E.
    destruct (resolve query_ (initSettings query_settings context_) input_
                schema_version catalog) as [[storage_ columns] | code message];
      cbn [bind thrown]; [| trivial].
    destruct (negb only_analyze_); [| discriminate].
    repeat match goal with
           | |- context [if ?c then _ else _] => destruct c
           end; discriminate.
Qed.


(** X8. Over a prepared input, within the cap on the depth and unless it
    only analyses, the constructor refuses SAMPLE, FINAL and PREWHERE, in
    this order, whatever the tables are: SAMPLING_NOT_SUPPORTED,
    ILLEGAL_FINAL or ILLEGAL_PREWHERE; without these clauses it builds an
    interpreter without table. *)
Theorem init_prepared_input (query_ : ASTSelectQuery)
    (query_settings : option (Settings -> Settings)) (context_ : Context)
    (required : Names) (target : QueryProcessingStage.Enum) (depth : N)
    (prepared : BlockInputStream) (schema_version : Z) (catalog : Catalog) :
  let cap := max_subquery_depth (settings (initSettings query_settings context_)) in
  let built := construct query_ query_settings context_ required target depth
                 (Some prepared) false schema_version catalog in
  cap = 0 \/ depth <= cap ->
  (sample_size query_ <> None ->
   built = Throw SAMPLING_NOT_SUPPORTED "Illegal SAMPLE: table doesn't support sampling")
  /\ (sample_size query_ = None -> final query_ = true ->
      built = Throw ILLEGAL_FINAL "Illegal FINAL")
  /\ (sample_size query_ = None -> final query_ = false ->
      prewhere_expression query_ <> None ->
      built = Throw ILLEGAL_PREWHERE "Illegal PREWHERE")
  /\ (sample_size query_ = None -> final query_ = false ->
      prewhere_expression query_ = None ->
      exists this, built = Ok this /\ storage this = None
                   /\ input this = Some prepared).
Proof.
  intros cap built Hc; subst built. unfold init. fold cap.
  assert (E : negb (cap =? 0) && (cap <? depth) = false).
  { destruct Hc as [-> | Hc]; [reflexivity |].
    apply N.ltb_ge in Hc. rewrite Hc. apply andb_false_r. }
  rewrite E. unfold resolve_source, unsupported. cbn [bind present orb negb andb].
  rewrite !andb_true_r.
  split; [| split; [| split]].
  - intros H. destruct (sample_size query_); [reflexivity | congruence].
  - intros -> ->. reflexivity.
  - intros -> -> H. cbn [present].
    destruct (prewhere_expression query_); [reflexivity | congruence].
  - intros -> -> ->. cbn [present]. eexists; split; [reflexivity |]. split; reflexivity.
Qed.


End ConstructorProperties.

(** ** The constructor on the catalog of the examples *)

Lemma lock_with_version_shortcut_witness :
  Examples.lock_with_version Examples.catalog_db "db" "m" 4%Z
  = Ok {| locked_storage := Examples.managed_table "m" StorageEngine.TMT;
          schema_synced := false |}.
Proof.
  apply (proj2 (lock_with_version_shortcut Examples.try_get_table Examples.get_table
                  Examples.current_version Examples.sync_schemas
                  Examples.schema_version_of Examples.unspecified_version
                  Examples.catalog_db "db" "m" 4%Z
                  (Examples.managed_table "m" StorageEngine.TMT))).
  split; [reflexivity |]. split; [reflexivity |].
  split; [vm_compute; discriminate | right; vm_compute; discriminate].
Defined.

Lemma lock_with_version_after_sync_witness :
  Examples.lock_with_version Examples.catalog_db "db" "late" 5%Z
  = Ok {| locked_storage := Examples.managed_table "late" StorageEngine.TMT;
          schema_synced := true |}.
Proof.
  apply (proj2 (lock_with_version_after_sync Examples.try_get_table Examples.get_table
                  Examples.current_version Examples.sync_schemas
                  Examples.schema_version_of Examples.unspecified_version
                  Examples.catalog_db "db" "late" 5%Z
                  (Examples.managed_table "late" StorageEngine.TMT))).
  split; [left; reflexivity |]. split; [reflexivity |].
  split; [reflexivity | vm_compute; discriminate].
Defined.

Lemma lock_with_version_refusals_witness :
  thrown (Examples.lock_with_version Examples.catalog_db "db" "t" 5%Z)
  = Some LOGICAL_ERROR
  /\ thrown (Examples.lock_with_version Examples.catalog_db "db" "new" 5%Z)
     = Some SCHEMA_VERSION_ERROR.
Proof.
  split.
  - refine (proj1 (lock_with_version_refusals Examples.try_get_table Examples.get_table
                     Examples.current_version Examples.sync_schemas
                     Examples.schema_version_of Examples.unspecified_version
                     Examples.catalog_db "db" "t" 5%Z
                     (Examples.table_t false QueryProcessingStage.FetchColumns 1) _) _);
      [left; reflexivity | reflexivity].
  - refine (proj2 (lock_with_version_refusals Examples.try_get_table Examples.get_table
                     Examples.current_version Examples.sync_schemas
                     Examples.schema_version_of Examples.unspecified_version
                     Examples.catalog_db "db" "new" 5%Z
                     (Examples.managed_table "new" StorageEngine.DT) _) _ _);
      [left; reflexivity | reflexivity | reflexivity].
Defined.


Lemma init_prepared_input_witness :
  let q := Examples.select_query false false None None None None Examples.from_t in
  let prepared := SourceStream "input" 0 in
  exists this,
    Examples.construct q None Examples.default_context ["x"]
      QueryProcessingStage.Complete 0 (Some prepared) false Examples.unspecified_version
      Examples.catalog_db = Ok this
    /\ storage this = None /\ input this = Some prepared.
Proof.
  intros q prepared.
  pose proof (init_prepared_input Examples.header_x Examples.try_get_table
                Examples.get_table Examples.table_function Examples.current_database
                Examples.current_version Examples.sync_schemas
                Examples.schema_version_of Examples.unspecified_version
                Examples.no_support Examples.no_support Examples.no_support
                (fun _ _ => Ok ["x"]) (fun _ _ _ _ required _ _ => Examples.analyzer false required)
                q None Examples.default_context ["x"] QueryProcessingStage.Complete 0
                prepared Examples.unspecified_version Examples.catalog_db) as B.
  cbv zeta in B. destruct B as (_ & _ & _ & B); [right; vm_compute; discriminate |].
  apply B; reflexivity.
Defined.

(** ** The fetch *)

Section BuilderProperties.

Variable getHeader : BlockInputStream -> Block.
Variable isGroupedOutput : BlockInputStream -> bool.
Variable isProfiling : BlockInputStream -> bool.
Variable newInterpreterSelectWithUnionQuery :
  list ASTSelectQuery -> Context -> Names -> QueryProcessingStage.Enum -> N ->
  Result InterpreterSelectWithUnionQuery.
Variable union_executeWithMultipleStreams :
  InterpreterSelectWithUnionQuery -> Result BlockInputStreams.
Variable union_getSampleBlock : InterpreterSelectWithUnionQuery -> Result Block.
Variable regionsOfRequest : string -> list N.

Local Abbreviation fetch :=
  (executeFetchColumns isProfiling newInterpreterSelectWithUnionQuery
     union_executeWithMultipleStreams union_getSampleBlock regionsOfRequest).
Local Abbreviation build :=
  (executeImpl getHeader isGroupedOutput isProfiling newInterpreterSelectWithUnionQuery
     union_executeWithMultipleStreams union_getSampleBlock regionsOfRequest).
Local Abbreviation stages := (executeStages getHeader isGroupedOutput isProfiling).

(** What the fetch puts on an operator of a table: the lock, and on a
    profiling operator the limits and, at the final stage, the quota. *)
Lemma source_operator_of_table_read (this : InterpreterSelectQuery)
    (stream : BlockInputStream) :
  let locked := addTableLock stream in
  source_operator
    (if isProfiling locked
     then if QueryProcessingStage.eqb (to_stage this) QueryProcessingStage.Complete
          then setQuota (setLimits (reading_limits this) locked)
          else setLimits (reading_limits this) locked
     else locked)
  = source_operator stream.
Proof.
  cbv zeta. destruct (isProfiling (addTableLock stream)); [| reflexivity].
  now destruct (QueryProcessingStage.eqb (to_stage this) QueryProcessingStage.Complete).
Qed.

(** X10. When a table is read in a dry run, or answers the read with no
    operator, the fetch leaves exactly one chain, over an empty operator
    with the header of the columns to read. *)
Theorem executeFetchColumns_empty_read (this : InterpreterSelectQuery) (p : Pipeline)
    (dry_run : bool) (table_storage : IStorage) (fetched : Fetched) :
  size (streams p) = 0 ->
  is_subquery (table (query this)) = false ->
  storage this = Some table_storage ->
  dry_run = true
  \/ (forall columns block_size stream_count,
        snd (read table_storage columns block_size stream_count) = []) ->
  fetch this p dry_run = Ok fetched ->
  exists chain,
    streams (fetched_pipeline fetched) = [chain]
    /\ source_operator chain
       = NullBlockInputStream
           (getSampleBlockForColumns table_storage (fst (required_source_columns this))).
Proof.
  intros Hp Hq Hs He H. unfold executeFetchColumns in H.
  destruct (required_source_columns this) as [required_columns alias_actions].
  cbn [fst].
  rewrite (subquery_interpreter_without_subquery newInterpreterSelectWithUnionQuery
             this required_columns Hq) in H.
  cbn [bind] in H.
  destruct (too_many_columns this dry_run required_columns); [discriminate |].
  destruct (fetch_hints this) as [block_size stream_count].
  rewrite Hp in H. cbn [N.eqb negb] in H.
  rewrite Hs in H.
  apply bind_Ok in H as [[[stage pl] count] [H E]]. injection E as <-.
  cbn [fetched_pipeline].
  unfold fetch_from_storage in H.
  destruct (stream_count =? 0); [discriminate |].
  apply bind_Ok in H as [[] [_ H]].
  destruct (present (partition_expression_list (query this))); [discriminate |].
  assert (R : exists answer, (if negb dry_run
                   then read table_storage required_columns block_size
                          (if (1 <? stream_count) && negb (isRemote table_storage)
                           then max_streams_to_max_threads_ratio
                                  (settings (context this)) stream_count
                           else stream_count)
                   else (QueryProcessingStage.FetchColumns, streams p))
                  = (answer, [])).
  { destruct He as [-> | He]; cbn [negb].
    - exists QueryProcessingStage.FetchColumns. f_equal.
      now apply size_0_iff.
    - match goal with |- context [read ?a ?b ?c ?d] =>
        specialize (He b c d); destruct (read a b c d) as [answer rs] end.
      cbn [snd] in He; subst rs. destruct dry_run; cbn [negb]; eauto.
      exists QueryProcessingStage.FetchColumns. f_equal. now apply size_0_iff. }
  destruct R as [answer R]. rewrite R in H. cbn [size List.length N.of_nat N.eqb] in H.
  injection H as <- <- _.
  unfold transform. cbn [streams map].
  match goal with
  | |- context [if ?c then _ else _] => destruct c
  end; cbn [streams map]; eexists; (split; [reflexivity |]);
    cbn [source_operator];
    match goal with
    | |- source_operator ?s = _ =>
        change s with
          (let locked := addTableLock
                           (NullBlockInputStream
                              (getSampleBlockForColumns table_storage required_columns)) in
           if isProfiling locked
           then if QueryProcessingStage.eqb (to_stage this) QueryProcessingStage.Complete
                then setQuota (setLimits (reading_limits this) locked)
                else setLimits (reading_limits this) locked
           else locked)
    end; apply source_operator_of_table_read.
Qed.

Lemma required_source_columns_with_table_read (this : InterpreterSelectQuery)
    (read_ : Names -> N -> N -> QueryProcessingStage.Enum * BlockInputStreams) :
  required_source_columns (with_table_read this read_) = required_source_columns this.
Proof.
  unfold required_source_columns, with_table_read; cbn [storage query_analyzer].
  now destruct (storage this).
Qed.

Lemma fetch_hints_with_table_read (this : InterpreterSelectQuery)
    (read_ : Names -> N -> N -> QueryProcessingStage.Enum * BlockInputStreams) :
  fetch_hints (with_table_read this read_) = fetch_hints this.
Proof.
  unfold fetch_hints, plain_limit_below_block_size, streams_for_storage, storage_isRemote,
    with_table_read; cbn [storage query_analyzer query context max_streams].
  now destruct (storage this).
Qed.

(** A dry run, and a fetch over a prepared input, neither read the table
    nor run the FROM subquery. *)
Lemma fetch_outcome_with_table_read (this : InterpreterSelectQuery)
    (p : Pipeline) (dry_run : bool)
    (read_ : Names -> N -> N -> QueryProcessingStage.Enum * BlockInputStreams)
    (run_ : InterpreterSelectWithUnionQuery -> Result BlockInputStreams) :
  dry_run = true \/ size (streams p) <> 0 ->
  fetch_outcome
    (executeFetchColumns isProfiling newInterpreterSelectWithUnionQuery run_
       union_getSampleBlock regionsOfRequest (with_table_read this read_) p dry_run)
  = fetch_outcome (fetch this p dry_run).
Proof.
  intros H. unfold executeFetchColumns.
  rewrite required_source_columns_with_table_read, fetch_hints_with_table_read.
  destruct (required_source_columns this) as [required_columns alias_actions].
  change (subquery_interpreter newInterpreterSelectWithUnionQuery
            (with_table_read this read_) required_columns)
    with (subquery_interpreter newInterpreterSelectWithUnionQuery this required_columns).
  destruct (subquery_interpreter newInterpreterSelectWithUnionQuery this required_columns)
    as [made | code message]; cbn [bind]; [| reflexivity].
  change (too_many_columns (with_table_read this read_) dry_run required_columns)
    with (too_many_columns this dry_run required_columns).
  destruct (too_many_columns this dry_run required_columns); [reflexivity |].
  destruct (fetch_hints this) as [block_size stream_count].
  destruct (negb (size (streams p) =? 0)) eqn:P.
  { cbn [bind]. now destruct (_ && _). }
  assert (D : dry_run = true).
  { destruct H as [H | H]; [exact H |].
    apply negb_false_iff, N.eqb_eq in P. contradiction. }
  subst dry_run. cbn [negb].
  destruct made as [interpreter |].
  { unfold subquery_streams. cbn [negb].
    destruct (union_getSampleBlock interpreter); cbn [bind];
      [now destruct (_ && _) | reflexivity]. }
  cbn [with_table_read storage].
  destruct (storage this) as [table_storage |]; [| reflexivity].
  cbn [option_map].
  unfold fetch_from_storage, reading_limits, with_table_read.
  cbn [with_read isRemote manageable getSampleBlockForColumns negb context query
       to_stage].
  destruct (stream_count =? 0); [reflexivity |].
  destruct (String.eqb (regions (settings (context this))) EmptyString);
    [| destruct (manageable table_storage);
       [destruct (size (regionsOfRequest _) =? 0) |]];
    cbn [bind]; try reflexivity;
    (destruct (present (partition_expression_list (query this))); [reflexivity |]);
    cbn [bind]; now destruct (_ && _).
Qed.

(** The steps of the stages do not look at the table. *)
Lemma executeStages_with_table_read (this : InterpreterSelectQuery)
    (read_ : Names -> N -> N -> QueryProcessingStage.Enum * BlockInputStreams)
    (count : N) (from : QueryProcessingStage.Enum) (p : Pipeline) :
  stages (with_max_streams (with_table_read this read_) count) from p
  = stages (with_max_streams this count) from p.
Proof. reflexivity. Qed.

Lemma fetched_this_is (this : InterpreterSelectQuery) (p : Pipeline) (dry_run : bool)
    (fetched : Fetched) :
  fetch this p dry_run = Ok fetched ->
  fetched_this fetched = with_max_streams this (max_streams (fetched_this fetched)).
Proof.
  unfold executeFetchColumns.
  destruct (required_source_columns this) as [required_columns alias_actions].
  intros H. apply bind_Ok in H as [made [_ H]]. revert H.
  destruct (too_many_columns this dry_run required_columns); [discriminate |].
  destruct (fetch_hints this) as [block_size stream_count].
  intros H. apply bind_Ok in H as [[[stage pl] count] [_ H]].
  now injection H as <-.
Qed.

(** X11. A dry run, and a build over a prepared input, neither read the
    table nor run the FROM subquery: the pipeline and the stream count
    that [executeImpl] gives, or its exception, are the same whatever the
    table answers to a read and whatever running the subquery gives; so is
    the header that [getSampleBlock] gives. *)
Theorem executeImpl_reads_only_when_needed (this : InterpreterSelectQuery)
    (read_ : Names -> N -> N -> QueryProcessingStage.Enum * BlockInputStreams)
    (run_ : InterpreterSelectWithUnionQuery -> Result BlockInputStreams) :
  (forall p input_ dry_run,
     dry_run = true \/ size (streams (push_back_input p input_)) <> 0 ->
     build_outcome
       (executeImpl getHeader isGroupedOutput isProfiling
          newInterpreterSelectWithUnionQuery run_ union_getSampleBlock regionsOfRequest
          (with_table_read this read_) p input_ dry_run)
     = build_outcome (build this p input_ dry_run))
  /\ getSampleBlock getHeader isGroupedOutput isProfiling
       newInterpreterSelectWithUnionQuery run_ union_getSampleBlock regionsOfRequest
       (with_table_read this read_)
     = getSampleBlock getHeader isGroupedOutput isProfiling
         newInterpreterSelectWithUnionQuery union_executeWithMultipleStreams
         union_getSampleBlock regionsOfRequest this.
Proof.
  assert (main : forall p input_ dry_run,
    dry_run = true \/ size (streams (push_back_input p input_)) <> 0 ->
    build_outcome
      (executeImpl getHeader isGroupedOutput isProfiling
         newInterpreterSelectWithUnionQuery run_ union_getSampleBlock regionsOfRequest
         (with_table_read this read_) p input_ dry_run)
    = build_outcome (build this p input_ dry_run)).
  { intros p input_ dry_run H. unfold executeImpl.
    pose proof (fetch_outcome_with_table_read this (push_back_input p input_) dry_run
                  read_ run_ H) as F.
    destruct (executeFetchColumns isProfiling newInterpreterSelectWithUnionQuery run_
                union_getSampleBlock regionsOfRequest (with_table_read this read_)
                (push_back_input p input_) dry_run) as [f1 | c1 m1] eqn:E1;
      destruct (fetch this (push_back_input p input_) dry_run) as [f2 | c2 m2] eqn:E2;
      cbn [fetch_outcome] in F; try discriminate F; cbn [bind];
      [| now injection F as -> ->].
    injection F as Fs Fp Fm.
    pose proof (fetched_this_is _ _ _ _ E2) as T2.
    assert (T1 : fetched_this f1
                 = with_max_streams (with_table_read this read_)
                     (max_streams (fetched_this f1))).
    { clear - E1. unfold executeFetchColumns in E1.
      destruct (required_source_columns (with_table_read this read_))
        as [required_columns alias_actions].
      apply bind_Ok in E1 as [made [_ E1]].
      destruct (too_many_columns _ dry_run required_columns); [discriminate |].
      destruct (fetch_hints _) as [block_size stream_count].
      apply bind_Ok in E1 as [[[stage pl] count] [_ E1]].
      now injection E1 as <-. }
    rewrite T1, T2, Fs, Fp, Fm.
    cbn [to_stage with_max_streams with_table_read].
    match goal with |- context [if ?c then _ else _] => destruct c end;
      [reflexivity |].
    rewrite executeStages_with_table_read.
    destruct (stages (with_max_streams this (max_streams (fetched_this f2)))
                (from_stage f2) (fetched_pipeline f2)); reflexivity. }
  split; [exact main |].
  unfold getSampleBlock.
  specialize (main empty_pipeline (input this) true (or_introl eq_refl)).
  change (input (with_table_read this read_)) with (input this).
  destruct (executeImpl getHeader isGroupedOutput isProfiling
              newInterpreterSelectWithUnionQuery run_ union_getSampleBlock
              regionsOfRequest (with_table_read this read_) empty_pipeline (input this)
              true) as [[p1 t1] | c1 m1];
    destruct (build this empty_pipeline (input this) true) as [[p2 t2] | c2 m2];
    cbn [build_outcome] in main; try discriminate main; cbn [bind fst].
  - now injection main as ->.
  - now injection main as -> ->.
Qed.

(** X12. Reading a table (no prepared input, no FROM subquery, the cap on
    the columns respected) fails with LOGICAL_ERROR, zero number of streams
    requested, exactly when the optimization of the plain LIMIT does not
    apply and the stream count is 0: [max_distributed_connections] for a
    remote table, the member [max_streams] otherwise. *)
Theorem executeFetchColumns_zero_streams (this : InterpreterSelectQuery) (p : Pipeline)
    (dry_run : bool) (table_storage : IStorage) :
  size (streams p) = 0 ->
  is_subquery (table (query this)) = false ->
  storage this = Some table_storage ->
  too_many_columns this dry_run (fst (required_source_columns this)) = false ->
  fetch this p dry_run
  = Throw LOGICAL_ERROR "Logical error: zero number of streams requested" <->
  plain_limit_below_block_size this = false
  /\ (if isRemote table_storage
      then max_distributed_connections (settings (context this))
      else max_streams this) = 0.
Proof.
  intros Hp Hq Hs Ht. unfold executeFetchColumns.
  destruct (required_source_columns this) as [required_columns alias_actions].
  cbn [fst] in Ht.
  pose proof (subquery_interpreter_without_subquery newInterpreterSelectWithUnionQuery
                this required_columns Hq) as U.
  rewrite U. cbn [bind]. rewrite Ht.
  assert (S : streams_for_storage this
              = if isRemote table_storage
                then max_distributed_connections (settings (context this))
                else max_streams this).
  { unfold streams_for_storage, storage_isRemote. now rewrite Hs. }
  rewrite <- S. unfold fetch_hints.
  destruct (getLimitLengthAndOffset (query this)) as [len off].
  rewrite Hp, Hs. cbn [N.eqb negb].
  destruct (plain_limit_below_block_size this).
  - split; [| intros [H _]; discriminate H].
    intros H; exfalso; revert H.
    unfold fetch_from_storage. cbn [N.eqb].
    destruct (String.eqb (regions (settings (context this))) EmptyString);
      [| destruct (manageable table_storage);
         [destruct (size (regionsOfRequest _) =? 0) |]];
      cbn [bind]; try discriminate;
      (destruct (present (partition_expression_list (query this))); [discriminate |]);
      match goal with
      | |- context [let '(_, _) := ?r in _] => destruct r
      end; cbn [bind]; discriminate.
  - unfold fetch_from_storage.
    destruct (N.eqb_spec (streams_for_storage this) 0) as [Z | Z].
    + cbn [bind]. split; [now split | reflexivity].
    + split; [| intros [_ H]; contradiction].
      intros H; exfalso; revert H.
      destruct (String.eqb (regions (settings (context this))) EmptyString);
        [| destruct (manageable table_storage);
           [destruct (size (regionsOfRequest _) =? 0) |]];
        cbn [bind]; try discriminate;
        (destruct (present (partition_expression_list (query this))); [discriminate |]);
        match goal with
        | |- context [let '(_, _) := ?r in _] => destruct r
        end; cbn [bind]; discriminate.
Qed.

(** X13. When the target stage is FetchColumns, the build stops at the
    fetch: the pipeline is the one that the fetch has left, but for the
    operator that fills the sets of the subqueries when the query has
    some. *)
Theorem executeImpl_target_FetchColumns (this : InterpreterSelectQuery) (p : Pipeline)
    (input_ : option BlockInputStream) (dry_run : bool) (fetched : Fetched) :
  to_stage this = QueryProcessingStage.FetchColumns ->
  fetch this (push_back_input p input_) dry_run = Ok fetched ->
  let sets := getSubqueriesForSets (query_analyzer this) in
  (sets = [] ->
   build this p input_ dry_run = Ok (fetched_pipeline fetched, fetched_this fetched))
  /\ (sets <> [] ->
      build this p input_ dry_run
      = (pipeline <- executeSubqueriesInSetsAndJoins (fetched_this fetched)
                       (fetched_pipeline fetched) sets ;;
         Ok (pipeline, fetched_this fetched))).
Proof.
  intros Ht H sets.
  pose proof (fetched_this_is _ _ _ _ H) as T.
  assert (E : build this p input_ dry_run
              = (pipeline <-
                   (if negb (size sets =? 0)
                    then executeSubqueriesInSetsAndJoins (fetched_this fetched)
                           (fetched_pipeline fetched) sets
                    else Ok (fetched_pipeline fetched)) ;;
                 Ok (pipeline, fetched_this fetched))).
  { assert (Ts : to_stage (fetched_this fetched) = QueryProcessingStage.FetchColumns)
      by (rewrite T; exact Ht).
    assert (Ta : query_analyzer (fetched_this fetched) = query_analyzer this)
      by (rewrite T; reflexivity).
    unfold executeImpl. rewrite H. cbn [bind]. rewrite Ts, andb_false_r.
    unfold executeStages. rewrite Ts.
    cbn [QueryProcessingStage.gtb QueryProcessingStage.ltb QueryProcessingStage.rank
         N.ltb N.compare bind].
    unfold analyzeExpressions. cbn [subqueries_for_sets]. rewrite Ta. fold sets.
    reflexivity. }
  rewrite E. split.
  - intros ->. reflexivity.
  - intros N. destruct sets; [congruence |]. reflexivity.
Qed.

(** ** The steps *)

Lemma same_widths_transform (f : BlockInputStream -> BlockInputStream) (p : Pipeline) :
  same_widths (transform f p) p.
Proof.
  unfold same_widths, transform; cbn [streams streams_with_non_joined_data].
  now rewrite !size_map.
Qed.

Lemma same_widths_refl (p : Pipeline) : same_widths p p.
Proof. now split. Qed.

(** X14. The steps that work chain by chain (WHERE, HAVING, expression,
    projection, DISTINCT, preliminary LIMIT, LIMIT BY, LIMIT, extremes)
    keep the number of main chains and the number of side chains of the
    pipeline, whatever the query. *)
Theorem per_chain_steps_keep_widths (this : InterpreterSelectQuery) (p : Pipeline)
    (expression : ExpressionActionsPtr) (before_order : bool) (columns : Names) :
  same_widths (executeWhere this p expression) p
  /\ same_widths (executeHaving this p expression) p
  /\ same_widths (executeExpression p expression) p
  /\ same_widths (executeProjection p expression) p
  /\ same_widths (executeDistinct isGroupedOutput this p before_order columns) p
  /\ same_widths (executePreLimit this p) p
  /\ same_widths (executeLimitBy this p) p
  /\ same_widths (executeLimit this p) p
  /\ same_widths (executeExtremes isProfiling this p) p.
Proof.
  repeat split; try apply same_widths_transform.
  all: unfold executeDistinct, executePreLimit, executeLimitBy, executeLimit,
         executeExtremes;
    destruct (getLimitLengthAndOffset (query this));
    repeat match goal with
           | |- context [if ?c then _ else _] => destruct c
           | |- context [match ?c with Some _ => _ | None => _ end] => destruct c
           end;
    try apply same_widths_transform; apply same_widths_refl.
Qed.

(** The union of a pipeline with a chain is one chain. *)
Lemma executeUnion_single (this : InterpreterSelectQuery) (p : Pipeline) :
  chain_count p <> 0 ->
  exists single,
    executeUnion this p = {| streams := [single]; streams_with_non_joined_data := [] |}.
Proof.
  intros H. destruct (N.eq_dec (chain_count p) 1) as [E | NE].
  - destruct (executeUnion_one this p E) as [s [(Hs & Hn & ->) | (_ & _ & ->)]].
    + exists s. destruct p as [main side]; cbn in *; now subst.
    + now exists s.
  - rewrite executeUnion_many by lia. eexists; reflexivity.
Qed.

(** X15. The steps that put one operator over the union of the chains
    (totals and HAVING, the sets of the subqueries) throw out of range on
    a pipeline without chain; on any other pipeline they leave the one
    chain of that operator over the union, and no side chain. *)
Theorem steps_over_union (this : InterpreterSelectQuery) (p : Pipeline)
    (has_having_ : bool) (expression : ExpressionActionsPtr) (overflow_row : bool)
    (sets : list SubqueryForSet) :
  (chain_count p = 0 ->
   thrown (executeTotalsAndHaving this p has_having_ expression overflow_row)
   = Some STD_OUT_OF_RANGE
   /\ thrown (executeSubqueriesInSetsAndJoins this p sets) = Some STD_OUT_OF_RANGE)
  /\ (chain_count p <> 0 ->
      exists single totals_having creating_sets,
        executeUnion this p
        = {| streams := [single]; streams_with_non_joined_data := [] |}
        /\ executeTotalsAndHaving this p has_having_ expression overflow_row
           = Ok {| streams := [totals_having]; streams_with_non_joined_data := [] |}
        /\ executeSubqueriesInSetsAndJoins this p sets
           = Ok {| streams := [creating_sets]; streams_with_non_joined_data := [] |}
        /\ (exists filter_column mode threshold,
              totals_having
              = TotalsHavingBlockInputStream single overflow_row expression
                  filter_column mode threshold)
        /\ (exists limits,
              creating_sets = CreatingSetsBlockInputStream single sets limits)).
Proof.
  unfold executeTotalsAndHaving, executeSubqueriesInSetsAndJoins. split.
  - intros Z. rewrite (executeUnion_none this p Z).
    unfold chain_count in Z.
    assert (E : streams p = []) by (apply size_0_iff; lia).
    unfold firstStream. rewrite E. now split.
  - intros NZ. destruct (executeUnion_single this p NZ) as [single ->].
    exists single. do 2 eexists. split; [reflexivity |].
    split; [reflexivity |]. split; [reflexivity |].
    split; [do 3 eexists; reflexivity | eexists; reflexivity].
Qed.

(** X16. Merging the aggregated chains throws out of range when the
    pipeline has no main chain (even with side chains).  When it gives a
    pipeline, one main chain is left; the side chains are gone in the mode
    that unions the sources, and stay as they were in the memory-efficient
    mode, whose operator is made over the main chains only. *)
Theorem executeMergeAggregated_modes (this : InterpreterSelectQuery) (p : Pipeline)
    (overflow_row final : bool) :
  (streams p = [] ->
   thrown (executeMergeAggregated getHeader this p overflow_row final)
   = Some STD_OUT_OF_RANGE)
  /\ (forall p',
       executeMergeAggregated getHeader this p overflow_row final = Ok p' ->
       let efficient :=
         distributed_aggregation_memory_efficient (settings (context this)) in
       exists op,
         streams p' = [op]
         /\ (efficient = false ->
             streams_with_non_joined_data p' = []
             /\ exists single params,
                  executeUnion this p
                  = {| streams := [single]; streams_with_non_joined_data := [] |}
                  /\ op = MergingAggregatedBlockInputStream single params final
                            (max_threads (settings (context this))))
         /\ (efficient = true ->
             streams_with_non_joined_data p' = streams_with_non_joined_data p
             /\ exists params,
                  op = MergingAggregatedMemoryEfficientBlockInputStream (streams p)
                         params final (max_streams this)
                         (merge_threads (settings (context this))))).
Proof.
  unfold executeMergeAggregated.
  destruct (getAggregateInfo (query_analyzer this)) as [key_names descrs].
  split.
  - intros E. unfold firstStream. now rewrite E.
  - intros p' H. cbv zeta.
    apply bind_Ok in H as [first [F H]].
    apply bind_Ok in H as [keys [_ H]].
    destruct (distributed_aggregation_memory_efficient (settings (context this)));
      cbn [negb] in H.
    + injection H as <-. eexists. split; [reflexivity |].
      split; [discriminate |]. intros _. split; [reflexivity |].
      eexists; reflexivity.
    + assert (NZ : chain_count p <> 0).
      { unfold firstStream in F. unfold chain_count.
        destruct (streams p); [discriminate |]. rewrite size_cons. lia. }
      destruct (executeUnion_single this p NZ) as [single U].
      rewrite U in H. cbn in H. injection H as <-.
      eexists. split; [reflexivity |].
      split; [| discriminate]. intros _. split; [reflexivity |].
      exists single. eexists. split; [exact U | reflexivity].
Qed.

(** X17. Merging sorted chains leaves a pipeline of at most one chain as
    it is.  Of two or more chains, the main chains, each behind an
    asynchronous operator, are merged by one operator with the sort
    description of the query and the bound of sorting, while the side
    chains stay (behind asynchronous operators); without main chain the
    step throws out of range. *)
Theorem executeMergeSorted_cases (this : InterpreterSelectQuery) (p : Pipeline) :
  (chain_count p <= 1 -> executeMergeSorted this p = Ok p)
  /\ (2 <= chain_count p -> streams p <> [] ->
      executeMergeSorted this p
      = Ok {| streams :=
                [MergingSortedBlockInputStream
                   (map AsynchronousBlockInputStream (streams p))
                   (getSortDescription (query this))
                   (max_block_size (settings (context this)))
                   (getLimitForSorting (query this))];
              streams_with_non_joined_data :=
                map AsynchronousBlockInputStream (streams_with_non_joined_data p) |})
  /\ (2 <= chain_count p -> streams p = [] ->
      thrown (executeMergeSorted this p) = Some STD_OUT_OF_RANGE).
Proof.
  unfold executeMergeSorted, hasMoreThanOneStream.
  split; [| split].
  - intros H. apply N.ltb_ge in H. now rewrite H.
  - intros H N. assert (L : (1 <? chain_count p) = true) by (apply N.ltb_lt; lia).
    rewrite L. unfold set_firstStream, transform.
    cbn [streams streams_with_non_joined_data].
    destruct (streams p) as [| s rest]; [congruence |]. reflexivity.
  - intros H E. assert (L : (1 <? chain_count p) = true) by (apply N.ltb_lt; lia).
    rewrite L. unfold set_firstStream, transform.
    cbn [streams streams_with_non_joined_data]. rewrite E. reflexivity.
Qed.

(** ** What the stages can throw *)

Lemma step_outcome_bind (aggregates : bool) (r : Result Pipeline)
    (k : Pipeline -> Result Pipeline) :
  step_outcome aggregates r ->
  (forall p, streams p <> [] -> step_outcome aggregates (k p)) ->
  step_outcome aggregates (bind r k).
Proof. destruct r as [p | code message]; cbn; auto. Qed.

Lemma step_outcome_Ok (aggregates : bool) (p : Pipeline) :
  streams p <> [] -> step_outcome aggregates (Ok p).
Proof. trivial. Qed.

Lemma main_transform (f : BlockInputStream -> BlockInputStream) (p : Pipeline) :
  streams p <> [] -> streams (transform f p) <> [].
Proof.
  unfold transform; cbn [streams]. destruct (streams p); [congruence | discriminate].
Qed.

Lemma main_chain_count (p : Pipeline) : streams p <> [] -> chain_count p <> 0.
Proof.
  unfold chain_count. destruct (streams p); [congruence |]. rewrite size_cons. lia.
Qed.

Lemma main_executeUnion (this : InterpreterSelectQuery) (p : Pipeline) :
  streams p <> [] -> streams (executeUnion this p) <> [].
Proof.
  intros H. destruct (executeUnion_single this p (main_chain_count p H)) as [s ->].
  discriminate.
Qed.

(** An operator put over the first chain of the union. *)
Lemma main_over_union (this : InterpreterSelectQuery) (p : Pipeline)
    (f : BlockInputStream -> BlockInputStream) (aggregates : bool) :
  streams p <> [] ->
  step_outcome aggregates
    (first <- firstStream (executeUnion this p) ;;
     set_firstStream (executeUnion this p) (f first)).
Proof.
  intros H. destruct (executeUnion_single this p (main_chain_count p H)) as [s ->].
  cbn. discriminate.
Qed.

Lemma getPositionsByNames_thrown (header : Block) (names : Names)
    (code : ErrorCodes.Code) (message : string) :
  getPositionsByNames header names = Throw code message ->
  code = NOT_FOUND_COLUMN_IN_BLOCK.
Proof.
  assert (one : forall name c m,
            getPositionByName header name = Throw c m ->
            c = NOT_FOUND_COLUMN_IN_BLOCK).
  { induction header as [| column rest IH]; cbn; intros name c m H.
    - now injection H as <- _.
    - destruct (String.eqb column name); [discriminate |].
      destruct (getPositionByName rest name) eqn:E; cbn in H; [discriminate |].
      injection H as <- <-. eapply IH, E. }
  induction names as [| name rest IH]; cbn; [discriminate |].
  destruct (getPositionByName header name) eqn:E; cbn.
  - destruct (getPositionsByNames header rest); cbn; [discriminate |].
    intros [= <- <-]. now apply IH.
  - intros [= <- <-]. eapply one, E.
Qed.

Lemma fill_all_arguments_thrown (header : Block) (descrs : list AggregateDescription)
    (code : ErrorCodes.Code) (message : string) :
  fill_all_arguments header descrs = Throw code message ->
  code = NOT_FOUND_COLUMN_IN_BLOCK.
Proof.
  induction descrs as [| descr rest IH]; cbn; [discriminate |].
  unfold fill_arguments.
  destruct (arguments descr); cbn.
  - destruct (getPositionsByNames header (argument_names descr)) eqn:E; cbn.
    + destruct (fill_all_arguments header rest); cbn; [discriminate |].
      intros [= <- <-]. now apply IH.
    + intros [= <- <-]. eapply getPositionsByNames_thrown, E.
  - destruct (fill_all_arguments header rest); cbn; [discriminate |].
    intros [= <- <-]. now apply IH.
Qed.

Lemma outcome_executeAggregation (this : InterpreterSelectQuery) (p : Pipeline)
    (expression : ExpressionActionsPtr) (overflow_row final : bool) :
  streams p <> [] ->
  step_outcome true (executeAggregation getHeader this p expression overflow_row final).
Proof.
  intros H. unfold executeAggregation.
  destruct (getAggregateInfo (query_analyzer this)) as [key_names descrs].
  unfold firstStream, transform; cbn [streams streams_with_non_joined_data].
  destruct (streams p) as [| s rest]; [congruence |]. cbn [map bind].
  destruct (getPositionsByNames _ key_names) eqn:K; cbn [bind].
  2: { split; [reflexivity | eapply getPositionsByNames_thrown, K]. }
  destruct (fill_all_arguments _ descrs) eqn:A; cbn [bind].
  2: { split; [reflexivity | eapply fill_all_arguments_thrown, A]. }
  match goal with |- context [if ?c then _ else _] => destruct c end;
    cbn; discriminate.
Qed.

Lemma outcome_executeMergeAggregated (this : InterpreterSelectQuery) (p : Pipeline)
    (overflow_row final : bool) :
  streams p <> [] ->
  step_outcome true (executeMergeAggregated getHeader this p overflow_row final).
Proof.
  intros H. unfold executeMergeAggregated.
  destruct (getAggregateInfo (query_analyzer this)) as [key_names descrs].
  unfold firstStream at 1.
  destruct (streams p) as [| s rest] eqn:E; [congruence |]. cbn [bind].
  destruct (getPositionsByNames _ key_names) eqn:K; cbn [bind].
  2: { split; [reflexivity | eapply getPositionsByNames_thrown, K]. }
  destruct (negb (distributed_aggregation_memory_efficient (settings (context this)))).
  - apply main_over_union. now rewrite E.
  - cbn. discriminate.
Qed.

Lemma outcome_executeOrder (this : InterpreterSelectQuery) (p : Pipeline)
    (aggregates : bool) :
  streams p <> [] -> step_outcome aggregates (executeOrder this p).
Proof.
  intros H. unfold executeOrder. apply main_over_union. now apply main_transform.
Qed.

Lemma outcome_executeMergeSorted (this : InterpreterSelectQuery) (p : Pipeline)
    (aggregates : bool) :
  streams p <> [] -> step_outcome aggregates (executeMergeSorted this p).
Proof.
  intros H. unfold executeMergeSorted.
  destruct (hasMoreThanOneStream p); [| exact H].
  unfold set_firstStream, transform; cbn [streams streams_with_non_joined_data].
  destruct (streams p); [congruence |]. cbn. discriminate.
Qed.

Lemma main_executeDistinct (this : InterpreterSelectQuery) (p : Pipeline)
    (before_order : bool) (columns : Names) :
  streams p <> [] ->
  streams (executeDistinct isGroupedOutput this p before_order columns) <> [].
Proof.
  intros H. unfold executeDistinct.
  destruct (distinct (query this)); [| exact H].
  destruct (getLimitLengthAndOffset (query this)). now apply main_transform.
Qed.

Lemma main_executePreLimit (this : InterpreterSelectQuery) (p : Pipeline) :
  streams p <> [] -> streams (executePreLimit this p) <> [].
Proof.
  intros H. unfold executePreLimit.
  destruct (getLimitLengthAndOffset (query this)).
  destruct (present (limit_length (query this))); [now apply main_transform | exact H].
Qed.

Lemma main_executeLimit (this : InterpreterSelectQuery) (p : Pipeline) :
  streams p <> [] -> streams (executeLimit this p) <> [].
Proof.
  intros H. unfold executeLimit.
  destruct (getLimitLengthAndOffset (query this)).
  destruct (present (limit_length (query this))); [now apply main_transform | exact H].
Qed.

Lemma main_executeLimitBy (this : InterpreterSelectQuery) (p : Pipeline) :
  streams p <> [] -> streams (executeLimitBy this p) <> [].
Proof.
  intros H. unfold executeLimitBy.
  destruct (limit_by_value (query this)), (limit_by_expression_list (query this));
    try exact H. now apply main_transform.
Qed.

Lemma main_executeExtremes (this : InterpreterSelectQuery) (p : Pipeline) :
  streams p <> [] -> streams (executeExtremes isProfiling this p) <> [].
Proof.
  intros H. unfold executeExtremes.
  destruct (negb (extremes (settings (context this)))); [exact H |].
  now apply main_transform.
Qed.

Lemma outcome_executeFirstStage (this : InterpreterSelectQuery)
    (expressions : AnalysisResult) (p : Pipeline)
    (aggregate_overflow_row aggregate_final : bool) :
  streams p <> [] ->
  step_outcome (need_aggregate expressions)
    (executeFirstStage getHeader isGroupedOutput this expressions p
       aggregate_overflow_row aggregate_final).
Proof.
  intros H. unfold executeFirstStage.
  apply step_outcome_bind.
  { destruct (has_join expressions); [| exact H].
    assert (J : exists side,
              match join (query this) with
              | Some ASTTableJoin.Right | Some ASTTableJoin.Full =>
                  first <- firstStream p ;;
                  Ok [NonJoinedBlockInputStream (before_join expressions)
                        (getHeader first) 0 1
                        (max_block_size (settings (context this)))]
              | _ => Ok []
              end = Ok side).
    { unfold firstStream. destruct (streams p); [congruence |].
      destruct (join (query this)) as [[] |]; cbn; eauto. }
    destruct J as [side ->]. cbn.
    destruct (streams p); [congruence | discriminate]. }
  intros p1 H1.
  apply step_outcome_bind.
  { assert (W : streams (if has_where expressions
                         then executeWhere this p1 (before_where expressions)
                         else p1) <> []).
    { destruct (has_where expressions); [now apply main_transform | exact H1]. }
    destruct (need_aggregate expressions).
    - now apply outcome_executeAggregation.
    - apply main_executeDistinct. now apply main_transform. }
  intros p2 H2.
  destruct (negb (second_stage expressions) && negb (need_aggregate expressions)
            && negb (has_having expressions)); [| exact H2].
  apply step_outcome_bind.
  { destruct (has_order_by expressions); [now apply outcome_executeOrder | exact H2]. }
  intros p3 H3. cbn.
  destruct (present (limit_length (query this)));
    [apply main_executePreLimit |];
    destruct (has_order_by expressions); cbn [andb];
    try apply main_executeDistinct; exact H3.
Qed.

Lemma outcome_executeTotalsAndHaving (this : InterpreterSelectQuery) (p : Pipeline)
    (has_having_ : bool) (expression : ExpressionActionsPtr) (overflow_row : bool)
    (aggregates : bool) :
  streams p <> [] ->
  step_outcome aggregates
    (executeTotalsAndHaving this p has_having_ expression overflow_row).
Proof.
  intros H. unfold executeTotalsAndHaving.
  destruct (executeUnion_single this p (main_chain_count p H)) as [s ->].
  cbn. discriminate.
Qed.

Lemma single_transform (f : BlockInputStream -> BlockInputStream) (p : Pipeline) :
  (exists s, p = {| streams := [s]; streams_with_non_joined_data := [] |}) ->
  exists s, transform f p = {| streams := [s]; streams_with_non_joined_data := [] |}.
Proof. intros [s ->]. now exists (f s). Qed.

Lemma single_executeDistinct (this : InterpreterSelectQuery) (p : Pipeline)
    (before_order : bool) (columns : Names) :
  (exists s, p = {| streams := [s]; streams_with_non_joined_data := [] |}) ->
  exists s, executeDistinct isGroupedOutput this p before_order columns
            = {| streams := [s]; streams_with_non_joined_data := [] |}.
Proof.
  intros H. unfold executeDistinct.
  destruct (distinct (query this)); [| exact H].
  destruct (getLimitLengthAndOffset (query this)). now apply single_transform.
Qed.

Lemma single_executeLimitBy (this : InterpreterSelectQuery) (p : Pipeline) :
  (exists s, p = {| streams := [s]; streams_with_non_joined_data := [] |}) ->
  exists s, executeLimitBy this p
            = {| streams := [s]; streams_with_non_joined_data := [] |}.
Proof.
  intros H. unfold executeLimitBy.
  destruct (limit_by_value (query this)); [| exact H].
  destruct (limit_by_expression_list (query this)); [| exact H].
  now apply single_transform.
Qed.

Lemma single_executeExtremes (this : InterpreterSelectQuery) (p : Pipeline) :
  (exists s, p = {| streams := [s]; streams_with_non_joined_data := [] |}) ->
  exists s, executeExtremes isProfiling this p
            = {| streams := [s]; streams_with_non_joined_data := [] |}.
Proof.
  intros H. unfold executeExtremes.
  destruct (negb (extremes (settings (context this)))); [exact H |].
  now apply single_transform.
Qed.

(** What the second stage gives over a pipeline with a main chain: the
    exception of a missing column, or a pipeline with a main chain, which
    under LIMIT is one chain that ends in the LIMIT operator. *)
Lemma executeSecondStage_post (this : InterpreterSelectQuery)
    (expressions : AnalysisResult) (p : Pipeline)
    (aggregate_overflow_row aggregate_final : bool) :
  streams p <> [] ->
  match executeSecondStage getHeader isGroupedOutput isProfiling this expressions p
          aggregate_overflow_row aggregate_final with
  | Ok p' =>
      streams p' <> []
      /\ (present (limit_length (query this)) = true ->
          exists below,
            p' = executeLimit this
                   {| streams := [below]; streams_with_non_joined_data := [] |})
  | Throw code _ =>
      need_aggregate expressions = true /\ code = NOT_FOUND_COLUMN_IN_BLOCK
  end.
Proof.
  intros H. unfold executeSecondStage.
  set (aggregates := need_aggregate expressions).
  set (post := fun r : Result Pipeline =>
         match r with
         | Ok p' =>
             streams p' <> []
             /\ (present (limit_length (query this)) = true ->
                 exists below,
                   p' = executeLimit this
                          {| streams := [below]; streams_with_non_joined_data := [] |})
         | Throw code _ => aggregates = true /\ code = NOT_FOUND_COLUMN_IN_BLOCK
         end).
  match goal with |- match ?r with _ => _ end => change (post r) end.
  assert (first_part : forall r : Result (bool * Pipeline),
            match r with
            | Ok (_, p') => streams p' <> []
            | Throw code _ => aggregates = true /\ code = NOT_FOUND_COLUMN_IN_BLOCK
            end ->
            forall k : bool * Pipeline -> Result Pipeline,
            (forall pass p', streams p' <> [] -> post (k (pass, p'))) ->
            post (bind r k)).
  { intros [[pass p'] | code message]; cbn; auto. }
  assert (order_part : forall r : Result Pipeline,
            step_outcome aggregates r ->
            forall k : Pipeline -> Result Pipeline,
            (forall p', streams p' <> [] -> post (k p')) -> post (bind r k)).
  { intros [p' | code message]; cbn; auto. }
  apply first_part.
  { subst aggregates. destruct (need_aggregate expressions).
    - assert (A : step_outcome true
                    (if negb (first_stage expressions)
                     then executeMergeAggregated getHeader this p aggregate_overflow_row
                            aggregate_final
                     else Ok p)).
      { destruct (negb (first_stage expressions));
          [now apply outcome_executeMergeAggregated | exact H]. }
      destruct (if negb (first_stage expressions)
                then executeMergeAggregated getHeader this p aggregate_overflow_row
                       aggregate_final
                else Ok p) as [pa | code message]; cbn [bind]; [| exact A].
      cbn in A.
      assert (B : step_outcome true
                    (if negb aggregate_final
                     then executeTotalsAndHaving this pa (has_having expressions)
                            (before_having expressions) aggregate_overflow_row
                     else if has_having expressions
                     then Ok (executeHaving this pa (before_having expressions))
                     else Ok pa)).
      { destruct (negb aggregate_final);
          [now apply outcome_executeTotalsAndHaving |].
        destruct (has_having expressions); [now apply main_transform | exact A]. }
      destruct (if negb aggregate_final
                then executeTotalsAndHaving this pa (has_having expressions)
                       (before_having expressions) aggregate_overflow_row
                else if has_having expressions
                then Ok (executeHaving this pa (before_having expressions))
                else Ok pa) as [pb | code message]; cbn [bind]; [| exact B].
      cbn in B. apply main_executeDistinct. now apply main_transform.
    - pose proof (outcome_executeTotalsAndHaving this p false None
                    aggregate_overflow_row false H) as T.
      destruct (group_by_with_totals (query this) && negb aggregate_final);
        [| exact H].
      destruct (executeTotalsAndHaving this p false None aggregate_overflow_row)
        as [pt | code message]; cbn [bind]; exact T. }
  intros pass p1 H1. cbn beta iota.
  apply order_part.
  { destruct (has_order_by expressions); [| exact H1].
    match goal with |- context [if ?c then _ else _] => destruct c end;
      [now apply outcome_executeMergeSorted | now apply outcome_executeOrder]. }
  intros p2 H2. unfold post.
  set (p3 := if present (limit_length (query this)) && hasMoreThanOneStream p2
                && negb (distinct (query this)) && negb (has_limit_by expressions)
                && negb (extremes (settings (context this)))
             then executePreLimit this p2 else p2).
  assert (H3 : streams p3 <> []).
  { subst p3. match goal with |- context [if ?c then _ else _] => destruct c end;
      [now apply main_executePreLimit | exact H2]. }
  set (merge := pass || present (limit_length (query this))
                || present (limit_by_expression_list (query this))
                || negb (size (streams_with_non_joined_data p3) =? 0)).
  set (p4 := if merge then executeUnion this p3 else p3).
  assert (H4 : streams p4 <> []).
  { subst p4. destruct merge; [now apply main_executeUnion | exact H3]. }
  set (p5 := if pass then executeDistinct isGroupedOutput this p4 false
                            (selected_columns expressions) else p4).
  assert (H5 : streams p5 <> []).
  { subst p5. destruct pass; [now apply main_executeDistinct | exact H4]. }
  set (p6 := if has_limit_by expressions
             then executeLimitBy this
                    (executeExpression p5 (before_limit_by expressions))
             else p5).
  assert (H6 : streams p6 <> []).
  { subst p6. destruct (has_limit_by expressions); [| exact H5].
    apply main_executeLimitBy. unfold executeExpression. now apply main_transform. }
  split.
  { apply main_executeLimit, main_executeExtremes.
    unfold executeProjection. now apply main_transform. }
  intros L.
  assert (S4 : exists s, p4 = {| streams := [s]; streams_with_non_joined_data := [] |}).
  { subst p4 merge. rewrite L, orb_true_r. cbn [orb].
    apply executeUnion_single. now apply main_chain_count. }
  assert (S5 : exists s, p5 = {| streams := [s]; streams_with_non_joined_data := [] |}).
  { subst p5. destruct pass; [now apply single_executeDistinct | exact S4]. }
  assert (S6 : exists s, p6 = {| streams := [s]; streams_with_non_joined_data := [] |}).
  { subst p6. destruct (has_limit_by expressions); [| exact S5].
    apply single_executeLimitBy. unfold executeExpression. now apply single_transform. }
  destruct (single_executeExtremes this
              (executeProjection p6 (final_projection expressions))) as [s E].
  { unfold executeProjection. now apply single_transform. }
  rewrite E. now exists s.
Qed.

Lemma outcome_executeSecondStage (this : InterpreterSelectQuery)
    (expressions : AnalysisResult) (p : Pipeline)
    (aggregate_overflow_row aggregate_final : bool) :
  streams p <> [] ->
  step_outcome (need_aggregate expressions)
    (executeSecondStage getHeader isGroupedOutput isProfiling this expressions p
       aggregate_overflow_row aggregate_final).
Proof.
  intros H.
  pose proof (executeSecondStage_post this expressions p aggregate_overflow_row
                aggregate_final H) as P.
  destruct (executeSecondStage getHeader isGroupedOutput isProfiling this expressions p
              aggregate_overflow_row aggregate_final); [exact (proj1 P) | exact P].
Qed.

(** *** What the chains read from *)

Lemma leaves_map (f : BlockInputStream -> BlockInputStream) (l : BlockInputStreams) :
  (forall stream, leaves (f stream) = leaves stream) ->
  flat_map leaves (map f l) = flat_map leaves l.
Proof.
  intros H. induction l as [|a l IH]; [reflexivity |].
  cbn [map flat_map]. now rewrite H, IH.
Qed.

Lemma leaves_in_transform (f : BlockInputStream -> BlockInputStream) (p : Pipeline) :
  (forall stream, leaves (f stream) = leaves stream) ->
  leaves_in (transform f p) = leaves_in p.
Proof.
  intros H; unfold leaves_in, transform; cbn [streams streams_with_non_joined_data].
  now rewrite !leaves_map.
Qed.

Lemma leaves_in_executeUnion (this : InterpreterSelectQuery) (p : Pipeline) :
  leaves_in (executeUnion this p) = leaves_in p.
Proof.
  destruct (N.eq_dec (chain_count p) 0) as [Z | NZ];
    [now rewrite executeUnion_none |].
  destruct (N.eq_dec (chain_count p) 1) as [E | NE].
  - destruct (executeUnion_one this p E) as [s [(_ & _ & ->) | (Hs & Hn & ->)]];
      [reflexivity |].
    unfold leaves_in; rewrite Hs, Hn; cbn. now rewrite !app_nil_r.
  - rewrite executeUnion_many by lia.
    unfold union_of, leaves_in; cbn. now rewrite !app_nil_r.
Qed.

(** Replacing the first chain by an operator over it. *)
Lemma leaves_in_set_firstStream (p p' : Pipeline) (first op : BlockInputStream) :
  firstStream p = Ok first ->
  set_firstStream p op = Ok p' ->
  leaves op = leaves first ->
  leaves_in p' = leaves_in p.
Proof.
  unfold firstStream, set_firstStream, leaves_in.
  destruct (streams p) as [|s rest]; [discriminate |].
  intros [= <-] [= <-] E; cbn. now rewrite E.
Qed.

Lemma leaves_in_executeOrder (this : InterpreterSelectQuery) (p p' : Pipeline) :
  executeOrder this p = Ok p' -> leaves_in p' = leaves_in p.
Proof.
  unfold executeOrder; intros H.
  apply bind_Ok in H as [first [Hf H]].
  rewrite (leaves_in_set_firstStream _ _ _ _ Hf H) by reflexivity.
  rewrite leaves_in_executeUnion. now apply leaves_in_transform.
Qed.

Lemma leaves_in_executeMergeSorted (this : InterpreterSelectQuery) (p p' : Pipeline) :
  executeMergeSorted this p = Ok p' -> leaves_in p' = leaves_in p.
Proof.
  unfold executeMergeSorted.
  destruct (hasMoreThanOneStream p); [| now intros [= <-]].
  intros H. apply bind_Ok in H as [q [Hq H]]. injection H as <-.
  rewrite <- (leaves_in_transform AsynchronousBlockInputStream p) by reflexivity.
  unfold set_firstStream in Hq.
  destruct (streams (transform AsynchronousBlockInputStream p)) as [|s rest] eqn:E;
    [discriminate |].
  injection Hq as <-.
  unfold leaves_in; rewrite E; cbn. now rewrite !app_nil_r.
Qed.

Lemma leaves_in_executeMergeAggregated (this : InterpreterSelectQuery) (p p' : Pipeline)
    (overflow_row final : bool) :
  executeMergeAggregated getHeader this p overflow_row final = Ok p' ->
  leaves_in p' = leaves_in p.
Proof.
  unfold executeMergeAggregated; intros H.
  destruct (getAggregateInfo (query_analyzer this)) as [key_names descrs].
  apply bind_Ok in H as [first [_ H]].
  apply bind_Ok in H as [keys [_ H]].
  destruct (negb (distributed_aggregation_memory_efficient (settings (context this)))).
  - apply bind_Ok in H as [first' [Hf H]].
    rewrite (leaves_in_set_firstStream _ _ _ _ Hf H) by reflexivity.
    apply leaves_in_executeUnion.
  - injection H as <-. unfold leaves_in; cbn. now rewrite !app_nil_r.
Qed.

Lemma leaves_in_executeTotalsAndHaving (this : InterpreterSelectQuery) (p p' : Pipeline)
    (has_having_ : bool) (expression : ExpressionActionsPtr) (overflow_row : bool) :
  executeTotalsAndHaving this p has_having_ expression overflow_row = Ok p' ->
  leaves_in p' = leaves_in p.
Proof.
  unfold executeTotalsAndHaving; intros H.
  apply bind_Ok in H as [first [Hf H]].
  rewrite (leaves_in_set_firstStream _ _ _ _ Hf H) by reflexivity.
  apply leaves_in_executeUnion.
Qed.

Lemma leaves_in_executeDistinct (this : InterpreterSelectQuery) (p : Pipeline)
    (before_order : bool) (columns : Names) :
  leaves_in (executeDistinct isGroupedOutput this p before_order columns) = leaves_in p.
Proof.
  unfold executeDistinct.
  destruct (distinct (query this)); [| reflexivity].
  destruct (getLimitLengthAndOffset (query this)).
  apply leaves_in_transform; intros stream.
  now destruct (isGroupedOutput stream).
Qed.

Lemma leaves_in_executePreLimit (this : InterpreterSelectQuery) (p : Pipeline) :
  leaves_in (executePreLimit this p) = leaves_in p.
Proof.
  unfold executePreLimit. destruct (getLimitLengthAndOffset (query this)).
  destruct (present (limit_length (query this))); [| reflexivity].
  now apply leaves_in_transform.
Qed.

Lemma leaves_in_executeLimit (this : InterpreterSelectQuery) (p : Pipeline) :
  leaves_in (executeLimit this p) = leaves_in p.
Proof.
  unfold executeLimit. destruct (getLimitLengthAndOffset (query this)).
  destruct (present (limit_length (query this))); [| reflexivity].
  now apply leaves_in_transform.
Qed.

Lemma leaves_in_executeLimitBy (this : InterpreterSelectQuery) (p : Pipeline) :
  leaves_in (executeLimitBy this p) = leaves_in p.
Proof.
  unfold executeLimitBy.
  destruct (limit_by_value (query this)), (limit_by_expression_list (query this));
    try reflexivity.
  now apply leaves_in_transform.
Qed.

Lemma leaves_in_executeExtremes (this : InterpreterSelectQuery) (p : Pipeline) :
  leaves_in (executeExtremes isProfiling this p) = leaves_in p.
Proof.
  unfold executeExtremes.
  destruct (negb (extremes (settings (context this)))); [reflexivity |].
  apply leaves_in_transform; intros stream. now destruct (isProfiling stream).
Qed.

(** The second stage keeps what the chains read from, and its order. *)
Lemma leaves_in_executeSecondStage (this : InterpreterSelectQuery)
    (expressions : AnalysisResult) (p p' : Pipeline)
    (aggregate_overflow_row aggregate_final : bool) :
  executeSecondStage getHeader isGroupedOutput isProfiling this expressions p
    aggregate_overflow_row aggregate_final = Ok p' ->
  leaves_in p' = leaves_in p.
Proof.
  intros H; unfold executeSecondStage in H.
  apply bind_Ok in H as [[pass p1] [H1 H]].
  assert (T1 : leaves_in p1 = leaves_in p).
  { destruct (need_aggregate expressions).
    - apply bind_Ok in H1 as [pa [Ha H1]].
      apply bind_Ok in H1 as [pb [Hb H1]].
      injection H1 as _ <-.
      rewrite leaves_in_executeDistinct. unfold executeExpression.
      rewrite leaves_in_transform by reflexivity.
      assert (Tb : leaves_in pb = leaves_in pa).
      { destruct (negb aggregate_final);
          [now apply leaves_in_executeTotalsAndHaving in Hb |].
        destruct (has_having expressions); injection Hb as <-; [| reflexivity].
        now apply leaves_in_transform. }
      rewrite Tb.
      destruct (negb (first_stage expressions)); [| now injection Ha as <-].
      now apply leaves_in_executeMergeAggregated in Ha.
    - apply bind_Ok in H1 as [pt [Ht H1]]. injection H1 as _ <-.
      destruct (group_by_with_totals (query this) && negb aggregate_final);
        [| now injection Ht as <-].
      now apply leaves_in_executeTotalsAndHaving in Ht. }
  apply bind_Ok in H as [p2 [H2 H]]. injection H as <-.
  assert (T2 : leaves_in p2 = leaves_in p1).
  { destruct (has_order_by expressions); [| now injection H2 as <-].
    match type of H2 with (if ?c then _ else _) = _ => destruct c end.
    - now apply leaves_in_executeMergeSorted in H2.
    - now apply leaves_in_executeOrder in H2. }
  rewrite leaves_in_executeLimit, leaves_in_executeExtremes.
  unfold executeProjection. rewrite leaves_in_transform by reflexivity.
  set (p3 := if present (limit_length (query this)) && hasMoreThanOneStream p2
                && negb (distinct (query this)) && negb (has_limit_by expressions)
                && negb (extremes (settings (context this)))
             then executePreLimit this p2 else p2).
  assert (T3 : leaves_in p3 = leaves_in p2).
  { subst p3. match goal with |- context [if ?c then _ else _] => destruct c end;
      [apply leaves_in_executePreLimit | reflexivity]. }
  set (p4 := if pass || present (limit_length (query this))
                || present (limit_by_expression_list (query this))
                || negb (size (streams_with_non_joined_data p3) =? 0)
             then executeUnion this p3 else p3).
  assert (T4 : leaves_in p4 = leaves_in p3).
  { subst p4. match goal with |- context [if ?c then _ else _] => destruct c end;
      [apply leaves_in_executeUnion | reflexivity]. }
  set (p5 := if pass then executeDistinct isGroupedOutput this p4 false
                            (selected_columns expressions) else p4).
  assert (T5 : leaves_in p5 = leaves_in p4).
  { subst p5. destruct pass; [apply leaves_in_executeDistinct | reflexivity]. }
  rewrite <- T1, <- T2, <- T3, <- T4, <- T5.
  destruct (has_limit_by expressions); [| reflexivity].
  rewrite leaves_in_executeLimitBy. unfold executeExpression.
  now apply leaves_in_transform.
Qed.

(** X18. Under LIMIT the second stage, over a pipeline with a main chain,
    leaves one chain and an empty side channel: the result is
    [executeLimit] applied to a pipeline of one chain, so that the chain
    of the result is the LIMIT operator with the length and the offset of
    the query, and what is below that operator reads exactly what the
    chains of the input read from, main and side, in their order: the
    final LIMIT is the top operator, over the merge of all chains. *)
Theorem executeSecondStage_limit (this : InterpreterSelectQuery)
    (expressions : AnalysisResult) (p p' : Pipeline)
    (aggregate_overflow_row aggregate_final : bool) :
  present (limit_length (query this)) = true ->
  streams p <> [] ->
  executeSecondStage getHeader isGroupedOutput isProfiling this expressions p
    aggregate_overflow_row aggregate_final = Ok p' ->
  exists below,
    p' = executeLimit this {| streams := [below]; streams_with_non_joined_data := [] |}
    /\ (exists always_read_till_end,
          p' = {| streams :=
                    [LimitBlockInputStream below
                       (fst (getLimitLengthAndOffset (query this)))
                       (snd (getLimitLengthAndOffset (query this)))
                       always_read_till_end];
                  streams_with_non_joined_data := [] |})
    /\ leaves below = leaves_in p.
Proof.
  intros L H E.
  pose proof (executeSecondStage_post this expressions p aggregate_overflow_row
                aggregate_final H) as P.
  rewrite E in P. destruct (proj2 P L) as [below B].
  exists below. split; [exact B |].
  pose proof (leaves_in_executeSecondStage this expressions p p'
                aggregate_overflow_row aggregate_final E) as T.
  rewrite B in T |- *. unfold executeLimit in T |- *. rewrite L in T |- *.
  destruct (getLimitLengthAndOffset (query this)) as [len off].
  cbn [fst snd]. split.
  - eexists. reflexivity.
  - rewrite <- T. unfold leaves_in, transform; cbn. now rewrite !app_nil_r.
Qed.

(** X19. Over a pipeline with a main chain the steps of the stages throw
    nothing but NOT_FOUND_COLUMN_IN_BLOCK, and that only for a query that
    aggregates (a key or an argument of an aggregate function missing from
    the header); the pipeline they give has a main chain.  For a query
    that does not aggregate they always give a pipeline. *)
Theorem executeStages_failures (this : InterpreterSelectQuery)
    (from : QueryProcessingStage.Enum) (p : Pipeline) :
  streams p <> [] ->
  match stages this from p with
  | Ok p' => streams p' <> []
  | Throw code _ =>
      hasAggregation (query_analyzer this) = true /\ code = NOT_FOUND_COLUMN_IN_BLOCK
  end
  /\ (hasAggregation (query_analyzer this) = false ->
      exists p', stages this from p = Ok p').
Proof.
  intros H.
  assert (main : step_outcome (hasAggregation (query_analyzer this))
                   (stages this from p)).
  { unfold executeStages.
    set (expressions := analyzeExpressions this from).
    change (hasAggregation (query_analyzer this)) with (need_aggregate expressions).
    apply step_outcome_bind.
    - destruct (QueryProcessingStage.gtb (to_stage this)
                  QueryProcessingStage.FetchColumns); [| exact H].
      apply step_outcome_bind.
      + destruct (first_stage expressions);
          [now apply outcome_executeFirstStage | exact H].
      + intros p1 H1. destruct (second_stage expressions);
          [now apply outcome_executeSecondStage | exact H1].
    - intros p1 H1.
      destruct (negb (size (subqueries_for_sets expressions) =? 0)); [| exact H1].
      unfold executeSubqueriesInSetsAndJoins.
      destruct (executeUnion_single this p1 (main_chain_count p1 H1)) as [s ->].
      cbn. discriminate. }
  split; [exact main |].
  intros A. rewrite A in main.
  destruct (stages this from p) as [p' | code message]; [now exists p' |].
  destruct main as [F _]; discriminate F.
Qed.

Lemma totals_in_executeSecondStage_with_totals (this : InterpreterSelectQuery)
    (expressions : AnalysisResult) (p p' : Pipeline) (aggregate_overflow_row : bool) :
  group_by_with_totals (query this) = true ->
  executeSecondStage getHeader isGroupedOutput isProfiling this expressions p
    aggregate_overflow_row false = Ok p' ->
  totals_in p' = S (totals_in p).
Proof.
  intros T H; unfold executeSecondStage in H; rewrite T in H. cbn [negb andb] in H.
  apply bind_Ok in H as [[pass p1] [H1 H]].
  assert (T1 : totals_in p1 = S (totals_in p)).
  { destruct (need_aggregate expressions).
    - apply bind_Ok in H1 as [pa [Ha H1]].
      apply bind_Ok in H1 as [pb [Hb H1]].
      injection H1 as _ <-.
      rewrite totals_in_executeDistinct. unfold executeExpression.
      rewrite totals_in_transform by reflexivity.
      apply totals_in_executeTotalsAndHaving in Hb. rewrite Hb. f_equal.
      destruct (negb (first_stage expressions)); [| now injection Ha as <-].
      now apply totals_in_executeMergeAggregated in Ha.
    - apply bind_Ok in H1 as [pt [Ht H1]]. injection H1 as _ <-.
      now apply totals_in_executeTotalsAndHaving in Ht. }
  apply bind_Ok in H as [p2 [H2 H]]. injection H as <-.
  assert (T2 : totals_in p2 = totals_in p1).
  { destruct (has_order_by expressions); [| now injection H2 as <-].
    match type of H2 with (if ?c then _ else _) = _ => destruct c end.
    - now apply totals_in_executeMergeSorted in H2.
    - now apply totals_in_executeOrder in H2. }
  rewrite totals_in_executeLimit, totals_in_executeExtremes.
  unfold executeProjection; rewrite totals_in_transform by reflexivity.
  set (p3 := if present (limit_length (query this)) && hasMoreThanOneStream p2
                && negb (distinct (query this)) && negb (has_limit_by expressions)
                && negb (extremes (settings (context this)))
             then executePreLimit this p2 else p2).
  assert (T3 : totals_in p3 = totals_in p2).
  { subst p3. match goal with |- context [if ?c then _ else _] => destruct c end;
      [apply totals_in_executePreLimit | reflexivity]. }
  set (p4 := if pass || present (limit_length (query this))
                || present (limit_by_expression_list (query this))
                || negb (size (streams_with_non_joined_data p3) =? 0)
             then executeUnion this p3 else p3).
  assert (T4 : totals_in p4 = totals_in p3).
  { subst p4. match goal with |- context [if ?c then _ else _] => destruct c end;
      [apply totals_in_executeUnion | reflexivity]. }
  set (p5 := if pass then executeDistinct isGroupedOutput this p4 false
                            (selected_columns expressions) else p4).
  assert (T5 : totals_in p5 = totals_in p4).
  { subst p5. destruct pass; [apply totals_in_executeDistinct | reflexivity]. }
  rewrite <- T1, <- T2, <- T3, <- T4, <- T5.
  destruct (has_limit_by expressions); [| reflexivity].
  rewrite totals_in_executeLimitBy. unfold executeExpression.
  now apply totals_in_transform.
Qed.

(** X20. For a query WITH TOTALS the steps of the stages add exactly one
    operator that computes totals when the second stage runs, whether the
    query aggregates or not, and none when it does not run (a remote
    server that stops at the mergeable state leaves the totals to the
    initiator). *)
Theorem executeStages_totals_once (this : InterpreterSelectQuery)
    (from : QueryProcessingStage.Enum) (p p' : Pipeline) :
  group_by_with_totals (query this) = true ->
  stages this from p = Ok p' ->
  totals_in p'
  = (if second_stage (analyzeExpressions this from)
     then S (totals_in p) else totals_in p).
Proof.
  intros T H; unfold executeStages in H.
  apply bind_Ok in H as [p1 [H1 H]].
  assert (T0 : totals_in p' = totals_in p1).
  { destruct (negb (size (subqueries_for_sets (analyzeExpressions this from)) =? 0));
      [| now injection H as <-].
    now apply totals_in_executeSubqueriesInSetsAndJoins in H. }
  rewrite T0. clear H T0.
  destruct (QueryProcessingStage.gtb (to_stage this) QueryProcessingStage.FetchColumns)
    eqn:G.
  - apply bind_Ok in H1 as [pa [Ha H1]].
    assert (Ta : totals_in pa = totals_in p).
    { destruct (first_stage (analyzeExpressions this from)); [| now injection Ha as <-].
      now apply totals_in_executeFirstStage in Ha. }
    rewrite <- Ta.
    destruct (second_stage (analyzeExpressions this from));
      [| now injection H1 as <-].
    rewrite T in H1. cbn [negb] in H1. rewrite !andb_false_r in H1.
    now apply totals_in_executeSecondStage_with_totals in H1.
  - injection H1 as <-.
    unfold analyzeExpressions; cbn [second_stage].
    destruct (to_stage this); try discriminate G.
    now rewrite andb_false_r.
Qed.

(** ** Programs analysed for their types only *)

(** Closes an equation between numbers of operators with a dry program. *)
Ltac count_dry :=
  unfold dry_in in *; cbn in *; unfold list_sum in *;
  rewrite ?map_app, ?fold_right_app in *; cbn in *; lia.

Lemma dry_in_transform (f : BlockInputStream -> BlockInputStream) (p : Pipeline) :
  (forall stream, dry_operators (f stream) = dry_operators stream) ->
  dry_in (transform f p) = dry_in p.
Proof.
  intros H; unfold dry_in, transform; cbn [streams streams_with_non_joined_data].
  rewrite !map_map.
  now rewrite (map_ext _ _ H (streams p)), (map_ext _ _ H (streams_with_non_joined_data p)).
Qed.

Lemma dry_in_executeExpression (p : Pipeline) (expression : ExpressionActionsPtr) :
  dry expression = 0%nat -> dry_in (executeExpression p expression) = dry_in p.
Proof.
  intros D. apply dry_in_transform. intros stream; cbn. now rewrite D.
Qed.

Lemma dry_in_executeUnion (this : InterpreterSelectQuery) (p : Pipeline) :
  dry_in (executeUnion this p) = dry_in p.
Proof.
  destruct (N.eq_dec (chain_count p) 0) as [Z | NZ];
    [now rewrite executeUnion_none |].
  destruct (N.eq_dec (chain_count p) 1) as [E | NE].
  - destruct (executeUnion_one this p E) as [s [(_ & _ & ->) | (Hs & Hn & ->)]];
      [reflexivity |].
    unfold dry_in; rewrite Hs, Hn; count_dry.
  - rewrite executeUnion_many by lia.
    unfold union_of; count_dry.
Qed.

Lemma dry_in_set_firstStream (p p' : Pipeline) (first op : BlockInputStream) :
  firstStream p = Ok first ->
  set_firstStream p op = Ok p' ->
  (dry_in p' + dry_operators first = dry_in p + dry_operators op)%nat.
Proof.
  unfold firstStream, set_firstStream, dry_in.
  destruct (streams p) as [|s rest]; [discriminate |].
  intros [= <-] [= <-]; count_dry.
Qed.

Lemma dry_in_executeOrder (this : InterpreterSelectQuery) (p p' : Pipeline) :
  executeOrder this p = Ok p' -> dry_in p' = dry_in p.
Proof.
  unfold executeOrder; intros H.
  apply bind_Ok in H as [first [Hf H]].
  pose proof (dry_in_set_firstStream _ _ _ _ Hf H) as T; cbn in T.
  rewrite dry_in_executeUnion, dry_in_transform in T by reflexivity. lia.
Qed.

Lemma dry_in_executeMergeSorted (this : InterpreterSelectQuery) (p p' : Pipeline) :
  executeMergeSorted this p = Ok p' -> dry_in p' = dry_in p.
Proof.
  unfold executeMergeSorted.
  destruct (hasMoreThanOneStream p); [| now intros [= <-]].
  intros H. apply bind_Ok in H as [q [Hq H]]. injection H as <-.
  rewrite <- (dry_in_transform AsynchronousBlockInputStream p) by reflexivity.
  unfold set_firstStream in Hq.
  destruct (streams (transform AsynchronousBlockInputStream p)) as [|s rest] eqn:E;
    [discriminate |].
  injection Hq as <-.
  unfold dry_in; rewrite E; count_dry.
Qed.

Lemma dry_in_executeAggregation (this : InterpreterSelectQuery) (p p' : Pipeline)
    (expression : ExpressionActionsPtr) (overflow_row final : bool) :
  dry expression = 0%nat ->
  executeAggregation getHeader this p expression overflow_row final = Ok p' ->
  dry_in p' = dry_in p.
Proof.
  unfold executeAggregation; intros D H.
  destruct (getAggregateInfo (query_analyzer this)) as [key_names descrs].
  apply bind_Ok in H as [first [_ H]].
  apply bind_Ok in H as [keys [_ H]].
  apply bind_Ok in H as [aggregates [_ H]].
  rewrite <- (dry_in_executeExpression p expression D). unfold executeExpression.
  set (q := transform (fun stream => ExpressionBlockInputStream stream expression) p) in *.
  destruct ((1 <? size (streams q)) || (1 <? size (streams_with_non_joined_data q)))
    eqn:M.
  - injection H as <-. count_dry.
  - apply orb_false_iff in M as [M1 M2]. apply N.ltb_ge in M1, M2.
    rewrite !firstn_1_all in H by assumption.
    injection H as <-.
    unfold dry_in; cbn [streams streams_with_non_joined_data map dry_operators].
    rewrite map_app, list_sum_app. subst q; unfold transform, list_sum.
    cbn [fold_right streams streams_with_non_joined_data]. lia.
Qed.

Lemma dry_in_executeMergeAggregated (this : InterpreterSelectQuery) (p p' : Pipeline)
    (overflow_row final : bool) :
  executeMergeAggregated getHeader this p overflow_row final = Ok p' ->
  dry_in p' = dry_in p.
Proof.
  unfold executeMergeAggregated; intros H.
  destruct (getAggregateInfo (query_analyzer this)) as [key_names descrs].
  apply bind_Ok in H as [first [_ H]].
  apply bind_Ok in H as [keys [_ H]].
  destruct (negb (distributed_aggregation_memory_efficient (settings (context this)))).
  - apply bind_Ok in H as [first' [Hf H]].
    pose proof (dry_in_set_firstStream _ _ _ _ Hf H) as T; cbn in T.
    rewrite dry_in_executeUnion in T. lia.
  - injection H as <-. count_dry.
Qed.

Lemma dry_in_executeDistinct (this : InterpreterSelectQuery) (p : Pipeline)
    (before_order : bool) (columns : Names) :
  dry_in (executeDistinct isGroupedOutput this p before_order columns) = dry_in p.
Proof.
  unfold executeDistinct.
  destruct (distinct (query this)); [| reflexivity].
  destruct (getLimitLengthAndOffset (query this)).
  apply dry_in_transform; intros stream.
  now destruct (isGroupedOutput stream).
Qed.

Lemma dry_in_executePreLimit (this : InterpreterSelectQuery) (p : Pipeline) :
  dry_in (executePreLimit this p) = dry_in p.
Proof.
  unfold executePreLimit. destruct (getLimitLengthAndOffset (query this)).
  destruct (present (limit_length (query this))); [| reflexivity].
  now apply dry_in_transform.
Qed.

Lemma dry_in_executeLimit (this : InterpreterSelectQuery) (p : Pipeline) :
  dry_in (executeLimit this p) = dry_in p.
Proof.
  unfold executeLimit. destruct (getLimitLengthAndOffset (query this)).
  destruct (present (limit_length (query this))); [| reflexivity].
  now apply dry_in_transform.
Qed.

Lemma dry_in_executeLimitBy (this : InterpreterSelectQuery) (p : Pipeline) :
  dry_in (executeLimitBy this p) = dry_in p.
Proof.
  unfold executeLimitBy.
  destruct (limit_by_value (query this)), (limit_by_expression_list (query this));
    try reflexivity.
  now apply dry_in_transform.
Qed.

Lemma dry_in_executeExtremes (this : InterpreterSelectQuery) (p : Pipeline) :
  dry_in (executeExtremes isProfiling this p) = dry_in p.
Proof.
  unfold executeExtremes.
  destruct (negb (extremes (settings (context this)))); [reflexivity |].
  apply dry_in_transform; intros stream. now destruct (isProfiling stream).
Qed.

Lemma dry_in_executeSubqueriesInSetsAndJoins (this : InterpreterSelectQuery)
    (p p' : Pipeline) (sets : list SubqueryForSet) :
  executeSubqueriesInSetsAndJoins this p sets = Ok p' -> dry_in p' = dry_in p.
Proof.
  unfold executeSubqueriesInSetsAndJoins; intros H.
  apply bind_Ok in H as [first [Hf H]].
  pose proof (dry_in_set_firstStream _ _ _ _ Hf H) as T; cbn in T.
  rewrite dry_in_executeUnion in T. lia.
Qed.

Lemma dry_in_executeTotalsAndHaving (this : InterpreterSelectQuery) (p p' : Pipeline)
    (has_having_ : bool) (expression : ExpressionActionsPtr) (overflow_row : bool) :
  dry expression = 0%nat ->
  executeTotalsAndHaving this p has_having_ expression overflow_row = Ok p' ->
  dry_in p' = dry_in p.
Proof.
  unfold executeTotalsAndHaving; intros D H.
  apply bind_Ok in H as [first [Hf H]].
  pose proof (dry_in_set_firstStream _ _ _ _ Hf H) as T; cbn in T.
  rewrite dry_in_executeUnion in T. lia.
Qed.

Lemma dry_in_executeFirstStage (this : InterpreterSelectQuery)
    (expressions : AnalysisResult) (p p' : Pipeline)
    (aggregate_overflow_row aggregate_final : bool) :
  dry (before_join expressions) = 0%nat ->
  dry (before_where expressions) = 0%nat ->
  dry (before_aggregation expressions) = 0%nat ->
  (need_aggregate expressions = false ->
   dry (before_order_and_select expressions) = 0%nat) ->
  executeFirstStage getHeader isGroupedOutput this expressions p aggregate_overflow_row
    aggregate_final = Ok p' ->
  dry_in p' = dry_in p.
Proof.
  unfold executeFirstStage; intros Dj Dw Da Ds H.
  apply bind_Ok in H as [p1 [H1 H]].
  assert (T1 : dry_in p1 = dry_in p).
  { destruct (has_join expressions); [| now injection H1 as <-].
    apply bind_Ok in H1 as [non_joined [Hn H1]]. injection H1 as <-.
    assert (Z : list_sum (map dry_operators non_joined) = 0%nat).
    { destruct (join (query this)) as [[] |]; try (now injection Hn as <-);
        apply bind_Ok in Hn as [first [_ Hn]]; injection Hn as <-; cbn; lia. }
    unfold dry_in; cbn [streams streams_with_non_joined_data].
    rewrite map_map, map_app, list_sum_app, Z.
    rewrite (map_ext (fun stream =>
                        dry_operators
                          (ExpressionBlockInputStream stream (before_join expressions)))
               dry_operators);
      [lia | intros stream; cbn; now rewrite Dj]. }
  apply bind_Ok in H as [p2 [H2 H]].
  assert (T2 : dry_in p2 = dry_in p).
  { rewrite <- T1.
    assert (W : dry_in (if has_where expressions
                        then executeWhere this p1 (before_where expressions)
                        else p1) = dry_in p1).
    { destruct (has_where expressions); [| reflexivity].
      apply dry_in_transform. intros stream; cbn. now rewrite Dw. }
    rewrite <- W.
    destruct (need_aggregate expressions).
    - now apply dry_in_executeAggregation in H2.
    - injection H2 as <-. rewrite dry_in_executeDistinct.
      now apply dry_in_executeExpression, Ds. }
  rewrite <- T2.
  destruct (negb (second_stage expressions) && negb (need_aggregate expressions)
            && negb (has_having expressions)); [| now injection H as <-].
  apply bind_Ok in H as [p3 [H3 H]]. injection H as <-.
  assert (T3 : dry_in p3 = dry_in p2).
  { destruct (has_order_by expressions); [| now injection H3 as <-].
    now apply dry_in_executeOrder in H3. }
  rewrite <- T3.
  destruct (present (limit_length (query this)));
    rewrite ?dry_in_executePreLimit;
    destruct (has_order_by expressions); cbn [andb];
    rewrite ?dry_in_executeDistinct; reflexivity.
Qed.

Lemma dry_in_executeSecondStage (this : InterpreterSelectQuery)
    (expressions : AnalysisResult) (p p' : Pipeline)
    (aggregate_overflow_row aggregate_final : bool) :
  dry (before_having expressions) = 0%nat ->
  (need_aggregate expressions = true ->
   dry (before_order_and_select expressions) = 0%nat) ->
  dry (before_limit_by expressions) = 0%nat ->
  dry (final_projection expressions) = 0%nat ->
  executeSecondStage getHeader isGroupedOutput isProfiling this expressions p
    aggregate_overflow_row aggregate_final = Ok p' ->
  dry_in p' = dry_in p.
Proof.
  intros Dh Ds Dl Dp H; unfold executeSecondStage in H.
  apply bind_Ok in H as [[pass p1] [H1 H]].
  assert (T1 : dry_in p1 = dry_in p).
  { destruct (need_aggregate expressions).
    - apply bind_Ok in H1 as [pa [Ha H1]].
      apply bind_Ok in H1 as [pb [Hb H1]].
      injection H1 as _ <-.
      rewrite dry_in_executeDistinct, dry_in_executeExpression by now apply Ds.
      assert (Tb : dry_in pb = dry_in pa).
      { destruct (negb aggregate_final);
          [now apply dry_in_executeTotalsAndHaving in Hb |].
        destruct (has_having expressions); injection Hb as <-; [| reflexivity].
        apply dry_in_transform. intros stream; cbn. now rewrite Dh. }
      rewrite Tb.
      destruct (negb (first_stage expressions)); [| now injection Ha as <-].
      now apply dry_in_executeMergeAggregated in Ha.
    - apply bind_Ok in H1 as [pt [Ht H1]]. injection H1 as _ <-.
      destruct (group_by_with_totals (query this) && negb aggregate_final);
        [| now injection Ht as <-].
      now apply dry_in_executeTotalsAndHaving in Ht. }
  apply bind_Ok in H as [p2 [H2 H]]. injection H as <-.
  assert (T2 : dry_in p2 = dry_in p1).
  { destruct (has_order_by expressions); [| now injection H2 as <-].
    match type of H2 with (if ?c then _ else _) = _ => destruct c end.
    - now apply dry_in_executeMergeSorted in H2.
    - now apply dry_in_executeOrder in H2. }
  rewrite dry_in_executeLimit, dry_in_executeExtremes.
  unfold executeProjection.
  rewrite dry_in_transform by (intros stream; cbn; now rewrite Dp).
  set (p3 := if present (limit_length (query this)) && hasMoreThanOneStream p2
                && negb (distinct (query this)) && negb (has_limit_by expressions)
                && negb (extremes (settings (context this)))
             then executePreLimit this p2 else p2).
  assert (T3 : dry_in p3 = dry_in p2).
  { subst p3. match goal with |- context [if ?c then _ else _] => destruct c end;
      [apply dry_in_executePreLimit | reflexivity]. }
  set (p4 := if pass || present (limit_length (query this))
                || present (limit_by_expression_list (query this))
                || negb (size (streams_with_non_joined_data p3) =? 0)
             then executeUnion this p3 else p3).
  assert (T4 : dry_in p4 = dry_in p3).
  { subst p4. match goal with |- context [if ?c then _ else _] => destruct c end;
      [apply dry_in_executeUnion | reflexivity]. }
  set (p5 := if pass then executeDistinct isGroupedOutput this p4 false
                            (selected_columns expressions) else p4).
  assert (T5 : dry_in p5 = dry_in p4).
  { subst p5. destruct pass; [apply dry_in_executeDistinct | reflexivity]. }
  rewrite <- T1, <- T2, <- T3, <- T4, <- T5.
  destruct (has_limit_by expressions); [| reflexivity].
  rewrite dry_in_executeLimitBy. now apply dry_in_executeExpression.
Qed.

(** X21. No program that [analyzeExpressions] analysed for its types only
    reaches the pipeline: the steps of the stages add no operator with
    such a program, whatever the stages of the source and of the target
    (a stage that runs uses the programs that were analysed for running;
    the programs of a stage that does not run are left aside). *)
Theorem executeStages_no_dry_program (this : InterpreterSelectQuery)
    (from : QueryProcessingStage.Enum) (p p' : Pipeline) :
  stages this from p = Ok p' -> dry_in p' = dry_in p.
Proof.
  intros H; unfold executeStages in H.
  apply bind_Ok in H as [p1 [H1 H]].
  assert (T0 : dry_in p' = dry_in p1).
  { destruct (negb (size (subqueries_for_sets (analyzeExpressions this from)) =? 0));
      [| now injection H as <-].
    now apply dry_in_executeSubqueriesInSetsAndJoins in H. }
  rewrite T0. clear H T0.
  destruct (QueryProcessingStage.gtb (to_stage this) QueryProcessingStage.FetchColumns);
    [| now injection H1 as <-].
  apply bind_Ok in H1 as [pa [Ha H1]].
  assert (Ta : dry_in pa = dry_in p).
  { destruct (first_stage (analyzeExpressions this from)) eqn:F;
      [| now injection Ha as <-].
    unfold analyzeExpressions in F; cbn [first_stage] in F.
    apply dry_in_executeFirstStage in Ha; [exact Ha | | | |];
      unfold analyzeExpressions;
      cbn [before_join before_where before_aggregation before_order_and_select
           need_aggregate];
      rewrite ?F; cbn [negb].
    - now destruct (appendJoin (query_analyzer this)).
    - now destruct (appendWhere (query_analyzer this)).
    - now destruct (hasAggregation (query_analyzer this)).
    - now intros ->. }
  rewrite <- Ta.
  destruct (second_stage (analyzeExpressions this from)) eqn:S;
    [| now injection H1 as <-].
  unfold analyzeExpressions in S; cbn [second_stage] in S.
  apply dry_in_executeSecondStage in H1; [exact H1 | | | |];
    unfold analyzeExpressions;
    cbn [before_having before_limit_by before_order_and_select final_projection
         need_aggregate];
    rewrite ?S; cbn [negb].
  - now destruct (hasAggregation (query_analyzer this) && appendHaving (query_analyzer this)).
  - now intros ->.
  - now destruct (appendLimitBy (query_analyzer this)).
  - reflexivity.
Qed.

(** ** The side channel *)

Lemma no_side_transform (f : BlockInputStream -> BlockInputStream) (p : Pipeline) :
  streams_with_non_joined_data p = [] ->
  streams_with_non_joined_data (transform f p) = [].
Proof. unfold transform; cbn. now intros ->. Qed.

Lemma no_side_executeUnion (this : InterpreterSelectQuery) (p : Pipeline) :
  streams_with_non_joined_data p = [] \/ chain_count p <> 0 ->
  streams_with_non_joined_data (executeUnion this p) = [].
Proof.
  intros [E | C].
  - unfold executeUnion.
    destruct (chain_count p) as [|[q | q |]]; try reflexivity; try exact E.
    now destruct (size (streams p) =? 1).
  - now destruct (executeUnion_single this p C) as [s ->].
Qed.

Lemma no_side_executeDistinct (this : InterpreterSelectQuery) (p : Pipeline)
    (before_order : bool) (columns : Names) :
  streams_with_non_joined_data p = [] ->
  streams_with_non_joined_data
    (executeDistinct isGroupedOutput this p before_order columns) = [].
Proof.
  intros E. unfold executeDistinct.
  destruct (distinct (query this)); [| exact E].
  destruct (getLimitLengthAndOffset (query this)). now apply no_side_transform.
Qed.

Lemma no_side_executeLimitBy (this : InterpreterSelectQuery) (p : Pipeline) :
  streams_with_non_joined_data p = [] ->
  streams_with_non_joined_data (executeLimitBy this p) = [].
Proof.
  intros E. unfold executeLimitBy.
  destruct (limit_by_value (query this)); [| exact E].
  destruct (limit_by_expression_list (query this)); [| exact E].
  now apply no_side_transform.
Qed.

Lemma no_side_executeExtremes (this : InterpreterSelectQuery) (p : Pipeline) :
  streams_with_non_joined_data p = [] ->
  streams_with_non_joined_data (executeExtremes isProfiling this p) = [].
Proof.
  intros E. unfold executeExtremes.
  destruct (negb (extremes (settings (context this)))); [exact E |].
  now apply no_side_transform.
Qed.

Lemma no_side_executeLimit (this : InterpreterSelectQuery) (p : Pipeline) :
  streams_with_non_joined_data p = [] ->
  streams_with_non_joined_data (executeLimit this p) = [].
Proof.
  intros E. unfold executeLimit.
  destruct (getLimitLengthAndOffset (query this)).
  destruct (present (limit_length (query this))); [| exact E].
  now apply no_side_transform.
Qed.

Lemma no_side_executeSecondStage (this : InterpreterSelectQuery)
    (expressions : AnalysisResult) (p p' : Pipeline)
    (aggregate_overflow_row aggregate_final : bool) :
  executeSecondStage getHeader isGroupedOutput isProfiling this expressions p
    aggregate_overflow_row aggregate_final = Ok p' ->
  streams_with_non_joined_data p' = [].
Proof.
  intros H; unfold executeSecondStage in H.
  apply bind_Ok in H as [[pass p1] [_ H]].
  apply bind_Ok in H as [p2 [_ H]]. injection H as <-.
  apply no_side_executeLimit, no_side_executeExtremes.
  unfold executeProjection. apply no_side_transform.
  set (p3 := if present (limit_length (query this)) && hasMoreThanOneStream p2
                && negb (distinct (query this)) && negb (has_limit_by expressions)
                && negb (extremes (settings (context this)))
             then executePreLimit this p2 else p2).
  set (p4 := if pass || present (limit_length (query this))
                || present (limit_by_expression_list (query this))
                || negb (size (streams_with_non_joined_data p3) =? 0)
             then executeUnion this p3 else p3).
  assert (E4 : streams_with_non_joined_data p4 = []).
  { subst p4. destruct (size (streams_with_non_joined_data p3) =? 0) eqn:Z.
    - apply N.eqb_eq, size_0_iff in Z.
      match goal with |- context [if ?c then _ else _] => destruct c end;
        [apply no_side_executeUnion; now left | exact Z].
    - rewrite orb_true_r. apply no_side_executeUnion. right.
      apply N.eqb_neq in Z. unfold chain_count. lia. }
  set (p5 := if pass then executeDistinct isGroupedOutput this p4 false
                            (selected_columns expressions) else p4).
  assert (E5 : streams_with_non_joined_data p5 = []).
  { subst p5. destruct pass; [now apply no_side_executeDistinct | exact E4]. }
  destruct (has_limit_by expressions); [| exact E5].
  apply no_side_executeLimitBy. unfold executeExpression. now apply no_side_transform.
Qed.

(** X22. When the second stage runs, or the query has subqueries for sets
    or joins, the steps of the stages leave nothing in the side channel
    of the non-joined rows: all chains of the result are main chains, the
    ones that [executeWithMultipleStreams] returns. *)
Theorem executeStages_side_channel (this : InterpreterSelectQuery)
    (from : QueryProcessingStage.Enum) (p p' : Pipeline) :
  second_stage (analyzeExpressions this from) = true
  \/ getSubqueriesForSets (query_analyzer this) <> [] ->
  stages this from p = Ok p' ->
  streams_with_non_joined_data p' = [].
Proof.
  intros C H; unfold executeStages in H.
  apply bind_Ok in H as [p1 [H1 H]].
  change (subqueries_for_sets (analyzeExpressions this from))
    with (getSubqueriesForSets (query_analyzer this)) in H.
  destruct (size (getSubqueriesForSets (query_analyzer this)) =? 0) eqn:Z;
    cbn [negb] in H.
  - injection H as <-.
    destruct C as [S | N]; [| apply N.eqb_eq, size_0_iff in Z; contradiction].
    rewrite S in H1.
    destruct (QueryProcessingStage.gtb (to_stage this) QueryProcessingStage.FetchColumns)
      eqn:G.
    + apply bind_Ok in H1 as [pa [_ H1]].
      now apply no_side_executeSecondStage in H1.
    + unfold analyzeExpressions in S; cbn [second_stage] in S.
      destruct (to_stage this); try discriminate G.
      now rewrite andb_false_r in S.
  - unfold executeSubqueriesInSetsAndJoins in H.
    apply bind_Ok in H as [first [Hf H]].
    unfold firstStream in Hf. unfold set_firstStream in H.
    destruct (streams (executeUnion this p1)) as [|s rest] eqn:E; [discriminate |].
    injection H as <-. cbn [streams_with_non_joined_data].
    apply no_side_executeUnion. right. intros C0.
    rewrite (executeUnion_none this p1 C0) in E.
    unfold chain_count in C0. rewrite E, size_cons in C0. lia.
Qed.

(** X23. A first stage that is the last one (the target is the mergeable
    state of distributed processing) of a query with LIMIT, without
    aggregation and without HAVING, ends every chain in a preliminary
    LIMIT of length plus offset rows (modulo 2^64) from the first row:
    the offset of the query is not applied on the remote server. *)
Theorem executeFirstStage_remote_limit (this : InterpreterSelectQuery)
    (expressions : AnalysisResult) (p p' : Pipeline)
    (aggregate_overflow_row aggregate_final : bool) :
  second_stage expressions = false ->
  need_aggregate expressions = false ->
  has_having expressions = false ->
  present (limit_length (query this)) = true ->
  executeFirstStage getHeader isGroupedOutput this expressions p aggregate_overflow_row
    aggregate_final = Ok p' ->
  Forall (fun chain =>
            exists below,
              chain = LimitBlockInputStream below
                        (size_add (fst (getLimitLengthAndOffset (query this)))
                                  (snd (getLimitLengthAndOffset (query this))))
                        0 false)
         (streams p' ++ streams_with_non_joined_data p').
Proof.
  intros S A V L H; unfold executeFirstStage in H.
  rewrite S, A, V, L in H. cbn [negb andb] in H.
  apply bind_Ok in H as [p1 [_ H]].
  apply bind_Ok in H as [p2 [_ H]].
  apply bind_Ok in H as [p3 [_ H]]. injection H as <-.
  unfold executePreLimit. rewrite L.
  destruct (getLimitLengthAndOffset (query this)) as [len off]. cbn [fst snd].
  unfold transform; cbn [streams streams_with_non_joined_data].
  rewrite <- map_app. apply Forall_forall. intros chain I.
  apply in_map_iff in I as [below [<- _]]. now exists below.
Qed.

(** ** The entry points *)

(** X24. Over the pipeline that a build has left, [executeWithMultipleStreams]
    returns the main chains, and [execute] one operator for all chains,
    main and side: the only chain, or the union of several with the
    [max_streams] that the fetch has left; without any chain it throws out
    of range. *)
Theorem execute_over_chains (this this' : InterpreterSelectQuery) (p : Pipeline) :
  build this empty_pipeline (input this) false = Ok (p, this') ->
  executeWithMultipleStreams getHeader isGroupedOutput isProfiling
    newInterpreterSelectWithUnionQuery union_executeWithMultipleStreams
    union_getSampleBlock regionsOfRequest this = Ok (streams p)
  /\ match execute getHeader isGroupedOutput isProfiling
             newInterpreterSelectWithUnionQuery union_executeWithMultipleStreams
             union_getSampleBlock regionsOfRequest this with
     | Ok single =>
         streams p ++ streams_with_non_joined_data p = [single]
         \/ (1 < chain_count p
             /\ single = UnionBlockInputStream (streams p)
                           (streams_with_non_joined_data p) (max_streams this'))
     | Throw code _ => code = STD_OUT_OF_RANGE /\ chain_count p = 0
     end.
Proof.
  intros H. unfold executeWithMultipleStreams, execute. rewrite H. cbn [bind fst].
  split; [reflexivity |].
  destruct (N.eq_dec (chain_count p) 0) as [Z | NZ].
  - rewrite executeUnion_none by exact Z.
    unfold chain_count in Z.
    assert (E : streams p = []) by (apply size_0_iff; lia).
    unfold firstStream. rewrite E. now split.
  - destruct (N.eq_dec (chain_count p) 1) as [O | NO].
    + destruct (executeUnion_one this' p O) as [s [(Hs & Hn & ->) | (Hs & Hn & ->)]];
        unfold firstStream; rewrite ?Hs, ?Hn; cbn; now left.
    + rewrite executeUnion_many by lia. cbn. right. split; [lia | reflexivity].
Qed.

End BuilderProperties.

(** ** The builder on the queries of the examples *)

Lemma executeFetchColumns_empty_read_witness :
  let q := Examples.select_query false false None None None None Examples.from_t in
  let empty_table := Examples.table_t false QueryProcessingStage.FetchColumns 0 in
  let this := Examples.interpreter q Examples.default_settings
                QueryProcessingStage.Complete (Some empty_table)
                (Examples.analyzer false ["x"]) in
  exists fetched chain,
    Examples.fetch this empty_pipeline false = Ok fetched
    /\ streams (fetched_pipeline fetched) = [chain]
    /\ source_operator chain = NullBlockInputStream ["x"].
Proof.
  intros q empty_table this.
  destruct (Examples.fetch this empty_pipeline false) as [fetched | code message] eqn:E;
    [| vm_compute in E; discriminate E].
  exists fetched.
  destruct (executeFetchColumns_empty_read Examples.profiling Examples.new_union
              Examples.run_union Examples.sample_union Examples.no_regions this
              empty_pipeline false empty_table fetched) as [chain [A B]];
    try reflexivity; [right; reflexivity | exact E |].
  exists chain. split; [reflexivity |]. split; [exact A | exact B].
Defined.

Lemma executeFetchColumns_zero_streams_witness :
  let q := Examples.select_query false false Examples.order_by_x None None None
             Examples.from_t in
  let table_t := Examples.table_t false QueryProcessingStage.FetchColumns 1 in
  let this := with_max_streams
                (Examples.interpreter q Examples.default_settings
                   QueryProcessingStage.Complete (Some table_t)
                   (Examples.analyzer false ["x"])) 0 in
  Examples.fetch this empty_pipeline false
  = Throw LOGICAL_ERROR "Logical error: zero number of streams requested".
Proof.
  intros q table_t this.
  refine (proj2 (executeFetchColumns_zero_streams Examples.profiling Examples.new_union
                   Examples.run_union Examples.sample_union Examples.no_regions this
                   empty_pipeline false table_t _ _ _ _) _);
    try reflexivity.
  split; reflexivity.
Defined.

Lemma executeImpl_target_FetchColumns_witness :
  let q := Examples.select_query false false Examples.order_by_x None None (Some 10)
             Examples.from_t in
  let this := Examples.interpreter q Examples.default_settings
                QueryProcessingStage.FetchColumns
                (Some (Examples.table_t false QueryProcessingStage.FetchColumns 3))
                (Examples.analyzer false ["x"]) in
  exists fetched,
    Examples.fetch this empty_pipeline false = Ok fetched
    /\ Examples.build this empty_pipeline None false
       = Ok (fetched_pipeline fetched, fetched_this fetched).
Proof.
  intros q this.
  destruct (Examples.fetch this empty_pipeline false) as [fetched | code message] eqn:E;
    [| vm_compute in E; discriminate E].
  exists fetched. split; [reflexivity |].
  pose proof (executeImpl_target_FetchColumns Examples.header_x Examples.not_grouped
                Examples.profiling Examples.new_union Examples.run_union
                Examples.sample_union Examples.no_regions this empty_pipeline None false
                fetched eq_refl E) as B.
  cbv zeta in B. destruct B as [B _]. apply B. reflexivity.
Defined.

Lemma executeSecondStage_limit_witness :
  let q := Examples.select_query false false None None (Some 5) (Some 10)
             Examples.from_t in
  let this := Examples.interpreter q Examples.default_settings
                QueryProcessingStage.Complete None (Examples.analyzer false ["x"]) in
  let expressions := analyzeExpressions this QueryProcessingStage.FetchColumns in
  exists p' below always_read_till_end,
    executeSecondStage Examples.header_x Examples.not_grouped Examples.profiling this
      expressions Examples.two_chains false false = Ok p'
    /\ p' = {| streams := [LimitBlockInputStream below 10 5 always_read_till_end];
               streams_with_non_joined_data := [] |}
    /\ leaves below = [SourceStream "t" 0; SourceStream "t" 1].
Proof.
  intros q this expressions.
  destruct (executeSecondStage Examples.header_x Examples.not_grouped Examples.profiling
              this expressions Examples.two_chains false false)
    as [p' | code message] eqn:E; [| vm_compute in E; discriminate E].
  destruct (executeSecondStage_limit Examples.header_x Examples.not_grouped
              Examples.profiling this expressions Examples.two_chains p' false false)
    as [below (_ & [always_read_till_end P] & T)];
    [reflexivity | cbn; discriminate | exact E |].
  exists p', below, always_read_till_end.
  split; [reflexivity |]. split; [exact P | exact T].
Defined.

Lemma executeStages_failures_witness :
  let q := Examples.select_query true false Examples.order_by_x None (Some 5) (Some 10)
             Examples.from_t in
  let this := Examples.interpreter q Examples.default_settings
                QueryProcessingStage.Complete None (Examples.analyzer false ["x"]) in
  exists p', Examples.stages this QueryProcessingStage.FetchColumns Examples.two_chains
             = Ok p'.
Proof.
  intros q this.
  refine (proj2 (executeStages_failures Examples.header_x Examples.not_grouped
                   Examples.profiling this QueryProcessingStage.FetchColumns
                   Examples.two_chains _) _);
    [cbn; discriminate | reflexivity].
Defined.

Lemma executeStages_totals_once_witness :
  let q := Examples.select_query false true None None None None Examples.from_t in
  let this := Examples.interpreter q Examples.default_settings
                QueryProcessingStage.Complete None (Examples.analyzer false ["x"]) in
  exists p',
    Examples.stages this QueryProcessingStage.FetchColumns Examples.two_chains = Ok p'
    /\ totals_in p' = 1%nat.
Proof.
  intros q this.
  destruct (Examples.stages this QueryProcessingStage.FetchColumns Examples.two_chains)
    as [p' | code message] eqn:E; [| vm_compute in E; discriminate E].
  exists p'. split; [reflexivity |].
  exact (executeStages_totals_once Examples.header_x Examples.not_grouped
           Examples.profiling this QueryProcessingStage.FetchColumns Examples.two_chains
           p' eq_refl E).
Defined.

Lemma executeStages_no_dry_program_witness :
  let q := Examples.select_query true false Examples.order_by_x None (Some 5) (Some 10)
             Examples.from_t in
  let this := Examples.interpreter q Examples.default_settings
                QueryProcessingStage.Complete None (Examples.analyzer false ["x"]) in
  exists p',
    Examples.stages this QueryProcessingStage.WithMergeableState Examples.two_chains
    = Ok p'
    /\ dry_in p' = 0%nat.
Proof.
  intros q this.
  destruct (Examples.stages this QueryProcessingStage.WithMergeableState
              Examples.two_chains)
    as [p' | code message] eqn:E; [| vm_compute in E; discriminate E].
  exists p'. split; [reflexivity |].
  exact (executeStages_no_dry_program Examples.header_x Examples.not_grouped
           Examples.profiling this QueryProcessingStage.WithMergeableState
           Examples.two_chains p' E).
Defined.

Lemma executeStages_side_channel_witness :
  let q := Examples.select_query false false None None None None Examples.from_t in
  let this := Examples.interpreter q Examples.default_settings
                QueryProcessingStage.Complete None (Examples.analyzer false ["x"]) in
  exists p',
    Examples.stages this QueryProcessingStage.FetchColumns Examples.joined_chains = Ok p'
    /\ streams_with_non_joined_data p' = [].
Proof.
  intros q this.
  destruct (Examples.stages this QueryProcessingStage.FetchColumns Examples.joined_chains)
    as [p' | code message] eqn:E; [| vm_compute in E; discriminate E].
  exists p'. split; [reflexivity |].
  refine (executeStages_side_channel Examples.header_x Examples.not_grouped
            Examples.profiling this QueryProcessingStage.FetchColumns
            Examples.joined_chains p' _ E).
  left. reflexivity.
Defined.

Lemma executeFirstStage_remote_limit_witness :
  let q := Examples.select_query false false None None (Some 5) (Some 10)
             Examples.from_t in
  let this := Examples.interpreter q Examples.default_settings
                QueryProcessingStage.WithMergeableState None
                (Examples.analyzer false ["x"]) in
  let expressions := analyzeExpressions this QueryProcessingStage.FetchColumns in
  exists p',
    executeFirstStage Examples.header_x Examples.not_grouped this expressions
      Examples.joined_chains false false = Ok p'
    /\ Forall (fun chain => exists below, chain = LimitBlockInputStream below 15 0 false)
         (streams p' ++ streams_with_non_joined_data p').
Proof.
  intros q this expressions.
  destruct (executeFirstStage Examples.header_x Examples.not_grouped this expressions
              Examples.joined_chains false false)
    as [p' | code message] eqn:E; [| vm_compute in E; discriminate E].
  exists p'. split; [reflexivity |].
  exact (executeFirstStage_remote_limit Examples.header_x Examples.not_grouped this
           expressions Examples.joined_chains p' false false eq_refl eq_refl eq_refl
           eq_refl E).
Defined.

Lemma execute_over_chains_witness :
  let q := Examples.select_query false false None None None None Examples.from_t in
  let this := Examples.interpreter q Examples.default_settings
                QueryProcessingStage.Complete
                (Some (Examples.table_t false QueryProcessingStage.FetchColumns 3))
                (Examples.analyzer false ["x"]) in
  exists chains single,
    executeWithMultipleStreams Examples.header_x Examples.not_grouped Examples.profiling
      Examples.new_union Examples.run_union Examples.sample_union Examples.no_regions
      this = Ok chains
    /\ execute Examples.header_x Examples.not_grouped Examples.profiling
         Examples.new_union Examples.run_union Examples.sample_union Examples.no_regions
         this = Ok single
    /\ size chains = 3
    /\ exists threads, single = UnionBlockInputStream chains [] threads.
Proof.
  intros q this.
  destruct (Examples.build this empty_pipeline (input this) false)
    as [[p this'] | code message] eqn:E; [| vm_compute in E; discriminate E].
  destruct (execute_over_chains Examples.header_x Examples.not_grouped Examples.profiling
              Examples.new_union Examples.run_union Examples.sample_union
              Examples.no_regions this this' p E) as [M X].
  destruct (execute Examples.header_x Examples.not_grouped Examples.profiling
              Examples.new_union Examples.run_union Examples.sample_union
              Examples.no_regions this) as [single | code message] eqn:EX;
    [| vm_compute in EX; discriminate EX].
  exists (streams p), single. split; [exact M |]. split; [reflexivity |].
  vm_compute in E. injection E as <- <-.
  destruct X as [X | [_ X]]; [cbn in X; discriminate X |].
  split; [reflexivity |]. eexists. exact X.
Defined.
